(** * ai-presentation-generator: the document model, the generation loops
      and the exporters, embedded from the TypeScript sources.

    Two product flavours live side by side in the repository: the slide
    deck generator (App.tsx, services/geminiService.ts first half,
    services/pptxService.ts) and the illustrated story generator (the
    second App component, the story half of geminiService.ts and the PDF
    service).  Both are embedded below, each in its own module. *)

From Stdlib Require Import NArith ZArith QArith List Ascii String Lia Lqa DecimalString.
From stdpp Require Import base option list gmap.

Set Default Proof Using "Type".

(** ** JavaScript values used by the sources *)

Module JS.

(** A JavaScript string is a sequence of UTF-16 code units; [length],
    [substring], [slice] and regular expressions without the [u] flag all
    work on code units. *)
Definition jsstring := list N.

Definition code (a : ascii) : N := N_of_ascii a.

(** String literals of the sources (all of them ASCII). *)
Definition lit (s : string) : jsstring := map code (list_ascii_of_string s).
Arguments lit s%_string : simpl never.

(** [String(n)] for a non-negative integer. *)
Definition String_of_nat (n : nat) : jsstring :=
  lit (NilEmpty.string_of_uint (Nat.to_uint n)).
Arguments String_of_nat n : simpl never.

(** [s.substring(a, b)] for non-negative integer arguments: both indices
    are clamped to the length and swapped when out of order. *)
Definition substring (s : jsstring) (a b : nat) : jsstring :=
  let a' := a `min` length s in
  let b' := b `min` length s in
  take (a' `max` b' - a' `min` b') (drop (a' `min` b') s).

(** [s.slice(0, n)] for a non-negative [n]. *)
Definition slice0 (s : jsstring) (n : nat) : jsstring := take n s.

(** [s.startsWith(p)]. *)
Fixpoint startsWith (s p : jsstring) {struct p} : bool :=
  match p, s with
  | [], _ => true
  | _ :: _, [] => false
  | c :: p', d :: s' => (c =? d)%N && startsWith s' p'
  end.

(** A thrown value.  [instanceof Error] and the [name] property are all
    the sources ever inspect. *)
Record Thrown := mkThrown {
  instanceof_Error : bool;
  name : jsstring;
  message : jsstring
}.

Definition new_Error (msg : jsstring) : Thrown :=
  {| instanceof_Error := true; name := lit "Error"; message := msg |}.

Definition TypeError (msg : jsstring) : Thrown :=
  {| instanceof_Error := true; name := lit "TypeError"; message := msg |}.

(** [err instanceof Error && err.name === 'AbortError'] *)
Definition is_AbortError (err : Thrown) : bool :=
  instanceof_Error err && bool_decide (name err = lit "AbortError").

(** Completion of an evaluation: a value, or a thrown exception. *)
Inductive Outcome (A : Type) : Type :=
  | Return (a : A)
  | Throw (e : Thrown).
Arguments Return {A} a.
Arguments Throw {A} e.

(** [x || d] on a string: the empty string is falsy. *)
Definition or_else_string {A} (s : jsstring) (k : jsstring -> A) (d : A) : A :=
  match s with
  | [] => d
  | _ :: _ => k s
  end.

End JS.
Import JS.

#[global] Instance jsstring_eq_dec : EqDecision jsstring := _.

(** ** Fixed-size text chunking (both flavours) *)

Module Chunking.

(** The loop
    [for (let i = 0; i < data.length; i += SIZE) chunks.push(data.substring(i, i + SIZE))]
    as a state-passing function on [(i, chunks)].  The loop has no
    syntactic bound, so the model carries fuel; [None] means the fuel ran
    out before the loop condition became false. *)
Fixpoint chunk_loop (SIZE : nat) (data : jsstring) (fuel i : nat)
    (chunks : list jsstring) : option (list jsstring) :=
  if decide (i < length data) then
    match fuel with
    | 0 => None
    | S fuel' =>
        chunk_loop SIZE data fuel' (i + SIZE) (chunks ++ [substring data i (i + SIZE)])
    end
  else Some chunks.

(** The whole loop, started at [i = 0] with [chunks = []].  One unit of
    fuel per code unit is enough whenever [SIZE] is positive
    ([chunk_loop_enough_fuel] below). *)
Definition run_chunk_loop (SIZE : nat) (data : jsstring) : option (list jsstring) :=
  chunk_loop SIZE data (length data) 0 [].

(** [const CHUNK_SIZE = 3000] (presentation flavour). *)
Definition CHUNK_SIZE : nat := 3000.
(** [const PAGE_CHUNK_SIZE = 3200] (story flavour). *)
Definition PAGE_CHUNK_SIZE : nat := 3200.

(** The value of [chunks] after the loop. *)
Definition chunks_of (SIZE : nat) (data : jsstring) : list jsstring :=
  default [] (run_chunk_loop SIZE data).

(** [Math.ceil(n / c)] on non-negative integers. *)
Definition ceil_div (n c : nat) : nat := (n + c - 1) / c.

(** The chunks in closed form: [n] successive pieces of [SIZE] units. *)
Fixpoint pieces (SIZE n : nat) (s : jsstring) : list jsstring :=
  match n with
  | 0 => []
  | S n' => take SIZE s :: pieces SIZE n' (drop SIZE s)
  end.

End Chunking.

(** ** A state-and-exception monad for the async handlers

    An [async] function that is awaited step by step runs, between two
    awaits, as ordinary sequential code over the component state; an
    exception unwinds to the nearest [try].  [M S A] is that: a state
    transformer whose result is an [Outcome]. *)

Module Eff.

Definition M (S A : Type) : Type := S -> Outcome A * S.

Definition ret {S A} (a : A) : M S A := fun s => (Return a, s).

Definition throw {S A} (e : Thrown) : M S A := fun s => (Throw e, s).

Definition bind {S A B} (m : M S A) (k : A -> M S B) : M S B :=
  fun s =>
    match m s with
    | (Return a, s') => k a s'
    | (Throw e, s') => (Throw e, s')
    end.

(** [try { body } catch (err) { handler }] *)
Definition try_catch {S A} (body : M S A) (handler : Thrown -> M S A) : M S A :=
  fun s =>
    match body s with
    | (Return a, s') => (Return a, s')
    | (Throw e, s') => handler e s'
    end.

(** [try { body } finally { fin }] *)
Definition try_finally {S A} (body : M S A) (fin : M S unit) : M S A :=
  fun s =>
    match body s with
    | (r, s') =>
        match fin s' with
        | (Return _, s'') => (r, s'')
        | (Throw e, s'') => (Throw e, s'')
        end
    end.

Definition gets {S A} (f : S -> A) : M S A := fun s => (Return (f s), s).

Definition modify {S} (f : S -> S) : M S unit := fun s => (Return tt, f s).

Declare Scope eff_scope.
Delimit Scope eff_scope with eff.
Notation "'let*' x ':=' m 'in' k" := (bind m (fun x => k))
  (at level 10, x name, m at level 100, k at level 200, only parsing) : eff_scope.
Notation "m ';;' k" := (bind m (fun _ => k))
  (at level 100, k at level 200, right associativity, only parsing) : eff_scope.

End Eff.
Import Eff.

(** ** Presentation flavour: types.ts (first declaration set) *)

Inductive AppState := INPUT | EDITING.

Module SlideScaffold.
Record t := mk {
  id : jsstring;
  title : jsstring;
  content : list jsstring;
  imageUrl : option jsstring   (* string | null *)
}.

(** [Partial<SlideScaffold>]: every property may be absent. *)
Record partial := mkPartial {
  p_id : option jsstring;
  p_title : option jsstring;
  p_content : option (list jsstring);
  p_imageUrl : option (option jsstring)
}.

(** [{ ...s, ...updates }] *)
Definition spread (s : t) (updates : partial) : t :=
  {| id := default (id s) (p_id updates);
     title := default (title s) (p_title updates);
     content := default (content s) (p_content updates);
     imageUrl := default (imageUrl s) (p_imageUrl updates) |}.
End SlideScaffold.

Module PresentationDocument.
Record t := mk {
  id : jsstring;
  title : jsstring;
  slides : list SlideScaffold.t
}.
End PresentationDocument.

(** ** Presentation flavour: services/geminiService.ts and App.tsx *)

Module Presentation.

(** The calls that leave the browser. *)
Inductive Api :=
  | TitleCall                      (* generateContent in generatePresentationTitle *)
  | SlideCall (slideNumber : nat)  (* generateContent in generateSlideFromChunk *)
  | ImageCall.                     (* generateImages in generateSlideImage *)

Inductive Event :=
  | Started (c : Api)
  | Settled (c : Api) (threw : option Thrown).

(** What [JSON.parse(response.text.trim())] yields for a slide. *)
Record SlideJson := mkSlideJson {
  json_title : jsstring;
  json_content : option (list jsstring);   (* may be missing *)
  json_image_prompt : jsstring
}.

(** The outside world: the hosted models and the browser's UUID source.
    Every answer may depend on everything that happened before (the
    trace), so no two calls are assumed to agree. *)
Record World := mkWorld {
  (** the title [generatePresentationTitle] computes from its response,
      or what the request throws *)
  title_response : list Event -> jsstring -> Outcome jsstring;
  (** the parsed JSON answer for one slide; [Throw] covers a failed
      request as well as a [JSON.parse] error *)
  slide_response : list Event -> jsstring -> nat -> nat -> jsstring -> Outcome SlideJson;
  (** [imageBytes] of each entry of [response.generatedImages] *)
  images_response : list Event -> jsstring -> Outcome (list jsstring);
  (** the n-th value returned by [crypto.randomUUID()] *)
  randomUUID_value : nat -> jsstring
}.

(** Component state of [App] ([useState] cells), the console and the
    bookkeeping of the outside world. *)
Record State := mkState {
  appState : AppState;
  presentationDocument : option PresentationDocument.t;
  isLoading : bool;
  loadingMessage : jsstring;
  error : option jsstring;
  console : list Thrown;          (* values passed to console.error *)
  trace : list Event;
  uuids : nat                     (* randomUUID calls so far *)
}.

Definition initial : State :=
  {| appState := INPUT; presentationDocument := None; isLoading := false;
     loadingMessage := []; error := None; console := []; trace := []; uuids := 0 |}.

Definition setAppState (v : AppState) : M State unit :=
  modify (fun s => mkState v (presentationDocument s) (isLoading s) (loadingMessage s)
                    (error s) (console s) (trace s) (uuids s)).
Definition setPresentationDocument (v : option PresentationDocument.t) : M State unit :=
  modify (fun s => mkState (appState s) v (isLoading s) (loadingMessage s)
                    (error s) (console s) (trace s) (uuids s)).
Definition setIsLoading (v : bool) : M State unit :=
  modify (fun s => mkState (appState s) (presentationDocument s) v (loadingMessage s)
                    (error s) (console s) (trace s) (uuids s)).
Definition setLoadingMessage (v : jsstring) : M State unit :=
  modify (fun s => mkState (appState s) (presentationDocument s) (isLoading s) v
                    (error s) (console s) (trace s) (uuids s)).
Definition setError (v : option jsstring) : M State unit :=
  modify (fun s => mkState (appState s) (presentationDocument s) (isLoading s)
                    (loadingMessage s) v (console s) (trace s) (uuids s)).
Definition console_error (e : Thrown) : M State unit :=
  modify (fun s => mkState (appState s) (presentationDocument s) (isLoading s)
                    (loadingMessage s) (error s) (console s ++ [e]) (trace s) (uuids s)).
Definition record (ev : Event) : M State unit :=
  modify (fun s => mkState (appState s) (presentationDocument s) (isLoading s)
                    (loadingMessage s) (error s) (console s) (trace s ++ [ev]) (uuids s)).

(** What a settled request threw, if it did. *)
Definition threw {A} (r : Outcome A) : option Thrown :=
  match r with Return _ => None | Throw e => Some e end.

Section WithWorld.
Variable w : World.
Open Scope eff_scope.

(** [await request]: the request starts, settles, and its completion is
    handed back (a rejection is rethrown at the await). *)
Definition await {A} (c : Api) (answer : list Event -> Outcome A) : M State A :=
  record (Started c) ;;
  let* r := gets (fun s => answer (trace s)) in
  record (Settled c (threw r)) ;;
  match r with
  | Return a => ret a
  | Throw e => throw e
  end.

Definition randomUUID : M State jsstring :=
  let* n := gets uuids in
  modify (fun s => mkState (appState s) (presentationDocument s) (isLoading s)
                    (loadingMessage s) (error s) (console s) (trace s) (S (uuids s))) ;;
  ret (randomUUID_value w n).

(** geminiService.ts *)

Definition generatePresentationTitle (firstChunk : jsstring) : M State jsstring :=
  await TitleCall (fun h => title_response w h firstChunk).

Definition data_url_prefix : jsstring := lit "data:image/jpeg;base64,".

(** [response.generatedImages[0].image.imageBytes]: reading [.image] of
    [undefined] throws a TypeError. *)
Definition first_imageBytes (generatedImages : list jsstring) : M State jsstring :=
  match generatedImages !! 0 with
  | Some imageBytes => ret imageBytes
  | None => throw (TypeError (lit "Cannot read properties of undefined (reading 'image')"))
  end.

Definition generateSlideImage (prompt : jsstring) : M State jsstring :=
  try_catch
    (let* generatedImages := await ImageCall (fun h => images_response w h prompt) in
     let* base64ImageBytes := first_imageBytes generatedImages in
     ret (data_url_prefix ++ base64ImageBytes))
    (fun e =>
       console_error e ;;
       ret []).

Definition generateSlideFromChunk (chunk : jsstring) (slideNumber totalSlides : nat)
    (presentationTitle : jsstring) : M State SlideScaffold.t :=
  let* parsed := await (SlideCall slideNumber)
                   (fun h => slide_response w h chunk slideNumber totalSlides presentationTitle) in
  let* imageUrl := generateSlideImage (json_image_prompt parsed) in
  let* id := randomUUID in
  ret {| SlideScaffold.id := id;
         SlideScaffold.title := json_title parsed;
         SlideScaffold.content := default [] (json_content parsed);
         SlideScaffold.imageUrl := or_else_string imageUrl Some None |}.

(** App.tsx *)

(** [for (const [index, chunk] of chunks.entries()) { ... generatedSlides.push(slide) }]:
    [rest] is what remains of [chunks] from position [index] on. *)
Fixpoint slide_loop (total : nat) (title : jsstring) (rest : list jsstring) (index : nat)
    (generatedSlides : list SlideScaffold.t) : M State (list SlideScaffold.t) :=
  match rest with
  | [] => ret generatedSlides
  | chunk :: rest' =>
      setLoadingMessage (lit "Generating slide " ++ String_of_nat (index + 1) ++ lit " of "
                         ++ String_of_nat total ++ lit "...") ;;
      let* slide := generateSlideFromChunk chunk (index + 1) total title in
      slide_loop total title rest' (S index) (generatedSlides ++ [slide])
  end.

Definition generation_failed_message : jsstring :=
  lit "Failed to generate a presentation. Please check your file and try again.".

Definition handlePresentationGeneration (data : jsstring) : M State unit :=
  setIsLoading true ;;
  setLoadingMessage (lit "Preparing presentation...") ;;
  setError None ;;
  try_finally
    (try_catch
       (let chunks := Chunking.chunks_of Chunking.CHUNK_SIZE data in
        match chunks with
        | [] => throw (new_Error (lit "No text data to process."))
        | firstChunk :: _ =>
            setLoadingMessage (lit "Generating presentation title...") ;;
            let* title := generatePresentationTitle firstChunk in
            let* id := randomUUID in
            let* generatedSlides := slide_loop (length chunks) title chunks 0 [] in
            let doc := {| PresentationDocument.id := id;
                          PresentationDocument.title := title;
                          PresentationDocument.slides := generatedSlides |} in
            setPresentationDocument (Some doc) ;;
            setAppState EDITING
        end)
       (fun err =>
          console_error err ;;
          setError (Some generation_failed_message) ;;
          setAppState INPUT))
    (setIsLoading false ;;
     setLoadingMessage []).

End WithWorld.

(** The exception of a settled text-model request (the title request or
    a slide request), if the event is one. *)
Definition text_call_threw (ev : Event) : option Thrown :=
  match ev with
  | Settled TitleCall (Some e) => Some e
  | Settled (SlideCall _) (Some e) => Some e
  | _ => None
  end.

(** The events a run appended to the trace. *)
Definition events_since (s s' : State) : list Event :=
  drop (length (trace s)) (trace s').

(** The events of slide requests, in the order they happened. *)
Definition slide_event (ev : Event) : option Event :=
  match ev with
  | Started (SlideCall _) => Some ev
  | Settled (SlideCall _) _ => Some ev
  | _ => None
  end.

(** A slide request that starts and settles without throwing, for each
    of the slide numbers [first], [first + 1], ..., [first + count - 1]. *)
Definition settled_in_turn (first count : nat) : list Event :=
  flat_map (fun n => [Started (SlideCall n); Settled (SlideCall n) None]) (seq first count).

(** [slide] was built from the answer to a request that the trace shows
    was started for [chunk] as slide number [n]. *)
Definition built_from (w : World) (tr : list Event) (chunk : jsstring) (n total : nat)
    (title : jsstring) (slide : SlideScaffold.t) : Prop :=
  exists h parsed id imageUrl,
    (h ++ [Started (SlideCall n)]) `prefix_of` tr
    /\ slide_response w (h ++ [Started (SlideCall n)]) chunk n total title = Return parsed
    /\ slide = {| SlideScaffold.id := id;
                  SlideScaffold.title := json_title parsed;
                  SlideScaffold.content := default [] (json_content parsed);
                  SlideScaffold.imageUrl := or_else_string imageUrl Some None |}.

(** The slide that [generateSlideFromChunk] builds from a parsed answer
    and the string [generateSlideImage] returned. *)
Definition slide_of (id : jsstring) (parsed : SlideJson) (imageUrl : jsstring)
    : SlideScaffold.t :=
  {| SlideScaffold.id := id;
     SlideScaffold.title := json_title parsed;
     SlideScaffold.content := default [] (json_content parsed);
     SlideScaffold.imageUrl := or_else_string imageUrl Some None |}.

(** The cells of the component state that the service functions never
    write. *)
Definition same_cells (s s' : State) : Prop :=
  appState s' = appState s /\ presentationDocument s' = presentationDocument s
  /\ error s' = error s /\ isLoading s' = isLoading s.

(** What a run of the handler did, in the two ways it can end. *)
Definition ended_in_failure (w : World) (data : jsstring) (s s' : State) : Prop :=
  error s' = Some generation_failed_message
  /\ appState s' = INPUT
  /\ presentationDocument s' = presentationDocument s
  /\ exists e,
       last (console s') = Some e
       /\ ((Chunking.chunks_of Chunking.CHUNK_SIZE data = []
            /\ events_since s s' = []
            /\ e = new_Error (lit "No text data to process."))
           \/ (omap text_call_threw (events_since s s') = [e]
               /\ exists k,
                    k < length (Chunking.chunks_of Chunking.CHUNK_SIZE data)
                    /\ (omap slide_event (events_since s s') = []
                        \/ omap slide_event (events_since s s')
                           = settled_in_turn 1 k
                             ++ [Started (SlideCall (k + 1));
                                 Settled (SlideCall (k + 1)) (Some e)]))).

Definition ended_in_editor (w : World) (data : jsstring) (s s' : State) : Prop :=
  let chunks := Chunking.chunks_of Chunking.CHUNK_SIZE data in
  error s' = None
  /\ appState s' = EDITING
  /\ omap text_call_threw (events_since s s') = []
  /\ omap slide_event (events_since s s') = settled_in_turn 1 (length chunks)
  /\ exists title slides,
       presentationDocument s'
       = Some {| PresentationDocument.id := randomUUID_value w (uuids s);
                 PresentationDocument.title := title;
                 PresentationDocument.slides := slides |}
       /\ length slides = length chunks
       /\ 0 < length chunks
       /\ forall i chunk, chunks !! i = Some chunk ->
            exists slide, slides !! i = Some slide
              /\ built_from w (trace s') chunk (i + 1) (length chunks) title slide.

(** The sentence "a failed item is skipped and the loop continues with
    the next item", read on the slide loop: whenever the request for slide
    [k] throws something that is not an abort and a later chunk exists, the
    request for slide [k + 1] is started. *)
Definition slide_loop_continues_after_failure : Prop :=
  forall (w : World) (data : jsstring) (s : State) (k : nat) (e : Thrown),
    Settled (SlideCall k) (Some e)
      ∈ events_since s (snd (handlePresentationGeneration w data s)) ->
    is_AbortError e = false ->
    k < length (Chunking.chunks_of Chunking.CHUNK_SIZE data) ->
    Started (SlideCall (k + 1))
      ∈ events_since s (snd (handlePresentationGeneration w data s)).

(** The sentence "if any AI call during handlePresentationGeneration
    throws, the generic error is set, the app state returns to INPUT and
    the document is left unchanged", read on every request that a run of
    the handler makes, the image requests included. *)
Definition any_failed_call_is_reported : Prop :=
  forall (w : World) (data : jsstring) (s : State) (c : Api) (e : Thrown),
    Settled c (Some e) ∈ events_since s (snd (handlePresentationGeneration w data s)) ->
    error (snd (handlePresentationGeneration w data s)) = Some generation_failed_message
    /\ appState (snd (handlePresentationGeneration w data s)) = INPUT
    /\ presentationDocument (snd (handlePresentationGeneration w data s))
       = presentationDocument s.

(** [slideHandlers.onUpdateSlide]: the updater handed to
    [setPresentationDocument]. *)
Definition onUpdateSlide (slideId : jsstring) (updates : SlideScaffold.partial)
    (doc : option PresentationDocument.t) : option PresentationDocument.t :=
  match doc with
  | None => None
  | Some doc =>
      Some {| PresentationDocument.id := PresentationDocument.id doc;
              PresentationDocument.title := PresentationDocument.title doc;
              PresentationDocument.slides :=
                map (fun s => if decide (SlideScaffold.id s = slideId)
                              then SlideScaffold.spread s updates else s)
                    (PresentationDocument.slides doc) |}
  end.

End Presentation.

(** ** Story flavour: types.ts (second declaration set) *)

Inductive RobotState := idle | thinking | writing.

Module PageScaffold.
Record t := mk {
  id : jsstring;
  page_number : nat;
  page_text : jsstring;
  ai_suggestions : list jsstring;
  images : list jsstring
}.

(** [Partial<PageScaffold>] *)
Record partial := mkPartial {
  p_id : option jsstring;
  p_page_number : option nat;
  p_page_text : option jsstring;
  p_ai_suggestions : option (list jsstring);
  p_images : option (list jsstring)
}.

(** [{ ...p, ...updates }] *)
Definition spread (p : t) (updates : partial) : t :=
  {| id := default (id p) (p_id updates);
     page_number := default (page_number p) (p_page_number updates);
     page_text := default (page_text p) (p_page_text updates);
     ai_suggestions := default (ai_suggestions p) (p_ai_suggestions updates);
     images := default (images p) (p_images updates) |}.
End PageScaffold.

Module ChapterScaffold.
Record t := mk {
  id : jsstring;
  title : jsstring;
  summary : jsstring;
  pages : list PageScaffold.t
}.
End ChapterScaffold.

Module StoryDocument.
Record t := mk {
  id : jsstring;
  title : jsstring;
  chapters : list ChapterScaffold.t
}.
End StoryDocument.

(** ** JavaScript arrays that may have empty slots *)

Module Sparse.

(** An array whose slots may be empty: [None] is an empty slot, read as
    [undefined]. *)
Abbreviation t A := (list (option A)).

(** [a[i]]; [None] is [undefined]. *)
Definition get {A} (a : t A) (i : nat) : option A := mjoin (a !! i).

(** [a[i] = v]: inside the array the slot is overwritten; at or beyond
    the end the array grows, the slots in between staying empty. *)
Definition set {A} (a : t A) (i : nat) (v : A) : t A :=
  if decide (i < length a) then <[i := Some v]> a
  else a ++ replicate (i - length a) None ++ [Some v].

(** The array as a plain list, when no slot is empty. *)
Fixpoint dense {A} (a : t A) : option (list A) :=
  match a with
  | [] => Some []
  | None :: _ => None
  | Some x :: a' => match dense a' with Some l => Some (x :: l) | None => None end
  end.

(** [l.reduce((acc, x, i) => f(acc, x, i), init)], with [i] counted
    from [start]. *)
Fixpoint reduce_from {A B} (f : B -> A -> nat -> B) (l : list A) (start : nat) (acc : B) : B :=
  match l with
  | [] => acc
  | x :: l' => reduce_from f l' (S start) (f acc x start)
  end.

End Sparse.

(** Groups of five in closed form: group [j] is items [5j] to [5j+4], as
    far as they exist. *)
Definition groups_of_five {A} (l : list A) : list (list A) :=
  map (fun j => take 5 (drop (5 * j) l)) (seq 0 (Chunking.ceil_div (length l) 5)).

(** ** Story flavour: services/geminiService.ts and the story App *)

Module Story.

Inductive Api :=
  | StoryTitleCall           (* generateContent in generateStoryTitle *)
  | ChapterCall (i : nat)    (* generateChapterFromChunk at loop index i *)
  | PageImageCall.           (* generateImages in generatePageImage *)

(** What the [storyDocument] cell holds at run time: an object with the
    three fields of a [StoryDocument].  The declared type of [chapters] is
    [ChapterScaffold[]], but an index assignment beyond the end of a
    JavaScript array leaves empty slots, so the cell is modelled with the
    slots of the array.  A slot that is empty and one that holds
    [undefined] are not told apart: the two updaters of the generation
    loop treat them alike. *)
Record Stored := mkStored {
  stored_id : jsstring;
  stored_title : jsstring;
  stored_chapters : Sparse.t ChapterScaffold.t
}.

(** [null], or a document object. *)
Definition Cell := option Stored.

(** A document of the declared type as the cell holds it, and back: a
    stored document is of the declared type when no slot of its chapter
    array is empty. *)
Definition stored_of (d : StoryDocument.t) : Stored :=
  mkStored (StoryDocument.id d) (StoryDocument.title d) (Some <$> StoryDocument.chapters d).

Definition declared_of (h : Stored) : option StoryDocument.t :=
  match Sparse.dense (stored_chapters h) with
  | Some chapters => Some (StoryDocument.mk (stored_id h) (stored_title h) chapters)
  | None => None
  end.

(** What can happen to a running generation while one of its requests is
    in flight.  The generation is started without being awaited, and the
    editor is live meanwhile: the user can press the stop button
    ([handleStopGeneration]) or the start-over button ([handleReset]), and
    any handler the editor was given ([pageHandlers], [editorActions], or
    the editor itself through [setDoc]) can replace the document by
    [setStoryDocument(update)].  What those handlers write besides (the
    robot state, the error message, the console) is in no cell that the
    loop reads. *)
Inductive UserAction :=
  | ClickStop
  | ClickStartOver
  | EditDocument (update : Cell -> Cell).

Inductive Event :=
  | Started (c : Api)
  | Settled (c : Api) (threw : option Thrown)
  (** the chapter request of loop index [i] settled, with its result *)
  | ChapterSettled (i : nat) (r : Outcome ChapterScaffold.t)
  | UserDid (a : UserAction).

Inductive ConsoleEntry :=
  | console_log (msg : jsstring)
  | console_error (msg : option jsstring) (err : Thrown).

Record GenerationStatus := mkStatus {
  active : bool;
  completed : nat;
  total : nat
}.

Record World := mkWorld {
  story_title_response : list Event -> jsstring -> Outcome jsstring;
  (** what [generateChapterFromChunk(pageChunks, chapterNumber,
      totalChapters, storyTitle)] resolves to, or what it rejects with *)
  chapter_response :
    list Event -> list jsstring -> nat -> nat -> jsstring -> Outcome ChapterScaffold.t;
  (** [imageBytes] of each entry of [response.generatedImages] *)
  images_response : list Event -> jsstring -> Outcome (list jsstring);
  randomUUID_value : nat -> jsstring;
  (** what happens in the editor while the request that the trace ends
      with is in flight, in order (handlers run only between awaits: the
      event loop is single-threaded) *)
  user_actions : list Event -> list UserAction
}.

(** Component state of the story [App]: the [useState] cells, the
    [generationController] ref with the AbortControllers it has pointed
    to (one flag [signal.aborted] each), the console and the trace. *)
Record State := mkState {
  appState : AppState;
  storyDocument : option StoryDocument.t;
  isLoading : bool;
  loadingMessage : jsstring;
  error : option jsstring;
  generationStatus : GenerationStatus;
  controllers : list bool;
  generationController : option nat;   (* .current: index into controllers, or null *)
  robotState : RobotState;
  console : list ConsoleEntry;
  trace : list Event;
  uuids : nat
}.

Definition initial : State :=
  {| appState := INPUT; storyDocument := None; isLoading := false; loadingMessage := [];
     error := None; generationStatus := mkStatus false 0 0; controllers := [];
     generationController := None; robotState := idle; console := []; trace := [];
     uuids := 0 |}.

Definition setAppState (v : AppState) (s : State) : State :=
  mkState v (storyDocument s) (isLoading s) (loadingMessage s) (error s) (generationStatus s)
    (controllers s) (generationController s) (robotState s) (console s) (trace s) (uuids s).
Definition setStoryDocument (v : option StoryDocument.t) (s : State) : State :=
  mkState (appState s) v (isLoading s) (loadingMessage s) (error s) (generationStatus s)
    (controllers s) (generationController s) (robotState s) (console s) (trace s) (uuids s).
Definition setIsLoading (v : bool) (s : State) : State :=
  mkState (appState s) (storyDocument s) v (loadingMessage s) (error s) (generationStatus s)
    (controllers s) (generationController s) (robotState s) (console s) (trace s) (uuids s).
Definition setLoadingMessage (v : jsstring) (s : State) : State :=
  mkState (appState s) (storyDocument s) (isLoading s) v (error s) (generationStatus s)
    (controllers s) (generationController s) (robotState s) (console s) (trace s) (uuids s).
Definition setError (v : option jsstring) (s : State) : State :=
  mkState (appState s) (storyDocument s) (isLoading s) (loadingMessage s) v (generationStatus s)
    (controllers s) (generationController s) (robotState s) (console s) (trace s) (uuids s).
(** [setGenerationStatus(s => f(s))] *)
Definition setGenerationStatus (f : GenerationStatus -> GenerationStatus) (s : State) : State :=
  mkState (appState s) (storyDocument s) (isLoading s) (loadingMessage s) (error s)
    (f (generationStatus s))
    (controllers s) (generationController s) (robotState s) (console s) (trace s) (uuids s).
Definition setRobotState (v : RobotState) (s : State) : State :=
  mkState (appState s) (storyDocument s) (isLoading s) (loadingMessage s) (error s)
    (generationStatus s) (controllers s) (generationController s) v (console s) (trace s) (uuids s).
Definition to_console (e : ConsoleEntry) (s : State) : State :=
  mkState (appState s) (storyDocument s) (isLoading s) (loadingMessage s) (error s)
    (generationStatus s) (controllers s) (generationController s) (robotState s)
    (console s ++ [e]) (trace s) (uuids s).
Definition record (ev : Event) (s : State) : State :=
  mkState (appState s) (storyDocument s) (isLoading s) (loadingMessage s) (error s)
    (generationStatus s) (controllers s) (generationController s) (robotState s)
    (console s) (trace s ++ [ev]) (uuids s).
Definition take_uuid (s : State) : State :=
  mkState (appState s) (storyDocument s) (isLoading s) (loadingMessage s) (error s)
    (generationStatus s) (controllers s) (generationController s) (robotState s)
    (console s) (trace s) (S (uuids s)).

(** [generationController.current = new AbortController()] *)
Definition new_AbortController (s : State) : nat * State :=
  (length (controllers s),
   mkState (appState s) (storyDocument s) (isLoading s) (loadingMessage s) (error s)
     (generationStatus s) (controllers s ++ [false]) (Some (length (controllers s)))
     (robotState s) (console s) (trace s) (uuids s)).

(** [generationController.current?.abort()] *)
Definition abort_current (s : State) : State :=
  match generationController s with
  | None => s
  | Some c =>
      mkState (appState s) (storyDocument s) (isLoading s) (loadingMessage s) (error s)
        (generationStatus s) (<[c := true]> (controllers s)) (generationController s)
        (robotState s) (console s) (trace s) (uuids s)
  end.

(** [signal.aborted] for the signal of controller [c]. *)
Definition signal_aborted (c : nat) (s : State) : bool :=
  default false (controllers s !! c).

Definition handleStopGeneration (s : State) : State := abort_current s.

Definition handleReset (s : State) : State :=
  setRobotState idle
    (setGenerationStatus (fun _ => mkStatus false 0 0)
       (setIsLoading false
          (setError None
             (setStoryDocument None
                (setAppState INPUT
                   (abort_current s)))))).

(** The component state as the background generation meets it.  While
    every slot of the chapter array is filled, the document cell is
    [storyDocument] of [component] and [sparse_document] is [None]; a
    document with an empty slot, which [storyDocument] has no value for, is
    held in [sparse_document], and [storyDocument] is then not read. *)
Record Running := mkRunning {
  component : State;
  sparse_document : option Stored
}.

Definition running (s : State) : Running := mkRunning s None.

Definition on_component (f : State -> State) (r : Running) : Running :=
  mkRunning (f (component r)) (sparse_document r).

(** The document cell. *)
Definition document_cell (r : Running) : Cell :=
  match sparse_document r with
  | Some h => Some h
  | None => stored_of <$> storyDocument (component r)
  end.

(** [setStoryDocument(v)] *)
Definition set_document_cell (v : Cell) (r : Running) : Running :=
  match v with
  | None => mkRunning (setStoryDocument None (component r)) None
  | Some h =>
      match declared_of h with
      | Some d => mkRunning (setStoryDocument (Some d) (component r)) None
      | None => mkRunning (component r) (Some h)
      end
  end.

Definition perform (a : UserAction) (r : Running) : Running :=
  let r := on_component (record (UserDid a)) r in
  match a with
  | ClickStop => on_component handleStopGeneration r
  | ClickStartOver => mkRunning (handleReset (component r)) None
  | EditDocument update => set_document_cell (update (document_cell r)) r
  end.

(** What a settled request threw, if it did. *)
Definition threw {A} (r : Outcome A) : option Thrown :=
  match r with Return _ => None | Throw e => Some e end.

(** geminiService.ts: [generatePageImage] *)

Definition data_url_prefix : jsstring := lit "data:image/jpeg;base64,".

Definition newline : jsstring := [10%N].

(** The template literal of [generatePageImage]; a missing [mood]
    argument interpolates as the text [undefined]. *)
Definition page_image_prompt (pageText : jsstring) (mood : option jsstring) : jsstring :=
  lit "Generate a professional, Forbes-quality magazine illustration for a story." ++ newline
  ++ lit "Style: " ++ default (lit "undefined") mood ++ lit "." ++ newline
  ++ lit "The scene is described as: " ++ [34%N] ++ slice0 pageText 500 ++ [34%N] ++ lit "."
  ++ newline
  ++ lit "Focus on cinematic lighting, high detail, and a clear focal point. This is a masterpiece illustration."
  ++ newline
  ++ lit "Negative prompt: ugly, blurry, deformed, watermark, text, signature, amateurish.".

Section WithWorld.
Variable w : World.
Open Scope eff_scope.

Definition await_images (prompt : jsstring) : M State (list jsstring) :=
  fun s =>
    let s1 := record (Started PageImageCall) s in
    let r := images_response w (trace s1) prompt in
    (r, record (Settled PageImageCall (threw r)) s1).

Definition first_imageBytes (generatedImages : list jsstring) : M State jsstring :=
  match generatedImages !! 0 with
  | Some imageBytes => ret imageBytes
  | None => throw (TypeError (lit "Cannot read properties of undefined (reading 'image')"))
  end.

Definition generatePageImage (pageText : jsstring) (mood : option jsstring) : M State jsstring :=
  let prompt := page_image_prompt pageText mood in
  try_catch
    (let* generatedImages := await_images prompt in
     let* imageBytes := first_imageBytes generatedImages in
     ret (data_url_prefix ++ imageBytes))
    (fun e =>
       modify (to_console (console_error (Some (lit "Image generation failed")) e)) ;;
       ret []).

(** The story App *)

(** The reducer of [handleScaffoldGeneration]:
    [const chapterIndex = Math.floor(i / 5);
     if (!acc[chapterIndex]) acc[chapterIndex] = [];
     acc[chapterIndex].push(chunk); return acc;]
    (an array, even an empty one, is truthy). *)
Definition group_step (acc : Sparse.t (list jsstring)) (chunk : jsstring) (i : nat)
    : Sparse.t (list jsstring) :=
  let chapterIndex := i / 5 in
  let acc' := match Sparse.get acc chapterIndex with
              | None => Sparse.set acc chapterIndex []
              | Some _ => acc
              end in
  Sparse.set acc' chapterIndex (default [] (Sparse.get acc' chapterIndex) ++ [chunk]).

(** [chunks.reduce(..., [] as string[][])] *)
Definition group_chunks (chunks : list jsstring) : Sparse.t (list jsstring) :=
  Sparse.reduce_from group_step chunks 0 [].

(** [chapterChunks] as the [string[][]] the rest of the handler uses; the
    reducer never leaves an empty slot ([group_chunks_dense] below). *)
Definition chapterChunks_of (chunks : list jsstring) : list (list jsstring) :=
  default [] (Sparse.dense (group_chunks chunks)).

Definition pending_title (i : nat) : jsstring :=
  lit "Chapter " ++ String_of_nat (i + 1) ++ lit " (pending...)".

Definition failed_title (i : nat) : jsstring :=
  lit "Chapter " ++ String_of_nat (i + 1) ++ lit " (Failed)".

(** [chapterChunks.map((_, i) => ({ id: crypto.randomUUID(), title: ..., summary: ..., pages: [] }))],
    the UUIDs being drawn in index order starting with draw number [u]. *)
Definition pending_chapters (chapterChunks : list (list jsstring)) (u : nat)
    : list ChapterScaffold.t :=
  imap (fun i _ =>
          {| ChapterScaffold.id := randomUUID_value w (u + i);
             ChapterScaffold.title := pending_title i;
             ChapterScaffold.summary := lit "AI summary will appear here.";
             ChapterScaffold.pages := [] |})
       chapterChunks.

(** How a run of the background generation ends. *)
Inductive Exit :=
  | Completed                    (* the for loop ran to its end *)
  | StoppedByUser                (* [signal.aborted] at the top of an iteration *)
  | AbortErrorReturn             (* the [AbortError] return in the catch block *)
  | UpdaterThrew (e : Thrown)    (* a state updater threw when React applied it *)
  | ScaffoldFailed               (* the catch block of handleScaffoldGeneration *)
  (** the run ended as [how] with the document cell holding [doc], whose
      chapter array has an empty slot; [storyDocument] of the final state
      is then not the cell *)
  | EmptySlots (how : Exit) (doc : Stored).

(** The updater of the success path:
    [doc => { if (!doc || doc.id !== docId) return doc;
              const newChapters = [...doc.chapters]; newChapters[i] = chapter;
              return { ...doc, chapters: newChapters }; }]
    The spread copies the array, an empty slot being read as [undefined];
    the assignment overwrites slot [i] or, at or beyond the end, grows the
    array up to it. *)
Definition store_chapter (docId : jsstring) (i : nat) (chapter : ChapterScaffold.t)
    (doc : Cell) : Cell :=
  match doc with
  | None => None
  | Some d =>
      if decide (stored_id d = docId) then
        Some (mkStored (stored_id d) (stored_title d)
                (Sparse.set (stored_chapters d) i chapter))
      else doc
  end.

(** [c.title = t] (the chapter object is updated in place). *)
Definition set_title (c : ChapterScaffold.t) (t : jsstring) : ChapterScaffold.t :=
  {| ChapterScaffold.id := ChapterScaffold.id c;
     ChapterScaffold.title := t;
     ChapterScaffold.summary := ChapterScaffold.summary c;
     ChapterScaffold.pages := ChapterScaffold.pages c |}.

(** The updater of the failure path:
    [doc => { if (!doc) return null;
              doc.chapters[i].title = `Chapter ${i+1} (Failed)`; return { ...doc }; }]
    Writing [.title] of [undefined] throws a TypeError. *)
Definition mark_failed (i : nat) (doc : Cell) : Outcome Cell :=
  match doc with
  | None => Return None
  | Some d =>
      match Sparse.get (stored_chapters d) i with
      | Some c =>
          Return (Some (mkStored (stored_id d) (stored_title d)
                          (<[i := Some (set_title c (failed_title i))]> (stored_chapters d))))
      | None =>
          Throw (TypeError (lit "Cannot set properties of undefined (setting 'title')"))
      end
  end.

(** [await gemini.generateChapterFromChunk(...)] at loop index [i]: the
    request starts, the editor is used while it is in flight, then it
    settles. *)
Definition await_chapter (i : nat) (pageChunks : list jsstring) (total : nat)
    (storyTitle : jsstring) (r : Running) : Outcome ChapterScaffold.t * Running :=
  let r1 := on_component (record (Started (ChapterCall i))) r in
  let r2 := foldl (fun r a => perform a r) r1 (user_actions w (trace (component r1))) in
  let res := chapter_response w (trace (component r2)) pageChunks (i + 1) total storyTitle in
  (res, on_component (record (ChapterSettled i res)) r2).

(** [for (let i = 0; i < chapterChunks.length; i++) { ... }] and the two
    statements after it; [rest] is what remains of [chapterChunks] from
    index [i] on, [total] is [chapterChunks.length], [signal] the signal
    of the controller created on entry. *)
Fixpoint run_chapter_loop (docId : jsstring) (total : nat) (storyTitle : jsstring)
    (signal : nat) (rest : list (list jsstring)) (i : nat) (r : Running) : Exit * Running :=
  match rest with
  | [] =>
      (Completed,
       on_component
         (fun s => setRobotState idle
                     (setGenerationStatus (fun _ => mkStatus false total total) s)) r)
  | pageChunks :: rest' =>
      if signal_aborted signal (component r) then
        (StoppedByUser,
         on_component
           (fun s => setRobotState idle
                       (setGenerationStatus
                          (fun g => mkStatus false (completed g) (Story.total g))
                          (to_console (console_log (lit "Generation stopped by user.")) s))) r)
      else
        match await_chapter i pageChunks total storyTitle r with
        | (Return chapter, r1) =>
            run_chapter_loop docId total storyTitle signal rest' (S i)
              (on_component
                 (setGenerationStatus (fun g => mkStatus (active g) (i + 1) (Story.total g)))
                 (set_document_cell (store_chapter docId i chapter (document_cell r1)) r1))
        | (Throw err, r1) =>
            if is_AbortError err then (AbortErrorReturn, r1)
            else
              let r2 := on_component
                          (to_console
                             (console_error
                                (Some (lit "Failed to generate chapter "
                                       ++ String_of_nat (i + 1)))
                                err)) r1 in
              match mark_failed i (document_cell r2) with
              | Return doc' =>
                  run_chapter_loop docId total storyTitle signal rest' (S i)
                    (set_document_cell doc' r2)
              | Throw e => (UpdaterThrew e, r2)
              end
        end
  end.

(** How a run is reported: the exit and the component state, the exit
    telling when the document cell is not [storyDocument]. *)
Definition finish (run : Exit * Running) : Exit * State :=
  match sparse_document (snd run) with
  | None => (fst run, component (snd run))
  | Some h => (EmptySlots (fst run) h, component (snd run))
  end.

(** The loop, entered with the component state [s]. *)
Definition chapter_loop (docId : jsstring) (total : nat) (storyTitle : jsstring)
    (signal : nat) (rest : list (list jsstring)) (i : nat) (s : State) : Exit * State :=
  finish (run_chapter_loop docId total storyTitle signal rest i (running s)).

(** [storyDocument?.title || 'Untitled'], where [storyDocument] is the
    value the handler closed over. *)
Definition title_or_Untitled (captured : option StoryDocument.t) : jsstring :=
  match captured with
  | Some d => or_else_string (StoryDocument.title d) (fun t => t) (lit "Untitled")
  | None => lit "Untitled"
  end.

Definition startChapterGeneration (captured : option StoryDocument.t) (docId : jsstring)
    (chapterChunks : list (list jsstring)) (s : State) : Exit * State :=
  let '(signal, s1) := new_AbortController s in
  let s2 := setRobotState writing s1 in
  chapter_loop docId (length chapterChunks) (title_or_Untitled captured) signal
    chapterChunks 0 s2.

(** How the awaited part of [handleScaffoldGeneration] ends: with the
    arguments it hands to [startChapterGeneration], or in its catch
    block. *)
Inductive Prepared :=
  | Scaffolded (docId : jsstring) (chapterChunks : list (list jsstring))
  | Caught.

(** The catch block of [handleScaffoldGeneration]. *)
Definition scaffold_catch (err : Thrown) (s : State) : Prepared * State :=
  (Caught,
   handleReset
     (setError (Some (lit "Failed to generate a story scaffold. Please try again."))
        (to_console (console_error None err) s))).

(** [handleScaffoldGeneration(data)] up to, and not including, the call of
    [startChapterGeneration]. *)
Definition prepare_scaffold (data : jsstring) (s : State) : Prepared * State :=
  let s := setRobotState thinking
             (setError None
                (setLoadingMessage (lit "Analyzing document...")
                   (setIsLoading true s))) in
  let chunks := Chunking.chunks_of Chunking.PAGE_CHUNK_SIZE data in
  match chunks with
  | [] => scaffold_catch (new_Error (lit "No text data to process.")) s
  | firstChunk :: _ =>
      let s := setLoadingMessage (lit "Generating story title...") s in
      let s := record (Started StoryTitleCall) s in
      let r := story_title_response w (trace s) firstChunk in
      let s := record (Settled StoryTitleCall (threw r)) s in
      match r with
      | Throw err => scaffold_catch err s
      | Return title =>
          let docId := randomUUID_value w (uuids s) in
          let s := take_uuid s in
          let chapterChunks := chapterChunks_of chunks in
          let chapters := pending_chapters chapterChunks (uuids s) in
          let s := Nat.iter (length chapterChunks) take_uuid s in
          let doc := {| StoryDocument.id := docId;
                        StoryDocument.title := title;
                        StoryDocument.chapters := chapters |} in
          let s := setStoryDocument (Some doc) s in
          let s := setGenerationStatus
                     (fun _ => mkStatus true 0 (length chapterChunks)) s in
          let s := setAppState EDITING s in
          let s := setIsLoading false s in
          (Scaffolded docId chapterChunks, s)
      end
  end.

(** [handleScaffoldGeneration(data)], followed by the background
    generation it starts without awaiting it.  [storyDocument] inside
    [startChapterGeneration] is the value of the render in which the
    handler was created. *)
Definition handleScaffoldGeneration (data : jsstring) (s : State) : Exit * State :=
  let captured := storyDocument s in
  match prepare_scaffold data s with
  | (Scaffolded docId chapterChunks, s') =>
      startChapterGeneration captured docId chapterChunks s'
  | (Caught, s') => (ScaffoldFailed, s')
  end.

End WithWorld.

(** No handler of the editor replaced the document during these
    events. *)
Definition no_edits (evs : list Event) : Prop :=
  forall update, UserDid (EditDocument update) ∉ evs.

(** What the run leaves at index [j] of the chapter array, given what
    the request of that index settled with and what was there before. *)
Definition left_at (j : nat) (r : Outcome ChapterScaffold.t) (before : option ChapterScaffold.t)
    : option ChapterScaffold.t :=
  match r with
  | Return chapter => Some chapter
  | Throw e =>
      if is_AbortError e then before
      else (fun c => set_title c (failed_title j)) <$> before
  end.

(** What a run [run] of the chapter loop over [rest], begun at index [i]
    in [r] and appending the events [new], guarantees.  Always: every
    settled request was made for the group of its own index.  When no
    handler of the editor replaced the document meanwhile and the run began
    with no empty slot: a missing document stays missing; starting over
    leaves no document; and otherwise a document of the run, with a chapter
    for every index of the loop, keeps its identity and size, gets no empty
    slot, is untouched below [i], and holds at each settled index what that
    request left there. *)
Definition loop_post (w : World) (docId : jsstring) (total : nat) (storyTitle : jsstring)
    (rest : list (list jsstring)) (i : nat) (r : Running) (run : Exit * Running)
    (new : list Event) : Prop :=
  trace (component (snd run)) = trace (component r) ++ new
  /\ (forall j res, ChapterSettled j res ∈ new ->
        i <= j
        /\ exists h pageChunks,
             rest !! (j - i) = Some pageChunks
             /\ res = chapter_response w h pageChunks (j + 1) total storyTitle)
  /\ (no_edits new ->
      (UserDid ClickStartOver ∈ new ->
       storyDocument (component (snd run)) = None /\ sparse_document (snd run) = None)
      /\ (sparse_document r = None ->
          (storyDocument (component r) = None ->
           storyDocument (component (snd run)) = None /\ sparse_document (snd run) = None)
          /\ (forall d,
                storyDocument (component r) = Some d ->
                StoryDocument.id d = docId ->
                length (StoryDocument.chapters d) = i + length rest ->
                UserDid ClickStartOver ∉ new ->
                exists d',
                  storyDocument (component (snd run)) = Some d'
                  /\ sparse_document (snd run) = None
                  /\ StoryDocument.id d' = docId
                  /\ StoryDocument.title d' = StoryDocument.title d
                  /\ length (StoryDocument.chapters d') = length (StoryDocument.chapters d)
                  /\ (forall j, j < i ->
                        StoryDocument.chapters d' !! j = StoryDocument.chapters d !! j)
                  /\ (forall j res, ChapterSettled j res ∈ new ->
                        StoryDocument.chapters d' !! j
                        = left_at j res (StoryDocument.chapters d !! j))
                  /\ (fst run = Completed \/ fst run = StoppedByUser
                      \/ fst run = AbortErrorReturn)))).

(** The events of chapter requests, in the order they happened. *)
Definition chapter_event (ev : Event) : option Event :=
  match ev with
  | Started (ChapterCall _) => Some ev
  | ChapterSettled _ _ => Some ev
  | _ => None
  end.

(** The chapter requests of indices [next], [next + 1], ... each start and
    settle before the following one starts. *)
Fixpoint in_turn (next : nat) (tr : list Event) : bool :=
  match tr with
  | [] => true
  | Started (ChapterCall i) :: ChapterSettled j _ :: tr' =>
      bool_decide (i = next) && bool_decide (j = next) && in_turn (S next) tr'
  | _ => false
  end.

(** The two buttons that abort the generation. *)
Definition is_press (a : UserAction) : bool :=
  match a with
  | ClickStop | ClickStartOver => true
  | EditDocument _ => false
  end.

(** No chapter request starts after the user pressed a button:
    [pressed] tells whether a button was pressed before [tr]. *)
Fixpoint none_started_after_click (pressed : bool) (tr : list Event) : bool :=
  match tr with
  | [] => true
  | UserDid a :: tr' => none_started_after_click (pressed || is_press a) tr'
  | Started (ChapterCall _) :: tr' => negb pressed && none_started_after_click pressed tr'
  | _ :: tr' => none_started_after_click pressed tr'
  end.

(** The events a run appended to the trace. *)
Definition events_since (s s' : State) : list Event :=
  drop (length (trace s)) (trace s').

(** [pageHandlers.onUpdatePage]: the updater handed to [setStoryDocument]. *)
Definition onUpdatePage (chapterId pageId : jsstring) (updates : PageScaffold.partial)
    (doc : option StoryDocument.t) : option StoryDocument.t :=
  match doc with
  | None => None
  | Some doc =>
      Some {| StoryDocument.id := StoryDocument.id doc;
              StoryDocument.title := StoryDocument.title doc;
              StoryDocument.chapters :=
                map (fun c =>
                       if decide (ChapterScaffold.id c = chapterId) then
                         {| ChapterScaffold.id := ChapterScaffold.id c;
                            ChapterScaffold.title := ChapterScaffold.title c;
                            ChapterScaffold.summary := ChapterScaffold.summary c;
                            ChapterScaffold.pages :=
                              map (fun p => if decide (PageScaffold.id p = pageId)
                                            then PageScaffold.spread p updates else p)
                                  (ChapterScaffold.pages c) |}
                       else c)
                    (StoryDocument.chapters doc) |}
  end.

End Story.


(** ** Exported file names (pptxService.ts and the PDF service) *)

Module FileName.

(** The parts of the engine's Unicode case tables that lie outside
    ASCII; inside ASCII the conversions are the ones written out below. *)
Record Unicode := mkUnicode {
  (** [toUppercase] of the one-unit string made of a code unit >= 128 *)
  upper_of_unit : N -> jsstring;
  (** [toLowerCase] of a string that has a code unit >= 128 *)
  lower_of_string : jsstring -> jsstring
}.

Definition is_ascii (ch : N) : bool := (ch <? 128)%N.

Definition ascii_upper (ch : N) : N :=
  if (97 <=? ch)%N && (ch <=? 122)%N then (ch - 32)%N else ch.

Definition ascii_lower (ch : N) : N :=
  if (65 <=? ch)%N && (ch <=? 90)%N then (ch + 32)%N else ch.

Section WithUnicode.
Variable uc : Unicode.

(** [s.toLowerCase()] *)
Definition toLowerCase (s : jsstring) : jsstring :=
  if forallb is_ascii s then map ascii_lower s else lower_of_string uc s.

(** Canonicalize(ch) of the regular-expression semantics, for a pattern
    with the [i] flag and without the [u] flag: upper-case the one-unit
    string; keep [ch] if the result is not a single unit, or if it would
    map a non-ASCII unit into ASCII. *)
Definition Canonicalize (ch : N) : N :=
  let u := if is_ascii ch then [ascii_upper ch] else upper_of_unit uc ch in
  match u with
  | [cu] => if (128 <=? ch)%N && (cu <? 128)%N then ch else cu
  | _ => ch
  end.

(** The members of the class [a-z0-9]. *)
Definition class_a_z_0_9 : list N :=
  map N.of_nat (seq 97 26 ++ seq 48 10).

(** Does the class atom [[^a-z0-9]] with flag [i] match the code unit?
    A member matches when its canonical form equals that of [ch]; the
    caret inverts. *)
Definition matches_not_a_z_0_9_i (ch : N) : bool :=
  negb (existsb (fun a => (Canonicalize a =? Canonicalize ch)%N) class_a_z_0_9).

(** [s.replace(/[^a-z0-9]/gi, '_')]: the pattern consumes one code unit,
    so the global replace visits every unit once. *)
Definition replace_non_alnum (s : jsstring) : jsstring :=
  flat_map (fun ch => if matches_not_a_z_0_9_i ch then lit "_" else [ch]) s.

(** [`${doc.title.replace(/[^a-z0-9]/gi, '_').toLowerCase()}.pptx`] *)
Definition pptx_fileName (title : jsstring) : jsstring :=
  toLowerCase (replace_non_alnum title) ++ lit ".pptx".

(** [`${doc.title.replace(/[^a-z0-9]/gi, '_').toLowerCase()}.pdf`] *)
Definition pdf_fileName (title : jsstring) : jsstring :=
  toLowerCase (replace_non_alnum title) ++ lit ".pdf".

End WithUnicode.

(** The description of the file name in words: a code unit is kept when
    it is an ASCII letter or digit and replaced by an underscore
    otherwise, then letters are lowered, then the extension follows. *)
Definition is_ascii_letter_or_digit (ch : N) : bool :=
  ((65 <=? ch) && (ch <=? 90) || (97 <=? ch) && (ch <=? 122) || (48 <=? ch) && (ch <=? 57))%N.

Definition described_name (title ext : jsstring) : jsstring :=
  map ascii_lower
      (map (fun ch => if is_ascii_letter_or_digit ch then ch else 95%N) title)
  ++ ext.

(** On ASCII code units the class test is decided by a table look-up, which
    is checked unit by unit. *)
Definition ascii_table_agrees (n : nat) : bool :=
  bool_decide
    (existsb (fun a => (ascii_upper a =? ascii_upper (N.of_nat n))%N) class_a_z_0_9
     = is_ascii_letter_or_digit (N.of_nat n)).

(** Case tables that leave everything outside ASCII alone: enough to run
    the functions on examples. *)
Definition no_tables : Unicode :=
  {| upper_of_unit := fun ch => [ch]; lower_of_string := fun s => s |}.

End FileName.

(** ** The PDF service: createPdf *)

Module Pdf.

Local Open Scope Q_scope.

Inductive FontStyle := bold | normal.

(** What the service asks of jsPDF and of the browser's image loader. *)
Record Env := mkEnv {
  pageW : Q;      (* pdf.internal.pageSize.getWidth() *)
  pageH : Q;      (* pdf.internal.pageSize.getHeight() *)
  (** [pdf.splitTextToSize(text, width)] under the current font *)
  splitTextToSize : nat -> FontStyle -> jsstring -> Q -> list jsstring;
  (** loading [src] into an [Image] and painting it on a canvas *)
  image_load : jsstring -> option (option jsstring)
    (* Some (Some dataUrl): onload with a 2d context;
       Some None: onerror;  None: onload without a context *)
}.

Inductive What :=
  | CoverTitle | CoverSubtitle | TocHeading
  | TocEntryTitle (k : nat) | TocEntryPage (k : nat)
  | ChapterTitle (k : nat)
  | PageImage | PageLine.

#[global] Instance What_eq_dec : EqDecision What.
Proof. solve_decision. Defined.

(** One [pdf.text] or [pdf.addImage] call: the page it lands on (pages
    count from 1), what is drawn, the text, and the vertical position. *)
Record Drawn := mkDrawn {
  on_page : nat;
  what : What;
  text : list jsstring;
  y : Q
}.

Record TocEntry := mkToc { toc_title : jsstring; toc_page : nat }.

(** The jsPDF object as far as the service drives it. *)
Record Doc := mkDoc {
  pages : nat;             (* number of pages; drawing goes to the last *)
  drawn : list Drawn
}.

Record Output := mkOutput {
  tocEntries : list TocEntry;
  pdf : Doc;
  fileName : jsstring
}.

Definition margin : Q := 50.

Definition gtb (a b : Q) : bool := negb (Qle_bool a b).

Definition Q_of_nat (n : nat) : Q := inject_Z (Z.of_nat n).

Definition addPage (d : Doc) : Doc := mkDoc (S (pages d)) (drawn d).

Definition draw (w : What) (t : list jsstring) (yPos : Q) (d : Doc) : Doc :=
  mkDoc (pages d) (drawn d ++ [mkDrawn (pages d) w t yPos]).

Section WithEnv.
Variable env : Env.
Variable uc : FileName.Unicode.

Definition contentWidth : Q := pageW env - margin * 2.

(** [preloadImageAsBase64(src)]: the value the promise resolves with, or
    what it rejects with. *)
Definition preloadImageAsBase64 (src : jsstring) : Outcome jsstring :=
  if bool_decide (src = []) || negb (startsWith src (lit "data:image")) then Return []
  else match image_load env src with
       | Some (Some dataUrl) => Return dataUrl
       | Some None => Return []
       | None => Throw (new_Error (lit "Could not get canvas context"))
       end.

(** [await Promise.all(allImageUrls.map(preloadImageAsBase64))] *)
Fixpoint preload_all (urls : list jsstring) : Outcome (list jsstring) :=
  match urls with
  | [] => Return []
  | url :: urls' =>
      match preloadImageAsBase64 url, preload_all urls' with
      | Return x, Return xs => Return (x :: xs)
      | Throw e, _ => Throw e
      | _, Throw e => Throw e
      end
  end.

(** [allImageUrls.forEach((url, index) => { if (preloadedImages[index]) imageMap.set(url, preloadedImages[index]) })] *)
Fixpoint build_imageMap (urls preloaded : list jsstring) (imageMap : gmap jsstring jsstring)
    : gmap jsstring jsstring :=
  match urls, preloaded with
  | url :: urls', p :: preloaded' =>
      build_imageMap urls' preloaded'
        (match p with [] => imageMap | _ :: _ => <[url := p]> imageMap end)
  | _, _ => imageMap
  end.

(** [page.images[0] ? imageMap.get(page.images[0]) : null], which is
    also the truth value of [page.images[0] && imageMap.get(page.images[0])]
    (the map holds non-empty strings only). *)
Definition base64Image_of (imageMap : gmap jsstring jsstring) (page : PageScaffold.t)
    : option jsstring :=
  match PageScaffold.images page !! 0%nat with
  | Some ((_ :: _) as url) => imageMap !! url
  | _ => None
  end.

(** The dry run, inner loop: one story page. *)
Definition dry_page (imageMap : gmap jsstring jsstring) (fontSize : nat) (style : FontStyle)
    (page : PageScaffold.t) (st : Q * nat) : Q * nat :=
  let '(yPos, pageCounter) := st in
  let yPos := match base64Image_of imageMap page with
              | Some _ => yPos + 160
              | None => yPos
              end in
  let textLines := splitTextToSize env fontSize style (PageScaffold.page_text page) contentWidth in
  let yPos := yPos + Q_of_nat (length textLines) * 14 in
  if gtb yPos (pageH env - margin) then (margin, S pageCounter) else (yPos, pageCounter).

(** The dry run, outer loop: [tocEntries], [yPos] and [pageCounter] are
    the variables the loop updates. *)
Fixpoint dry_run (imageMap : gmap jsstring jsstring) (fontSize : nat) (style : FontStyle)
    (chapters : list ChapterScaffold.t) (tocEntries : list TocEntry) (yPos : Q)
    (pageCounter : nat) : list TocEntry * Q * nat :=
  match chapters with
  | [] => (tocEntries, yPos, pageCounter)
  | chapter :: chapters' =>
      let tocEntries := tocEntries ++ [mkToc (ChapterScaffold.title chapter) pageCounter] in
      let yPos := margin in
      let yPos := yPos + 30 in
      let '(yPos, pageCounter) :=
        foldl (fun st page => dry_page imageMap fontSize style page st)
              (yPos, pageCounter) (ChapterScaffold.pages chapter) in
      dry_run imageMap fontSize style chapters' tocEntries yPos (S pageCounter)
  end.

(** Drawing the table of contents. *)
Fixpoint draw_toc (entries : list TocEntry) (k : nat) (yPos : Q) (d : Doc) : Q * Doc :=
  match entries with
  | [] => (yPos, d)
  | entry :: entries' =>
      let d := draw (TocEntryTitle k) [toc_title entry] yPos d in
      let d := draw (TocEntryPage k) [String_of_nat (toc_page entry)] yPos d in
      draw_toc entries' (S k) (yPos + 20) d
  end.

(** The drawing pass: the lines of one story page. *)
Definition draw_line (line : jsstring) (st : Q * Doc) : Q * Doc :=
  let '(yPos, d) := st in
  let '(yPos, d) := if gtb yPos (pageH env - margin) then (margin, addPage d) else (yPos, d) in
  (yPos + 14, draw PageLine [line] yPos d).

(** The drawing pass: one story page. *)
Definition draw_page (imageMap : gmap jsstring jsstring) (page : PageScaffold.t)
    (st : Q * Doc) : Q * Doc :=
  let '(yPos, d) := st in
  let '(yPos, d) :=
    match base64Image_of imageMap page with
    | Some base64Image =>
        let imgH := 150 in
        let '(yPos, d) :=
          if gtb (yPos + imgH) (pageH env - margin) then (margin, addPage d) else (yPos, d) in
        (yPos + imgH + 15, draw PageImage [base64Image] yPos d)
    | None => (yPos, d)
    end in
  let textLines := splitTextToSize env 12 normal (PageScaffold.page_text page) contentWidth in
  let '(yPos, d) := foldl (fun st line => draw_line line st) (yPos, d) textLines in
  (yPos + 28, d).

(** The drawing pass: the chapters, [k] counting them. *)
Fixpoint draw_chapters (imageMap : gmap jsstring jsstring) (chapters : list ChapterScaffold.t)
    (k : nat) (yPos : Q) (d : Doc) : Q * Doc :=
  match chapters with
  | [] => (yPos, d)
  | chapter :: chapters' =>
      let d := addPage d in
      let yPos := margin in
      let chapterTitleLines :=
        splitTextToSize env 20 bold (ChapterScaffold.title chapter) contentWidth in
      let d := draw (ChapterTitle k) chapterTitleLines yPos d in
      let yPos := yPos + (Q_of_nat (length chapterTitleLines) * 20 + 20) in
      let '(yPos, d) :=
        foldl (fun st page => draw_page imageMap page st) (yPos, d)
              (ChapterScaffold.pages chapter) in
      draw_chapters imageMap chapters' (S k) yPos d
  end.

Definition createPdf (doc : StoryDocument.t) : Outcome Output :=
  let d := mkDoc 1 [] in
  let yPos := margin in
  let allImageUrls :=
    flat_map (fun c => flat_map PageScaffold.images (ChapterScaffold.pages c))
             (StoryDocument.chapters doc) in
  match preload_all allImageUrls with
  | Throw e => Throw e
  | Return preloadedImages =>
      let imageMap := build_imageMap allImageUrls preloadedImages ∅ in
      (* cover page: font 32 bold, then 16 normal *)
      let titleLines :=
        splitTextToSize env 32 bold (StoryDocument.title doc) (contentWidth * (8 # 10)) in
      let d := draw CoverTitle titleLines (pageH env / 2) d in
      let d := draw CoverSubtitle [lit "An AI-Generated Story"]
                 (pageH env / 2 + Q_of_nat (length titleLines) * 30 + 20) d in
      (* table of contents: font 24 bold *)
      let d := addPage d in
      let yPos := margin in
      let d := draw TocHeading [lit "Table of Contents"] yPos d in
      let yPos := yPos + 40 in
      (* dry run, still under font 24 bold; Cover=1, TOC=2 *)
      let '(tocEntries, yPos, _) :=
        dry_run imageMap 24 bold (StoryDocument.chapters doc) [] yPos 3 in
      (* font 12 normal *)
      let '(yPos, d) := draw_toc tocEntries 0 yPos d in
      let '(_, d) := draw_chapters imageMap (StoryDocument.chapters doc) 0 yPos d in
      Return (mkOutput tocEntries d (FileName.pdf_fileName uc (StoryDocument.title doc)))
  end.

End WithEnv.

(** The page on which the title of chapter [k] is drawn. *)
Definition title_page (out : Output) (k : nat) : option nat :=
  on_page <$> head (filter (fun o => what o = ChapterTitle k) (drawn (pdf out))).

(** The page number the table of contents prints for chapter [k]. *)
Definition toc_page_of (out : Output) (k : nat) : option nat :=
  toc_page <$> (tocEntries out !! k).

(** The sentence "the page number recorded for each chapter equals the
    page on which its title is drawn". *)
Definition toc_matches_drawing : Prop :=
  forall (env : Env) (uc : FileName.Unicode) (doc : StoryDocument.t) (out : Output),
    createPdf env uc doc = Return out ->
    forall k : nat, (k < length (StoryDocument.chapters doc))%nat ->
      toc_page_of out k = title_page out k.

(** An A4 page in points, as jsPDF defines it, with text whose lines are
    all shorter than the column: [splitTextToSize] then breaks at line
    feeds only, whatever the font.  No image loads. *)
Fixpoint split_at_line_feeds (s cur : jsstring) : list jsstring :=
  match s with
  | [] => [cur]
  | c :: s' =>
      if (c =? 10)%N then cur :: split_at_line_feeds s' []
      else split_at_line_feeds s' (cur ++ [c])
  end.

Definition a4_short_lines : Env :=
  {| pageW := 59528 # 100;
     pageH := 84189 # 100;
     splitTextToSize := fun _ _ text _ => split_at_line_feeds text [];
     image_load := fun _ => Some None |}.

(** [n] lines of one letter each. *)
Definition letter_lines (n : nat) : jsstring :=
  mjoin (replicate (n - 1)%nat [97; 10]%N) ++ [97%N].

(** A story of two chapters: the first has one page of [n] short lines,
    the second has no pages. *)
Definition two_chapters (n : nat) : StoryDocument.t :=
  {| StoryDocument.id := lit "doc";
     StoryDocument.title := lit "Story";
     StoryDocument.chapters :=
       [ {| ChapterScaffold.id := lit "c1";
            ChapterScaffold.title := lit "One";
            ChapterScaffold.summary := [];
            ChapterScaffold.pages :=
              [ {| PageScaffold.id := lit "p1";
                   PageScaffold.page_number := 1%nat;
                   PageScaffold.page_text := letter_lines n;
                   PageScaffold.ai_suggestions := [];
                   PageScaffold.images := [] |} ] |};
         {| ChapterScaffold.id := lit "c2";
            ChapterScaffold.title := lit "Two";
            ChapterScaffold.summary := [];
            ChapterScaffold.pages := [] |} ] |}.

End Pdf.


(** ** Sample worlds and inputs

    Concrete answers of the outside world, and concrete documents and
    texts, on which the handlers are run below. *)

Module PresentationWorlds.
Import Presentation.

Definition answer_slide : SlideJson :=
  mkSlideJson (lit "Slide") (Some [lit "point"]) (lit "a chart").

Definition quota_error : Thrown := new_Error (lit "quota exceeded").

(** Every request is answered. *)
Definition world_ok : World :=
  {| title_response := fun _ _ => Return (lit "Deck");
     slide_response := fun _ _ _ _ _ => Return answer_slide;
     images_response := fun _ _ => Return [lit "QUJD"];
     randomUUID_value := String_of_nat |}.

(** The request for slide number [k] is refused. *)
Definition world_slide_fails (k : nat) : World :=
  {| title_response := fun _ _ => Return (lit "Deck");
     slide_response := fun _ _ n _ _ =>
       if decide (n = k) then Throw quota_error else Return answer_slide;
     images_response := fun _ _ => Return [lit "QUJD"];
     randomUUID_value := String_of_nat |}.

(** Every image request is refused. *)
Definition world_images_fail : World :=
  {| title_response := fun _ _ => Return (lit "Deck");
     slide_response := fun _ _ _ _ _ => Return answer_slide;
     images_response := fun _ _ => Throw quota_error;
     randomUUID_value := String_of_nat |}.

(** 3001 code units: two chunks. *)
Definition two_chunk_text : jsstring := replicate 3001 97%N.

(** A deck with two slides, [a] and [b]. *)
Definition two_slides : PresentationDocument.t :=
  {| PresentationDocument.id := lit "doc";
     PresentationDocument.title := lit "Deck";
     PresentationDocument.slides :=
       [ SlideScaffold.mk (lit "a") (lit "First") [lit "x"] None;
         SlideScaffold.mk (lit "b") (lit "Second") [lit "y"] (Some (lit "data:image/jpeg;base64,AA")) ] |}.

Definition retitle : SlideScaffold.partial :=
  SlideScaffold.mkPartial None (Some (lit "Renamed")) None None.

End PresentationWorlds.

Module StoryWorlds.
Import Story.

Definition written (n : nat) : ChapterScaffold.t :=
  {| ChapterScaffold.id := lit "c" ++ String_of_nat n;
     ChapterScaffold.title := lit "Written " ++ String_of_nat n;
     ChapterScaffold.summary := lit "AI summary will appear here.";
     ChapterScaffold.pages := [] |}.

Definition quota_error : Thrown := new_Error (lit "quota exceeded").

(** Every request is answered and the user touches nothing. *)
Definition world_ok : World :=
  {| story_title_response := fun _ _ => Return (lit "Saga");
     chapter_response := fun _ _ n _ _ => Return (written n);
     images_response := fun _ _ => Return [lit "QUJD"];
     randomUUID_value := String_of_nat;
     user_actions := fun _ => [] |}.

(** The request for chapter number [k] is refused. *)
Definition world_chapter_fails (k : nat) : World :=
  {| story_title_response := fun _ _ => Return (lit "Saga");
     chapter_response := fun _ _ n _ _ =>
       if decide (n = k) then Throw quota_error else Return (written n);
     images_response := fun _ _ => Return [lit "QUJD"];
     randomUUID_value := String_of_nat;
     user_actions := fun _ => [] |}.

(** The user presses stop while the request of loop index [i] is in
    flight. *)
Definition world_stop_during (i : nat) : World :=
  {| story_title_response := fun _ _ => Return (lit "Saga");
     chapter_response := fun _ _ n _ _ => Return (written n);
     images_response := fun _ _ => Return [lit "QUJD"];
     randomUUID_value := String_of_nat;
     user_actions := fun h =>
       match last h with
       | Some (Started (ChapterCall k)) => if decide (k = i) then [ClickStop] else []
       | _ => []
       end |}.

(** 32001 code units: eleven chunks, three chapter groups. *)
Definition long_text : jsstring := replicate (10 * 3200 + 1) 97%N.

End StoryWorlds.

(** ** Text helpers of the components *)

Module Text.

(** [s.split(sep)] for a separator of one code unit: the substrings
    between successive occurrences of the separator (the empty string
    splits into one empty substring). *)
Fixpoint split (sep : N) (s : jsstring) : list jsstring :=
  match s with
  | [] => [[]]
  | c :: s' =>
      if (c =? sep)%N then [] :: split sep s'
      else match split sep s' with
           | first :: more => (c :: first) :: more
           | [] => [[c]]
           end
  end.

(** [l.join(sep)] on an array of strings. *)
Fixpoint join (sep : jsstring) (l : list jsstring) : jsstring :=
  match l with
  | [] => []
  | x :: l' =>
      match l' with
      | [] => x
      | _ :: _ => x ++ sep ++ join sep l'
      end
  end.

(** The code units [trim] strips: WhiteSpace (TAB, VT, FF, ZWNBSP and the
    space separators) and LineTerminator (LF, CR, LS, PS). *)
Definition is_white_space (c : N) : bool :=
  bool_decide (c ∈ [9; 11; 12; 32; 160; 5760; 8239; 8287; 12288; 65279; 10; 13; 8232; 8233]%N)
  || (8192 <=? c)%N && (c <=? 8202)%N.

Fixpoint trimStart (s : jsstring) : jsstring :=
  match s with
  | c :: s' => if is_white_space c then trimStart s' else s
  | [] => []
  end.

Definition trimEnd (s : jsstring) : jsstring := reverse (trimStart (reverse s)).

(** [s.trim()] *)
Definition trim (s : jsstring) : jsstring := trimEnd (trimStart s).

Definition line_feed : N := 10.

End Text.

(** ** components/PlanDisplay.tsx: the editor of one slide *)

Module SlideComponent.

Inductive Action := content | image.

(** [value={slide.content.join('\n')}] of the bullet textarea. *)
Definition textarea_value (slide : SlideScaffold.t) : jsstring :=
  Text.join [Text.line_feed] (SlideScaffold.content slide).

(** [handleContentChange]: the updater that
    [handlers.onUpdateSlide(slide.id, { content: e.target.value.split('\n') })]
    hands to [setPresentationDocument]. *)
Definition handleContentChange (slide : SlideScaffold.t) (value : jsstring)
    : option PresentationDocument.t -> option PresentationDocument.t :=
  Presentation.onUpdateSlide (SlideScaffold.id slide)
    (SlideScaffold.mkPartial None None (Some (Text.split Text.line_feed value)) None).

(** The [onChange] of the title input:
    [handlers.onUpdateSlide(slide.id, { title: e.target.value })]. *)
Definition handleTitleChange (slide : SlideScaffold.t) (value : jsstring)
    : option PresentationDocument.t -> option PresentationDocument.t :=
  Presentation.onUpdateSlide (SlideScaffold.id slide)
    (SlideScaffold.mkPartial None (Some value) None None).

End SlideComponent.

(** ** components/StoryViewer.tsx: the slide navigator and editor *)

Module PresentationEditor.

(** [handleUpdateDoc(updater)]: the function handed to [setDoc]. *)
Definition handleUpdateDoc (updater : PresentationDocument.t -> PresentationDocument.t)
    (prevDoc : option PresentationDocument.t) : option PresentationDocument.t :=
  match prevDoc with
  | Some prevDoc => Some (updater prevDoc)
  | None => None
  end.

(** [l.findIndex(P)]: the first index whose element satisfies [P],
    or -1. *)
Fixpoint findIndex_from {A} (P : A -> bool) (l : list A) (i : Z) : Z :=
  match l with
  | [] => (-1)%Z
  | x :: l' => if P x then i else findIndex_from P l' (i + 1)%Z
  end.

Definition findIndex {A} (P : A -> bool) (l : list A) : Z := findIndex_from P l 0%Z.

(** What a handler of the component does: the updater it hands to
    [setDoc], and the value it hands to [setActiveSlideId] ([None] when it
    does not call it). *)
Record Effect := mkEffect {
  setDoc : option PresentationDocument.t -> option PresentationDocument.t;
  setActiveSlideId : option jsstring
}.

(** The slide [handleAddSlide] creates; [uuid] is what
    [crypto.randomUUID()] returns. *)
Definition newSlide (uuid : jsstring) (doc : PresentationDocument.t) : SlideScaffold.t :=
  {| SlideScaffold.id := uuid;
     SlideScaffold.title :=
       lit "New Slide " ++ String_of_nat (length (PresentationDocument.slides doc) + 1);
     SlideScaffold.content := [lit "- Add your content here."];
     SlideScaffold.imageUrl := None |}.

(** [handleAddSlide], in a render whose [doc] prop is [doc]. *)
Definition handleAddSlide (uuid : jsstring) (doc : PresentationDocument.t) : Effect :=
  let newSlide := newSlide uuid doc in
  {| setDoc :=
       handleUpdateDoc (fun d =>
         {| PresentationDocument.id := PresentationDocument.id d;
            PresentationDocument.title := PresentationDocument.title d;
            PresentationDocument.slides := PresentationDocument.slides d ++ [newSlide] |});
     setActiveSlideId := Some (SlideScaffold.id newSlide) |}.

(** [handleDeleteSlide(slideId)], in a render whose props and state are
    [doc] and [activeSlideId].  [doc.slides[newActiveIndex].id] throws a
    TypeError when the index is outside the array; the call of [setDoc]
    has been made by then. *)
Definition handleDeleteSlide (doc : PresentationDocument.t) (activeSlideId slideId : jsstring)
    : Outcome Effect :=
  let slideIndex :=
    findIndex (fun s => bool_decide (SlideScaffold.id s = slideId))
              (PresentationDocument.slides doc) in
  let updater :=
    handleUpdateDoc (fun d =>
      {| PresentationDocument.id := PresentationDocument.id d;
         PresentationDocument.title := PresentationDocument.title d;
         PresentationDocument.slides :=
           filter (fun s => SlideScaffold.id s <> slideId) (PresentationDocument.slides d) |}) in
  if decide (activeSlideId = slideId) then
    if decide (1 < length (PresentationDocument.slides doc)) then
      let newActiveIndex := Z.max 0 (slideIndex - 1) in
      match PresentationDocument.slides doc !! Z.to_nat newActiveIndex with
      | Some s => Return (mkEffect updater (Some (SlideScaffold.id s)))
      | None => Throw (TypeError (lit "Cannot read properties of undefined (reading 'id')"))
      end
    else Return (mkEffect updater (Some []))
  else Return (mkEffect updater None).

(** [const activeSlide = doc.slides.find(s => s.id === activeSlideId)] *)
Definition activeSlide (doc : PresentationDocument.t) (activeSlideId : jsstring)
    : option SlideScaffold.t :=
  find (fun s => bool_decide (SlideScaffold.id s = activeSlideId))
       (PresentationDocument.slides doc).

(** The next render after a handler ran in a render of [doc] and
    [activeSlideId]: the document and the active id it shows.  The editor
    is mounted only while the document is not null. *)
Definition rerender (doc : PresentationDocument.t) (activeSlideId : jsstring) (e : Effect)
    : option (PresentationDocument.t * jsstring) :=
  match setDoc e (Some doc) with
  | Some doc' => Some (doc', default activeSlideId (setActiveSlideId e))
  | None => None
  end.

End PresentationEditor.

(** ** components/MagazinePreview.tsx *)

Module MagazinePreview.

Inductive ClassName := img_left | img_right.

Inductive Element :=
  | img (key : jsstring) (src : jsstring) (className : option ClassName)
  | p (key : jsstring) (children : jsstring).

(** The body of the [for] loop of [renderPageContent] at index [i], on
    the variables [images] and [contentElements]. *)
Definition step (i : nat) (paragraph : jsstring) (st : list jsstring * list Element)
    : list jsstring * list Element :=
  let '(images, contentElements) := st in
  let '(images, contentElements) :=
    if bool_decide (0 < i) && bool_decide (i mod 2 = 0) && bool_decide (0 < length images) then
      match images with
      | imgUrl :: images' =>               (* images.shift() *)
          (images',
           match imgUrl with
           | [] => contentElements
           | _ :: _ =>
               contentElements
               ++ [img (lit "img-" ++ String_of_nat i) imgUrl
                       (Some (if bool_decide (i mod 4 = 0) then img_left else img_right))]
           end)
      | [] => (images, contentElements)    (* shift() of an empty array: undefined *)
      end
    else (images, contentElements) in
  (images, contentElements ++ [p (lit "p-" ++ String_of_nat i) paragraph]).

(** [for (let i = 0; i < paragraphs.length; i++) { ... }], [rest] being
    the paragraphs from index [i] on. *)
Fixpoint loop (rest : list jsstring) (i : nat) (st : list jsstring * list Element)
    : list jsstring * list Element :=
  match rest with
  | [] => st
  | paragraph :: rest' => loop rest' (S i) (step i paragraph st)
  end.

(** [renderPageContent(text, images)]: the children of the column
    element. *)
Definition renderPageContent (text : jsstring) (images : list jsstring) : list Element :=
  let paragraphs :=
    filter (fun p => Text.trim p <> []) (Text.split Text.line_feed text) in
  let '(images, contentElements) := loop paragraphs 0 (images, []) in
  contentElements
  ++ imap (fun i imgUrl => img (lit "img-rem-" ++ String_of_nat i) imgUrl None) images.

Definition src_of (e : Element) : option jsstring :=
  match e with img _ src _ => Some src | p _ _ => None end.

Definition paragraph_of (e : Element) : option jsstring :=
  match e with p _ children => Some children | img _ _ _ => None end.

End MagazinePreview.

(** ** The PowerPoint service: createPresentation (pptxService.ts) *)

Module Pptx.

(** One content slide as the service fills it: the two [addText] calls
    and the optional [addImage] call. *)
Record ContentSlide := mkContentSlide {
  title_text : jsstring;        (* addText(slideData.title, { placeholder: 'title' }) *)
  body_text : list jsstring;    (* addText(slideData.content, { placeholder: 'body', ... }) *)
  bullet : bool;                (* Array.isArray(slideData.content) *)
  image_data : option jsstring  (* addImage({ data, placeholder: 'image' }), if called *)
}.

(** What the service asked of PptxGenJS by the time it calls [writeFile]. *)
Record Output := mkOutput {
  layout : jsstring;
  layouts : list jsstring;              (* defineLayout, by name *)
  titleSlide : jsstring;                (* the text of the TITLE_SLIDE *)
  contentSlides : list ContentSlide;
  fileName : jsstring
}.

(** What [img.onerror] rejects with: the event, which is not an Error. *)
Definition error_event : Thrown :=
  {| instanceof_Error := false; name := []; message := [] |}.

(** [p.catch(() => null)] *)
Definition catch_null (r : Outcome jsstring) : Outcome (option jsstring) :=
  match r with
  | Return x => Return (Some x)
  | Throw _ => Return None
  end.

(** [await Promise.all(promises)]: the values in order, or the first
    rejection. *)
Fixpoint promise_all {A} (promises : list (Outcome A)) : Outcome (list A) :=
  match promises with
  | [] => Return []
  | r :: promises' =>
      match r, promise_all promises' with
      | Return x, Return xs => Return (x :: xs)
      | Throw e, _ => Throw e
      | _, Throw e => Throw e
      end
  end.

(** [url => url] as a filter on [(string | null)[]]: null and the empty
    string are dropped. *)
Definition truthy_url (url : option jsstring) : option jsstring :=
  match url with
  | Some ((_ :: _) as url) => Some url
  | _ => None
  end.

(** [imageUrls.forEach((url, index) => { if (preloadedImages[index]) imageMap.set(url, preloadedImages[index]) })] *)
Fixpoint build_imageMap (urls : list jsstring) (preloaded : list (option jsstring))
    (imageMap : gmap jsstring jsstring) : gmap jsstring jsstring :=
  match urls, preloaded with
  | url :: urls', p :: preloaded' =>
      build_imageMap urls' preloaded'
        (match p with
         | Some ((_ :: _) as data) => <[url := data]> imageMap
         | _ => imageMap
         end)
  | _, _ => imageMap
  end.

Section WithLoader.
(** Loading [src] into an [Image] and painting it on a canvas:
    [Some (Some dataUrl)] is onload with a 2d context, [Some None] is
    onerror, [None] is onload without a context. *)
Variable image_load : jsstring -> option (option jsstring).
Variable uc : FileName.Unicode.

(** [preloadImageAsBase64(src)]: the value the promise resolves with, or
    what it rejects with. *)
Definition preloadImageAsBase64 (src : jsstring) : Outcome jsstring :=
  if bool_decide (src = []) then Throw (new_Error (lit "Image source is null or empty."))
  else match image_load src with
       | Some (Some dataUrl) => Return dataUrl
       | Some None => Throw error_event
       | None => Throw (new_Error (lit "Could not get canvas context"))
       end.

(** The body of the loop over [doc.slides]. *)
Definition content_slide (imageMap : gmap jsstring jsstring) (slideData : SlideScaffold.t)
    : ContentSlide :=
  {| title_text := SlideScaffold.title slideData;
     body_text := SlideScaffold.content slideData;
     bullet := true;
     image_data :=
       match SlideScaffold.imageUrl slideData with
       | Some ((_ :: _) as url) => imageMap !! url
       | _ => None
       end |}.

Definition createPresentation (doc : PresentationDocument.t) : Outcome Output :=
  let imageUrls := omap (fun slide => truthy_url (SlideScaffold.imageUrl slide))
                        (PresentationDocument.slides doc) in
  match promise_all (map (fun url => catch_null (preloadImageAsBase64 url)) imageUrls) with
  | Throw e => Throw e
  | Return preloadedImages =>
      let imageMap := build_imageMap imageUrls preloadedImages ∅ in
      Return {| layout := lit "LAYOUT_16x9";
                layouts := [lit "TITLE_SLIDE"; lit "CONTENT_SLIDE"];
                titleSlide := PresentationDocument.title doc;
                contentSlides := map (content_slide imageMap) (PresentationDocument.slides doc);
                fileName := FileName.pptx_fileName uc (PresentationDocument.title doc) |}
  end.

(** The data a URL stands for in the end, read off the loader: the
    non-empty data URL that a non-empty URL loads into. *)
Definition loaded_data (url : jsstring) : option jsstring :=
  match url with
  | [] => None
  | _ :: _ =>
      match image_load url with
      | Some (Some ((_ :: _) as dataUrl)) => Some dataUrl
      | _ => None
      end
  end.

End WithLoader.

End Pptx.

(** ** Vocabulary for the layout of the PDF *)

Module PdfLayout.
Import Pdf.
Local Open Scope Q_scope.

(** What is drawn first on page [pg]. *)
Definition first_on_page (out : Output) (pg : nat) : option What :=
  what <$> head (filter (fun o => on_page o = pg) (drawn (pdf out))).

Definition is_toc_entry (k : nat) (o : Drawn) : Prop :=
  what o = TocEntryTitle k \/ what o = TocEntryPage k.

(** Among [items], the title of chapter [j] is on page [pg], and what
    was drawn before it is on earlier pages and belongs to earlier
    chapters. *)
Definition title_on_fresh_page (items : list Drawn) (j pg : nat) : Prop :=
  exists pre t post,
    items = pre ++ t :: post
    /\ what t = ChapterTitle j
    /\ on_page t = pg
    /\ Forall (fun o => (on_page o < pg)%nat
                        /\ forall j', what o = ChapterTitle j' -> (j' < j)%nat) pre.

Section WithEnv.
Variable env : Env.

(** A text line of a story page, drawn on one of the pages [lo] to [hi],
    not above the top margin, and not below the bottom margin unless it is
    the first thing on a page. *)
Definition line_item (lo hi : nat) (o : Drawn) : Prop :=
  (lo <= on_page o <= hi)%nat
  /\ what o = PageLine
  /\ margin <= y o
  /\ (y o <= pageH env - margin \/ y o = margin).

(** The image of a story page: the data the map holds for the first
    image of the page, with room for its 150 points unless it is the first
    thing on a page. *)
Definition image_item (imageMap : gmap jsstring jsstring) (page : PageScaffold.t) (lo hi : nat)
    (o : Drawn) : Prop :=
  (lo <= on_page o <= hi)%nat
  /\ what o = PageImage
  /\ (exists base64Image, base64Image_of imageMap page = Some base64Image
                          /\ text o = [base64Image])
  /\ margin <= y o
  /\ (y o + 150 <= pageH env - margin \/ y o = margin).

Definition body_item (imageMap : gmap jsstring jsstring) (page : PageScaffold.t) (lo hi : nat)
    (o : Drawn) : Prop :=
  line_item lo hi o \/ image_item imageMap page lo hi o.

(** The data of a drawn image comes from the first image of a page of
    the document: a URL that starts with [data:image] and that the loader
    turned into a non-empty data URL. *)
Definition image_of_doc (doc : StoryDocument.t) (o : Drawn) : Prop :=
  exists chapter page url data,
    chapter ∈ StoryDocument.chapters doc
    /\ page ∈ ChapterScaffold.pages chapter
    /\ PageScaffold.images page !! 0%nat = Some url
    /\ startsWith url (lit "data:image") = true
    /\ image_load env url = Some (Some data)
    /\ data <> []
    /\ text o = [data].

End WithEnv.

End PdfLayout.

(** A sample loader and a sample story for the exporters: every image
    loads and is re-encoded; the story has one chapter with one page that
    carries two lines of text and two images. *)

Module ExportSamples.

Definition loads_everything : jsstring -> option (option jsstring) :=
  fun _ => Some (Some (lit "data:image/jpeg;base64,UkU=")).

Definition a4_with_images : Pdf.Env :=
  {| Pdf.pageW := 59528 # 100;
     Pdf.pageH := 84189 # 100;
     Pdf.splitTextToSize := fun _ _ text _ => Pdf.split_at_line_feeds text [];
     Pdf.image_load := loads_everything |}.

Definition illustrated : StoryDocument.t :=
  {| StoryDocument.id := lit "doc";
     StoryDocument.title := lit "Story";
     StoryDocument.chapters :=
       [ {| ChapterScaffold.id := lit "c1";
            ChapterScaffold.title := lit "One";
            ChapterScaffold.summary := [];
            ChapterScaffold.pages :=
              [ {| PageScaffold.id := lit "p1";
                   PageScaffold.page_number := 1;
                   PageScaffold.page_text := Pdf.letter_lines 2;
                   PageScaffold.ai_suggestions := [];
                   PageScaffold.images :=
                     [lit "data:image/png;base64,QQ=="; lit "https://example.org/b.png"] |} ] |} ] |}.

End ExportSamples.

(** A world in which the story title request is refused. *)

Module EdgeWorlds.

Definition world_title_fails : Story.World :=
  {| Story.story_title_response := fun _ _ => Throw StoryWorlds.quota_error;
     Story.chapter_response := fun _ _ n _ _ => Return (StoryWorlds.written n);
     Story.images_response := fun _ _ => Return [lit "QUJD"];
     Story.randomUUID_value := String_of_nat;
     Story.user_actions := fun _ => [] |}.

End EdgeWorlds.

(** ** Story flavour: the page handlers and the editor actions of the App

    Each handler is modelled as one run from its call to its return, with
    no other handler of the component running between its awaits; the
    document it closes over is a parameter ([captured]), the document the
    state updaters see is the one in the state. *)

Module StoryEditing.
Import Story.

(** What an async generator of the service delivers to [for await]: the
    chunks it yields and, if it ends by throwing, the exception (a request
    that fails outright yields no chunk). *)
Record Stream := mkStream {
  chunks : list jsstring;
  failure : option Thrown
}.

(** The requests of the editor to the text model, with their arguments. *)
Inductive Request :=
  | ExpandRequest (existingText : jsstring)
  | AutoWriteRequest (storyTitle chapterTitle pageSuggestion : jsstring)
  | TitlesRequest (doc : StoryDocument.t)
  | SummariesRequest (doc : StoryDocument.t).

(** The text model behind the editor.  Every answer may depend on the
    requests made before.  [suggestNewChapterTitles] and
    [generateChapterSummaries] answer with what [JSON.parse] returns, which
    the response schema makes an array of strings; [Throw] covers a failed
    request and a parse error. *)
Record Service := mkService {
  expandPageTextStream : list Request -> jsstring -> Stream;
  autoWritePageStream : list Request -> jsstring -> jsstring -> jsstring -> Stream;
  suggestNewChapterTitles : list Request -> StoryDocument.t -> Outcome (list jsstring);
  generateChapterSummaries : list Request -> StoryDocument.t -> Outcome (list jsstring)
}.

(** The component state of the App, the requests the editor has made,
    and the calls of [console.error] with a message alone. *)
Record State := mkState {
  app : Story.State;
  requests : list Request;
  messages : list jsstring
}.

Definition on_app (f : Story.State -> Story.State) (s : State) : State :=
  mkState (f (app s)) (requests s) (messages s).

(** [setStoryDocument(doc => f(doc))] *)
Definition updateStoryDocument (f : option StoryDocument.t -> option StoryDocument.t)
    (a : Story.State) : Story.State :=
  setStoryDocument (f (storyDocument a)) a.

(** A computation on the App state, run inside the editor state. *)
Definition lift {A} (m : M Story.State A) : M State A :=
  fun s => let '(r, a) := m (app s) in (r, mkState a (requests s) (messages s)).

(** The request is recorded and answered from the history before it. *)
Definition request {A} (r : Request) (answer : list Request -> A) : M State A :=
  fun s => (Return (answer (requests s)), mkState (app s) (requests s ++ [r]) (messages s)).

(** [storyDocument?.chapters.find(c => c.id === chapterId)] *)
Definition find_chapter (captured : option StoryDocument.t) (chapterId : jsstring)
    : option ChapterScaffold.t :=
  match captured with
  | Some d => find (fun c => bool_decide (ChapterScaffold.id c = chapterId))
                   (StoryDocument.chapters d)
  | None => None
  end.

(** [chapter?.pages.find(p => p.id === pageId)] *)
Definition find_page (captured : option StoryDocument.t) (chapterId pageId : jsstring)
    : option PageScaffold.t :=
  match find_chapter captured chapterId with
  | Some chapter => find (fun p => bool_decide (PageScaffold.id p = pageId))
                         (ChapterScaffold.pages chapter)
  | None => None
  end.

(** The updater of the two streaming handlers:
    [doc => doc ? { ...doc, chapters: doc.chapters.map(c => c.id === chapterId
       ? { ...c, pages: c.pages.map(p => p.id === pageId
             ? { ...p, page_text: p.page_text + chunk } : p) } : c) } : null] *)
Definition append_page_text (chapterId pageId chunk : jsstring)
    (doc : option StoryDocument.t) : option StoryDocument.t :=
  match doc with
  | None => None
  | Some doc =>
      Some {| StoryDocument.id := StoryDocument.id doc;
              StoryDocument.title := StoryDocument.title doc;
              StoryDocument.chapters :=
                map (fun c =>
                       if decide (ChapterScaffold.id c = chapterId) then
                         {| ChapterScaffold.id := ChapterScaffold.id c;
                            ChapterScaffold.title := ChapterScaffold.title c;
                            ChapterScaffold.summary := ChapterScaffold.summary c;
                            ChapterScaffold.pages :=
                              map (fun p =>
                                     if decide (PageScaffold.id p = pageId) then
                                       {| PageScaffold.id := PageScaffold.id p;
                                          PageScaffold.page_number := PageScaffold.page_number p;
                                          PageScaffold.page_text :=
                                            PageScaffold.page_text p ++ chunk;
                                          PageScaffold.ai_suggestions :=
                                            PageScaffold.ai_suggestions p;
                                          PageScaffold.images := PageScaffold.images p |}
                                     else p)
                                  (ChapterScaffold.pages c) |}
                       else c)
                    (StoryDocument.chapters doc) |}
  end.

Section WithService.
Variable w : Story.World.
Variable svc : Service.
(** [storyDocument] as the handlers of one render close over it. *)
Variable captured : option StoryDocument.t.
Open Scope eff_scope.

(** [runPageAction(chapterId, pageId, action)] *)
Definition runPageAction {T} (chapterId pageId : jsstring)
    (action : PageScaffold.t -> M State T) : M State unit :=
  match find_page captured chapterId pageId with
  | None =>
      modify (fun s => mkState (app s) (requests s) (messages s ++ [lit "Page not found!"])) ;;
      modify (on_app (setError (Some (lit "An error occurred: Page not found."))))
  | Some page =>
      modify (on_app (setRobotState thinking)) ;;
      try_finally
        (try_catch
           (action page ;; ret tt)
           (fun err =>
              modify (on_app (to_console (console_error (Some (lit "Page action failed")) err))) ;;
              modify (on_app (setError (Some (lit "An AI action failed. Please try again."))))))
        (modify (on_app (setRobotState idle)))
  end.

(** [for await (const chunk of stream) { setStoryDocument(...) }]: every
    chunk is appended as it arrives; the exception that ends the stream,
    if any, is thrown after the chunks before it. *)
Fixpoint consume (chapterId pageId : jsstring) (chunks : list jsstring)
    (failure : option Thrown) : M State unit :=
  match chunks with
  | [] => match failure with
          | None => ret tt
          | Some e => throw e
          end
  | chunk :: chunks' =>
      modify (on_app (updateStoryDocument (append_page_text chapterId pageId chunk))) ;;
      consume chapterId pageId chunks' failure
  end.




(** [storyDocument?.title || ''] and
    [storyDocument?.chapters.find(c => c.id === chapterId)?.title || ''] *)
Definition captured_title : jsstring :=
  match captured with Some d => StoryDocument.title d | None => [] end.

Definition captured_chapter_title (chapterId : jsstring) : jsstring :=
  match find_chapter captured chapterId with
  | Some chapter => ChapterScaffold.title chapter
  | None => []
  end.

(** [pageHandlers.onAutoWritePageStream] *)
Definition onAutoWritePageStream (chapterId pageId : jsstring) : M State unit :=
  runPageAction chapterId pageId (fun page =>
    modify (on_app (setRobotState writing)) ;;
    modify (on_app (updateStoryDocument
                      (onUpdatePage chapterId pageId
                         (PageScaffold.mkPartial None None (Some []) None None)))) ;;
    let pageSuggestion := Text.join (lit " ") (PageScaffold.ai_suggestions page) in
    let* stream := request (AutoWriteRequest captured_title (captured_chapter_title chapterId)
                              pageSuggestion)
                     (fun h => autoWritePageStream svc h captured_title
                                 (captured_chapter_title chapterId) pageSuggestion) in
    consume chapterId pageId (chunks stream) (failure stream)).

(** [editorActions.onAutoDraftAll]: the loop over the pages of one
    chapter, and the loop over the chapters. *)
Fixpoint draft_pages (chapter : ChapterScaffold.t) (pages : list PageScaffold.t)
    : M State unit :=
  match pages with
  | [] => ret tt
  | page :: pages' =>
      (if bool_decide (Text.trim (PageScaffold.page_text page) = [])
       then onAutoWritePageStream (ChapterScaffold.id chapter) (PageScaffold.id page)
       else ret tt) ;;
      draft_pages chapter pages'
  end.

Fixpoint draft_chapters (chapters : list ChapterScaffold.t) : M State unit :=
  match chapters with
  | [] => ret tt
  | chapter :: chapters' =>
      draft_pages chapter (ChapterScaffold.pages chapter) ;;
      draft_chapters chapters'
  end.

Definition onAutoDraftAll : M State unit :=
  match captured with
  | None => ret tt
  | Some storyDocument =>
      modify (on_app (setRobotState writing)) ;;
      try_finally
        (try_catch
           (draft_chapters (StoryDocument.chapters storyDocument))
           (fun err =>
              modify (on_app (to_console (console_error None err))) ;;
              modify (on_app (setError (Some (lit "Auto-drafting failed."))))))
        (modify (on_app (setRobotState idle)))
  end.

(** The updater of [onSuggestTitles]:
    [doc => doc ? { ...doc, chapters: doc.chapters.map((c, i) =>
       ({ ...c, title: newTitles[i] || c.title })) } : null] *)
Definition retitle (newTitles : list jsstring) (doc : option StoryDocument.t)
    : option StoryDocument.t :=
  match doc with
  | None => None
  | Some doc =>
      Some {| StoryDocument.id := StoryDocument.id doc;
              StoryDocument.title := StoryDocument.title doc;
              StoryDocument.chapters :=
                imap (fun i c =>
                        {| ChapterScaffold.id := ChapterScaffold.id c;
                           ChapterScaffold.title :=
                             or_else_string (default [] (newTitles !! i)) (fun t => t)
                               (ChapterScaffold.title c);
                           ChapterScaffold.summary := ChapterScaffold.summary c;
                           ChapterScaffold.pages := ChapterScaffold.pages c |})
                     (StoryDocument.chapters doc) |}
  end.

(** The updater of [onSummarizeChapters]:
    [... ({ ...c, summary: summaries[i] || c.summary }) ...] *)
Definition resummarize (summaries : list jsstring) (doc : option StoryDocument.t)
    : option StoryDocument.t :=
  match doc with
  | None => None
  | Some doc =>
      Some {| StoryDocument.id := StoryDocument.id doc;
              StoryDocument.title := StoryDocument.title doc;
              StoryDocument.chapters :=
                imap (fun i c =>
                        {| ChapterScaffold.id := ChapterScaffold.id c;
                           ChapterScaffold.title := ChapterScaffold.title c;
                           ChapterScaffold.summary :=
                             or_else_string (default [] (summaries !! i)) (fun t => t)
                               (ChapterScaffold.summary c);
                           ChapterScaffold.pages := ChapterScaffold.pages c |})
                     (StoryDocument.chapters doc) |}
  end.

(** [await request]: a rejection is rethrown at the await. *)
Definition await {A} (r : Request) (answer : list Request -> Outcome A) : M State A :=
  let* o := request r answer in
  match o with
  | Return a => ret a
  | Throw e => throw e
  end.

(** [editorActions.onSuggestTitles] *)
Definition onSuggestTitles : M State unit :=
  match captured with
  | None => ret tt
  | Some storyDocument =>
      modify (on_app (setRobotState thinking)) ;;
      try_finally
        (try_catch
           (let* newTitles := await (TitlesRequest storyDocument)
                                (fun h => suggestNewChapterTitles svc h storyDocument) in
            modify (on_app (updateStoryDocument (retitle newTitles))))
           (fun err =>
              modify (on_app (to_console (console_error None err))) ;;
              modify (on_app (setError (Some (lit "Could not suggest new titles."))))))
        (modify (on_app (setRobotState idle)))
  end.

(** [editorActions.onSummarizeChapters] *)
Definition onSummarizeChapters : M State unit :=
  match captured with
  | None => ret tt
  | Some storyDocument =>
      modify (on_app (setRobotState thinking)) ;;
      try_finally
        (try_catch
           (let* summaries := await (SummariesRequest storyDocument)
                                (fun h => generateChapterSummaries svc h storyDocument) in
            modify (on_app (updateStoryDocument (resummarize summaries))))
           (fun err =>
              modify (on_app (to_console (console_error None err))) ;;
              modify (on_app (setError (Some (lit "Could not generate summaries."))))))
        (modify (on_app (setRobotState idle)))
  end.

End WithService.

(** The chapters of [d'] are those of [d], in order, each with the same
    id and pages, with [field] replaced by the value at the same index of
    [values] when that value exists and is not the empty string, and with
    [other] untouched. *)
Definition replaced_by_index (field other : ChapterScaffold.t -> jsstring)
    (values : list jsstring) (d d' : StoryDocument.t) : Prop :=
  StoryDocument.id d' = StoryDocument.id d
  /\ StoryDocument.title d' = StoryDocument.title d
  /\ length (StoryDocument.chapters d') = length (StoryDocument.chapters d)
  /\ forall i c,
       StoryDocument.chapters d !! i = Some c ->
       exists c',
         StoryDocument.chapters d' !! i = Some c'
         /\ ChapterScaffold.id c' = ChapterScaffold.id c
         /\ ChapterScaffold.pages c' = ChapterScaffold.pages c
         /\ other c' = other c
         /\ field c' = match values !! i with
                       | Some ((_ :: _) as v) => v
                       | _ => field c
                       end.

(** The pages [onAutoDraftAll] drafts: those whose text is blank. *)
Definition blank_pages (d : StoryDocument.t) : list PageScaffold.t :=
  flat_map (fun c => filter (fun p => Text.trim (PageScaffold.page_text p) = [])
                            (ChapterScaffold.pages c))
           (StoryDocument.chapters d).

Definition is_AutoWriteRequest (storyTitle : jsstring) (r : Request) : Prop :=
  exists chapterTitle pageSuggestion, r = AutoWriteRequest storyTitle chapterTitle pageSuggestion.

End StoryEditing.

(** ** Presentation flavour: the chat and the regenerate buttons of the App

    As for the story editor, each handler is one run with no other handler
    between its awaits.  The handlers here are modelled on the render that
    shows the current state, so the document they close over is the one in
    the state when they start. *)

Module PresentationActions.
Import Presentation.

Inductive Role := user | model.

Record ChatMessage := mkMessage {
  role : Role;
  content : jsstring
}.

(** The requests of these handlers to the text model, with their
    arguments. *)
Inductive Request :=
  | AnswerRequest (presentation : PresentationDocument.t) (question : jsstring)
  | ContentRequest (slideTitle : jsstring)
  | ImagePromptRequest (title : jsstring) (content : list jsstring).

(** The text model behind the handlers.  Every answer may depend on the
    requests made before; [Throw] covers a failed request and, for the
    bullets, a parse error. *)
Record Service := mkService {
  (** what [answerQuestionAboutPresentation] returns *)
  answer_text : list Request -> PresentationDocument.t -> jsstring -> Outcome jsstring;
  (** [parsed.content] in [regenerateSlideContent] ([None]: missing) *)
  parsed_content : list Request -> jsstring -> Outcome (option (list jsstring));
  (** what [generateImagePromptForSlide] returns *)
  image_prompt_text : list Request -> jsstring -> list jsstring -> Outcome jsstring
}.

(** The component state of the App with the cells these handlers use,
    the requests made, and the calls of [console.error] with a message and
    an error. *)
Record State := mkState {
  app : Presentation.State;
  chatMessages : list ChatMessage;
  isAiAnswering : bool;
  actionInProgress : option (jsstring * SlideComponent.Action);
  requests : list Request;
  log : list (jsstring * Thrown)
}.

Definition on_app (f : Presentation.State -> Presentation.State) (s : State) : State :=
  mkState (f (app s)) (chatMessages s) (isAiAnswering s) (actionInProgress s) (requests s)
    (log s).
Definition setChatMessages (v : list ChatMessage) (s : State) : State :=
  mkState (app s) v (isAiAnswering s) (actionInProgress s) (requests s) (log s).
Definition setIsAiAnswering (v : bool) (s : State) : State :=
  mkState (app s) (chatMessages s) v (actionInProgress s) (requests s) (log s).
Definition setActionInProgress (v : option (jsstring * SlideComponent.Action)) (s : State)
    : State :=
  mkState (app s) (chatMessages s) (isAiAnswering s) v (requests s) (log s).
Definition console_error_with (msg : jsstring) (err : Thrown) (s : State) : State :=
  mkState (app s) (chatMessages s) (isAiAnswering s) (actionInProgress s) (requests s)
    (log s ++ [(msg, err)]).

(** A computation on the App state of the generation handlers, run
    inside this state. *)
Definition lift {A} (m : M Presentation.State A) : M State A :=
  fun s =>
    let '(r, a) := m (app s) in
    (r, mkState a (chatMessages s) (isAiAnswering s) (actionInProgress s) (requests s) (log s)).

(** [await request]: the request is recorded and answered from the
    history before it; a rejection is rethrown at the await. *)
Definition await {A} (r : Request) (answer : list Request -> Outcome A) : M State A :=
  fun s =>
    (answer (requests s),
     mkState (app s) (chatMessages s) (isAiAnswering s) (actionInProgress s)
       (requests s ++ [r]) (log s)).

(** The updaters of the two regenerate handlers:
    [doc => doc ? { ...doc, slides: doc.slides.map(s => s.id === slideId
       ? { ...s, content: newContent } : s) } : null], and the same with
    [imageUrl: newImageUrl]. *)
Definition set_content (slideId : jsstring) (newContent : list jsstring)
    (doc : option PresentationDocument.t) : option PresentationDocument.t :=
  match doc with
  | None => None
  | Some doc =>
      Some {| PresentationDocument.id := PresentationDocument.id doc;
              PresentationDocument.title := PresentationDocument.title doc;
              PresentationDocument.slides :=
                map (fun s => if decide (SlideScaffold.id s = slideId)
                              then {| SlideScaffold.id := SlideScaffold.id s;
                                      SlideScaffold.title := SlideScaffold.title s;
                                      SlideScaffold.content := newContent;
                                      SlideScaffold.imageUrl := SlideScaffold.imageUrl s |}
                              else s)
                    (PresentationDocument.slides doc) |}
  end.

Definition set_imageUrl (slideId : jsstring) (newImageUrl : jsstring)
    (doc : option PresentationDocument.t) : option PresentationDocument.t :=
  match doc with
  | None => None
  | Some doc =>
      Some {| PresentationDocument.id := PresentationDocument.id doc;
              PresentationDocument.title := PresentationDocument.title doc;
              PresentationDocument.slides :=
                map (fun s => if decide (SlideScaffold.id s = slideId)
                              then {| SlideScaffold.id := SlideScaffold.id s;
                                      SlideScaffold.title := SlideScaffold.title s;
                                      SlideScaffold.content := SlideScaffold.content s;
                                      SlideScaffold.imageUrl := Some newImageUrl |}
                              else s)
                    (PresentationDocument.slides doc) |}
  end.

(** [setPresentationDocument(doc => f(doc))] *)
Definition updatePresentationDocument
    (f : option PresentationDocument.t -> option PresentationDocument.t)
    (a : Presentation.State) : Presentation.State :=
  Presentation.mkState (appState a) (f (presentationDocument a)) (isLoading a)
    (loadingMessage a) (error a) (console a) (trace a) (uuids a).

(** [presentationDocument?.slides.find(s => s.id === slideId)] *)
Definition find_slide (captured : option PresentationDocument.t) (slideId : jsstring)
    : option SlideScaffold.t :=
  match captured with
  | Some d => find (fun s => bool_decide (SlideScaffold.id s = slideId))
                   (PresentationDocument.slides d)
  | None => None
  end.

Definition sorry_message : jsstring :=
  lit "Sorry, I encountered an error trying to answer that.".

Section WithService.
Variable w : Presentation.World.
Variable svc : Service.
Open Scope eff_scope.

(** geminiService.ts *)

Definition regenerateSlideContent (slideTitle : jsstring) : M State (list jsstring) :=
  let* content := await (ContentRequest slideTitle)
                    (fun h => parsed_content svc h slideTitle) in
  ret (default [] content).

Definition generateImagePromptForSlide (title : jsstring) (content : list jsstring)
    : M State jsstring :=
  await (ImagePromptRequest title content) (fun h => image_prompt_text svc h title content).

Definition generateImageForSlide (title : jsstring) (content : list jsstring)
    : M State jsstring :=
  let* imagePrompt := generateImagePromptForSlide title content in
  lift (generateSlideImage w imagePrompt).

(** App.tsx; [presentationDocument] and [isAiAnswering] are read as the
    render in which the handler was created shows them. *)

Definition handleAskQuestion (question : jsstring) : M State unit :=
  let* captured := gets (fun s => presentationDocument (app s)) in
  let* answering := gets isAiAnswering in
  match captured with
  | None => ret tt
  | Some presentationDocument =>
      if answering then ret tt
      else
        let newMessages := [mkMessage user question] in
        modify (setChatMessages newMessages) ;;
        modify (setIsAiAnswering true) ;;
        try_finally
          (try_catch
             (let* answer := await (AnswerRequest presentationDocument question)
                               (fun h => answer_text svc h presentationDocument question) in
              modify (setChatMessages (newMessages ++ [mkMessage model answer])))
             (fun err =>
                lift (Presentation.console_error err) ;;
                modify (setChatMessages (newMessages ++ [mkMessage model sorry_message]))))
          (modify (setIsAiAnswering false))
  end.

(** components/ChatPanel.tsx: [handleSubmit], on the text [input] of the
    box; the result is the text of the box afterwards. *)
Definition handleSubmit (input : jsstring) : M State jsstring :=
  let* isAnswering := gets isAiAnswering in
  if bool_decide (Text.trim input <> []) && negb isAnswering then
    handleAskQuestion input ;;
    ret []
  else ret input.

Definition handleRegenerateSlideContent (slideId : jsstring) : M State unit :=
  let* captured := gets (fun s => presentationDocument (app s)) in
  match find_slide captured slideId with
  | None => ret tt
  | Some slide =>
      modify (setActionInProgress (Some (slideId, SlideComponent.content))) ;;
      try_finally
        (try_catch
           (let* newContent := regenerateSlideContent (SlideScaffold.title slide) in
            modify (on_app (updatePresentationDocument (set_content slideId newContent))))
           (fun err =>
              modify (console_error_with (lit "Failed to regenerate slide content") err)))
        (modify (setActionInProgress None))
  end.

Definition handleRegenerateSlideImage (slideId : jsstring) : M State unit :=
  let* captured := gets (fun s => presentationDocument (app s)) in
  match find_slide captured slideId with
  | None => ret tt
  | Some slide =>
      modify (setActionInProgress (Some (slideId, SlideComponent.image))) ;;
      try_finally
        (try_catch
           (let* newImageUrl := generateImageForSlide (SlideScaffold.title slide)
                                  (SlideScaffold.content slide) in
            modify (on_app (updatePresentationDocument (set_imageUrl slideId newImageUrl))))
           (fun err =>
              modify (console_error_with (lit "Failed to regenerate slide image") err)))
        (modify (setActionInProgress None))
  end.

End WithService.

End PresentationActions.

(** ** Sample documents and services of the two editors *)

Module EditingSamples.

Definition page_one : PageScaffold.t :=
  {| PageScaffold.id := lit "p1"; PageScaffold.page_number := 1;
     PageScaffold.page_text := lit "Once";
     PageScaffold.ai_suggestions := [lit "a hero"; lit "sets out"];
     PageScaffold.images := [lit "data:image/jpeg;base64,AA"] |}.

(** A page whose text is blank. *)
Definition page_two : PageScaffold.t :=
  {| PageScaffold.id := lit "p2"; PageScaffold.page_number := 2;
     PageScaffold.page_text := lit "  ";
     PageScaffold.ai_suggestions := [lit "the road"];
     PageScaffold.images := [] |}.

Definition draft : StoryDocument.t :=
  {| StoryDocument.id := lit "doc"; StoryDocument.title := lit "Saga";
     StoryDocument.chapters :=
       [ {| ChapterScaffold.id := lit "c1"; ChapterScaffold.title := lit "One";
            ChapterScaffold.summary := lit "A start";
            ChapterScaffold.pages := [page_one; page_two] |};
         {| ChapterScaffold.id := lit "c2"; ChapterScaffold.title := lit "Two";
            ChapterScaffold.summary := lit "An end";
            ChapterScaffold.pages := [] |} ] |}.

(** The story editor with [draft] open. *)
Definition opened : StoryEditing.State :=
  StoryEditing.mkState (Story.setStoryDocument (Some draft) Story.initial) [] [].

(** A stream that delivers two chunks and then breaks. *)
Definition broken_off : StoryEditing.Stream :=
  StoryEditing.mkStream [lit " upon"; lit " a time"] (Some StoryWorlds.quota_error).

Definition story_service : StoryEditing.Service :=
  {| StoryEditing.expandPageTextStream := fun _ _ => broken_off;
     StoryEditing.autoWritePageStream := fun _ _ _ _ =>
       StoryEditing.mkStream [lit "New "; lit "text"] None;
     StoryEditing.suggestNewChapterTitles := fun _ _ => Return [lit "Dawn"; []];
     StoryEditing.generateChapterSummaries := fun _ _ => Throw StoryWorlds.quota_error |}.


(** The presentation editor with [two_slides] open. *)
Definition editing : PresentationActions.State :=
  PresentationActions.mkState
    (Presentation.mkState EDITING (Some PresentationWorlds.two_slides) false []
       None [] [] 0)
    [PresentationActions.mkMessage PresentationActions.user (lit "earlier")]
    false None [] [].

Definition presentation_service : PresentationActions.Service :=
  {| PresentationActions.answer_text := fun _ _ _ => Return (lit "Forty-two");
     PresentationActions.parsed_content := fun _ _ => Return None;
     PresentationActions.image_prompt_text := fun _ _ _ => Return (lit "a skyline") |}.

End EditingSamples.

(** ** Sample worlds in which the editor is used during the generation *)

Module EditorWorlds.
Import Story.

(** An edit by an updater written for documents of the declared type:
    it is applied while every slot of the chapter array is filled, and
    leaves the cell alone otherwise. *)
Definition edit_declared (f : option StoryDocument.t -> option StoryDocument.t) : UserAction :=
  EditDocument (fun c =>
                  match c with
                  | None => stored_of <$> f None
                  | Some h =>
                      match declared_of h with
                      | Some d => stored_of <$> f (Some d)
                      | None => c
                      end
                  end).

(** The editor drops every chapter:
    [setDoc(d => d && { ...d, chapters: [] })]. *)
Definition drop_chapters : UserAction :=
  EditDocument (fun c => (fun d => mkStored (stored_id d) (stored_title d) []) <$> c).

(** [acts] happen while the request of loop index [i] is in flight. *)
Definition during (i : nat) (acts : list UserAction) (h : list Event) : list UserAction :=
  match last h with
  | Some (Started (ChapterCall k)) => if decide (k = i) then acts else []
  | _ => []
  end.

(** The request for chapter 1 is refused; while chapter 2 is requested
    the user applies a suggested title to the first chapter
    ([onSuggestTitles] with the answer [["Dawn"]]). *)
Definition world_retitled_after_failure : World :=
  {| story_title_response := fun _ _ => Return (lit "Saga");
     chapter_response := fun _ _ n _ _ =>
       if decide (n = 1) then Throw StoryWorlds.quota_error else Return (StoryWorlds.written n);
     images_response := fun _ _ => Return [lit "QUJD"];
     randomUUID_value := String_of_nat;
     user_actions := during 1 [edit_declared (StoryEditing.retitle [lit "Dawn"])] |}.

(** While chapter 2 is requested the editor drops every chapter. *)
Definition world_chapters_dropped : World :=
  {| story_title_response := fun _ _ => Return (lit "Saga");
     chapter_response := fun _ _ n _ _ => Return (StoryWorlds.written n);
     images_response := fun _ _ => Return [lit "QUJD"];
     randomUUID_value := String_of_nat;
     user_actions := during 1 [drop_chapters] |}.

(** A document with two pending chapters, and the component state of a
    generation that has just begun on it. *)
Definition two_pending : StoryDocument.t :=
  {| StoryDocument.id := lit "doc";
     StoryDocument.title := lit "Saga";
     StoryDocument.chapters :=
       [ {| ChapterScaffold.id := lit "c1"; ChapterScaffold.title := pending_title 0;
            ChapterScaffold.summary := lit "AI summary will appear here.";
            ChapterScaffold.pages := [] |};
         {| ChapterScaffold.id := lit "c2"; ChapterScaffold.title := pending_title 1;
            ChapterScaffold.summary := lit "AI summary will appear here.";
            ChapterScaffold.pages := [] |} ] |}.

Definition generating : Running :=
  running (setRobotState writing
             (snd (new_AbortController (setStoryDocument (Some two_pending) initial)))).

End EditorWorlds.

(** * Properties *)

(** ** Chunking *)

Module ChunkingFacts.
Import Chunking.

Lemma ceil_div_0 c : 0 < c -> ceil_div 0 c = 0.
Proof.
  intros Hc. unfold ceil_div. apply Nat.div_small. lia.
Qed.

Lemma ceil_div_step m c : 0 < c -> 0 < m -> ceil_div m c = S (ceil_div (m - c) c).
Proof.
  intros Hc Hm. unfold ceil_div.
  destruct (decide (c <= m)) as [Hle|Hlt].
  - replace (m + c - 1) with ((m - c + c - 1) + 1 * c) by lia.
    rewrite Nat.div_add by lia. lia.
  - replace (m - c) with 0 by lia.
    rewrite (Nat.div_small (0 + c - 1)) by lia.
    symmetry. apply (Nat.div_unique _ _ _ (m - 1)); lia.
Qed.

(** [ceil_div] is the ceiling of the quotient. *)
Lemma ceil_div_is_ceiling n c :
  0 < c -> n <= ceil_div n c * c /\ ceil_div n c * c < n + c.
Proof.
  intros Hc. unfold ceil_div.
  pose proof (Nat.div_mod_eq (n + c - 1) c) as E.
  pose proof (Nat.mod_upper_bound (n + c - 1) c ltac:(lia)) as B.
  nia.
Qed.

Lemma substring_take_drop (data : jsstring) i SIZE :
  i < length data -> substring data i (i + SIZE) = take SIZE (drop i data).
Proof.
  intros Hi. unfold substring.
  replace (i `min` length data) with i by lia.
  destruct (decide (i + SIZE <= length data)) as [Hle|Hgt].
  - replace ((i + SIZE) `min` length data) with (i + SIZE) by lia.
    replace (i `max` (i + SIZE) - i `min` (i + SIZE)) with SIZE by lia.
    replace (i `min` (i + SIZE)) with i by lia. reflexivity.
  - replace ((i + SIZE) `min` length data) with (length data) by lia.
    replace (i `min` length data) with i by lia.
    replace (i `max` length data - i) with (length data - i) by lia.
    rewrite !take_ge; [reflexivity | | ]; rewrite length_drop; lia.
Qed.

Lemma chunk_loop_pieces SIZE (data : jsstring) :
  0 < SIZE ->
  forall fuel i chunks,
    length data - i <= fuel ->
    chunk_loop SIZE data fuel i chunks
    = Some (chunks ++ pieces SIZE (ceil_div (length data - i) SIZE) (drop i data)).
Proof.
  intros Hpos. induction fuel as [|fuel IH]; intros i chunks Hfuel.
  - simpl. rewrite decide_False by lia.
    replace (length data - i) with 0 by lia.
    rewrite ceil_div_0 by lia. simpl. by rewrite app_nil_r.
  - simpl. destruct (decide (i < length data)) as [Hi|Hi].
    + rewrite IH by lia. rewrite <- app_assoc. simpl.
      rewrite (ceil_div_step (length data - i)) by lia. simpl.
      rewrite substring_take_drop by lia.
      rewrite drop_drop.
      replace (length data - i - SIZE) with (length data - (i + SIZE)) by lia.
      reflexivity.
    + replace (length data - i) with 0 by lia.
      rewrite ceil_div_0 by lia. simpl. by rewrite app_nil_r.
Qed.

(** One unit of fuel per code unit is enough: the loop always ends. *)
Lemma chunk_loop_enough_fuel SIZE (data : jsstring) :
  0 < SIZE ->
  run_chunk_loop SIZE data = Some (pieces SIZE (ceil_div (length data) SIZE) data).
Proof.
  intros Hpos. unfold run_chunk_loop.
  rewrite chunk_loop_pieces by lia. simpl.
  by rewrite Nat.sub_0_r.
Qed.

Lemma chunks_of_pieces SIZE (data : jsstring) :
  0 < SIZE -> chunks_of SIZE data = pieces SIZE (ceil_div (length data) SIZE) data.
Proof.
  intros Hpos. unfold chunks_of. by rewrite chunk_loop_enough_fuel.
Qed.

Lemma pieces_length SIZE n s : length (pieces SIZE n s) = n.
Proof.
  revert s. induction n as [|n IH]; intros s; simpl; [done | by rewrite IH].
Qed.

Lemma pieces_concat SIZE n (s : jsstring) :
  length s <= n * SIZE -> concat (pieces SIZE n s) = s.
Proof.
  revert s. induction n as [|n IH]; intros s Hlen; simpl.
  - destruct s; [done | simpl in Hlen; lia].
  - rewrite IH; [apply take_drop | rewrite length_drop; lia].
Qed.

(** Every piece but the last is full. *)
Lemma pieces_full SIZE n (s : jsstring) m :
  m * SIZE <= length s -> m <= n -> Forall (fun c => length c = SIZE) (take m (pieces SIZE n s)).
Proof.
  revert s m. induction n as [|n IH]; intros s m Hlen Hm.
  - simpl. rewrite take_nil. constructor.
  - destruct m as [|m]; [constructor|]. simpl. constructor.
    + rewrite length_take. lia.
    + apply IH; [rewrite length_drop; lia | lia].
Qed.

(** No piece is empty or longer than [SIZE]. *)
Lemma pieces_bounds SIZE n (s : jsstring) :
  0 < SIZE -> (n - 1) * SIZE < length s ->
  Forall (fun c => 0 < length c <= SIZE) (pieces SIZE n s).
Proof.
  intros Hpos. revert s. induction n as [|n IH]; intros s Hlen; simpl; [constructor|].
  constructor.
  - rewrite length_take. lia.
  - destruct n as [|n]; [constructor|].
    apply IH. rewrite length_drop. simpl in *. lia.
Qed.

Lemma chunks_of_facts SIZE (data : jsstring) :
  0 < SIZE ->
  run_chunk_loop SIZE data = Some (chunks_of SIZE data)
  /\ length (chunks_of SIZE data) = ceil_div (length data) SIZE
  /\ Forall (fun c => length c = SIZE)
            (take (ceil_div (length data) SIZE - 1) (chunks_of SIZE data))
  /\ Forall (fun c => 0 < length c <= SIZE) (chunks_of SIZE data)
  /\ concat (chunks_of SIZE data) = data.
Proof.
  intros Hpos.
  pose proof (ceil_div_is_ceiling (length data) SIZE Hpos) as [Hlo Hhi].
  rewrite chunks_of_pieces by done.
  split; [by apply chunk_loop_enough_fuel|].
  split; [apply pieces_length|].
  split; [apply pieces_full; nia|].
  split; [|by apply pieces_concat].
  destruct (decide (length data = 0)) as [H0|H0].
  - rewrite H0, ceil_div_0 by done. constructor.
  - apply pieces_bounds; [done | nia].
Qed.

(** C1. For every input of N code units the chunking loop ends and leaves
    exactly ceil(N/C) chunks, C being 3000 in the presentation flavour and
    3200 in the story flavour; every chunk except possibly the last has
    length C, the last is non-empty and no longer than C, and the chunks
    concatenate to the input. *)
Theorem chunk_count_and_lengths (data : jsstring) :
  (run_chunk_loop CHUNK_SIZE data = Some (chunks_of CHUNK_SIZE data)
   /\ length (chunks_of CHUNK_SIZE data) = ceil_div (length data) 3000
   /\ Forall (fun c => length c = 3000)
             (take (ceil_div (length data) 3000 - 1) (chunks_of CHUNK_SIZE data))
   /\ Forall (fun c => 0 < length c <= 3000) (chunks_of CHUNK_SIZE data)
   /\ concat (chunks_of CHUNK_SIZE data) = data)
  /\
  (run_chunk_loop PAGE_CHUNK_SIZE data = Some (chunks_of PAGE_CHUNK_SIZE data)
   /\ length (chunks_of PAGE_CHUNK_SIZE data) = ceil_div (length data) 3200
   /\ Forall (fun c => length c = 3200)
             (take (ceil_div (length data) 3200 - 1) (chunks_of PAGE_CHUNK_SIZE data))
   /\ Forall (fun c => 0 < length c <= 3200) (chunks_of PAGE_CHUNK_SIZE data)
   /\ concat (chunks_of PAGE_CHUNK_SIZE data) = data).
Proof.
  split.
  - apply (chunks_of_facts CHUNK_SIZE data). unfold CHUNK_SIZE. lia.
  - apply (chunks_of_facts PAGE_CHUNK_SIZE data). unfold PAGE_CHUNK_SIZE. lia.
Qed.

(** The loop on small inputs, with a chunk size of 3. *)
Example chunks_of_7_by_3 :
  run_chunk_loop 3 (lit "abcdefg") = Some [lit "abc"; lit "def"; lit "g"].
Proof. reflexivity. Qed.

Example chunks_of_6_by_3 :
  run_chunk_loop 3 (lit "abcdef") = Some [lit "abc"; lit "def"].
Proof. reflexivity. Qed.

Example chunks_of_empty : run_chunk_loop CHUNK_SIZE [] = Some [].
Proof. reflexivity. Qed.

Example chunks_of_3001 :
  map length (chunks_of CHUNK_SIZE (replicate 3001 97%N)) = [3000; 1].
Proof. vm_compute. reflexivity. Qed.

End ChunkingFacts.

(** ** Editing a document: what the update handlers leave alone *)

Module UpdateFacts.
Import PresentationWorlds.

Lemma map_is_fmap {A B} (f : A -> B) (l : list A) : map f l = f <$> l.
Proof. reflexivity. Qed.

Lemma map_lookup_if {A} (P : A -> Prop) `{forall x, Decision (P x)} (g : A -> A)
    (l : list A) k x :
  l !! k = Some x ->
  map (fun a => if decide (P a) then g a else a) l !! k
  = Some (if decide (P x) then g x else x).
Proof.
  intros Hk. rewrite map_is_fmap, list_lookup_fmap, Hk. reflexivity.
Qed.

Lemma map_if_none {A} (P : A -> Prop) `{forall x, Decision (P x)} (g : A -> A) (l : list A) :
  (forall x, x ∈ l -> P x -> g x = x) ->
  map (fun a => if decide (P a) then g a else a) l = l.
Proof.
  induction l as [|a l IH]; intros Hl; simpl; [done|].
  f_equal.
  - destruct (decide (P a)); [|done]. apply Hl; [left | done].
  - apply IH. intros x Hx. apply Hl. by right.
Qed.

(** C6. [onUpdateSlide] and [onUpdatePage] change nothing but the slide
    (page) with the given id: the document's id and title, the number and
    order of slides, chapters and pages, every slide with another id, every
    chapter with another id and every page with another id stay as they
    were; a matching slide (page) becomes its spread with the updates; and
    when no slide (no page of a matching chapter) has the id, the document
    is returned unchanged.  A null document stays null. *)
Theorem update_touches_only_the_matching_item :
  (forall slideId updates,
     Presentation.onUpdateSlide slideId updates None = None)
  /\ (forall slideId updates doc,
        is_Some (Presentation.onUpdateSlide slideId updates (Some doc)))
  /\ (forall slideId updates doc doc',
        Presentation.onUpdateSlide slideId updates (Some doc) = Some doc' ->
        PresentationDocument.id doc' = PresentationDocument.id doc
        /\ PresentationDocument.title doc' = PresentationDocument.title doc
        /\ length (PresentationDocument.slides doc') = length (PresentationDocument.slides doc)
        /\ (forall k s, PresentationDocument.slides doc !! k = Some s ->
              SlideScaffold.id s <> slideId ->
              PresentationDocument.slides doc' !! k = Some s)
        /\ (forall k s, PresentationDocument.slides doc !! k = Some s ->
              SlideScaffold.id s = slideId ->
              PresentationDocument.slides doc' !! k = Some (SlideScaffold.spread s updates))
        /\ ((forall s, s ∈ PresentationDocument.slides doc -> SlideScaffold.id s <> slideId) ->
            doc' = doc))
  /\ (forall chapterId pageId updates,
        Story.onUpdatePage chapterId pageId updates None = None)
  /\ (forall chapterId pageId updates doc,
        is_Some (Story.onUpdatePage chapterId pageId updates (Some doc)))
  /\ (forall chapterId pageId updates doc doc',
        Story.onUpdatePage chapterId pageId updates (Some doc) = Some doc' ->
        StoryDocument.id doc' = StoryDocument.id doc
        /\ StoryDocument.title doc' = StoryDocument.title doc
        /\ length (StoryDocument.chapters doc') = length (StoryDocument.chapters doc)
        /\ (forall k c, StoryDocument.chapters doc !! k = Some c ->
              exists c', StoryDocument.chapters doc' !! k = Some c'
                /\ ChapterScaffold.id c' = ChapterScaffold.id c
                /\ ChapterScaffold.title c' = ChapterScaffold.title c
                /\ ChapterScaffold.summary c' = ChapterScaffold.summary c
                /\ length (ChapterScaffold.pages c') = length (ChapterScaffold.pages c)
                /\ (ChapterScaffold.id c <> chapterId -> c' = c)
                /\ (forall j p, ChapterScaffold.pages c !! j = Some p ->
                      PageScaffold.id p <> pageId ->
                      ChapterScaffold.pages c' !! j = Some p)
                /\ (forall j p, ChapterScaffold.pages c !! j = Some p ->
                      ChapterScaffold.id c = chapterId -> PageScaffold.id p = pageId ->
                      ChapterScaffold.pages c' !! j = Some (PageScaffold.spread p updates)))
        /\ ((forall c p, c ∈ StoryDocument.chapters doc -> p ∈ ChapterScaffold.pages c ->
               ChapterScaffold.id c = chapterId -> PageScaffold.id p <> pageId) ->
            doc' = doc)).
Proof.
  split; [done|]. split; [by eexists|]. split.
  { intros slideId updates [i t sl] doc' [= <-]. simpl.
    split; [done|]. split; [done|]. split; [by rewrite length_map|].
    split; [|split].
    - intros k s Hk Hne. rewrite (map_lookup_if _ _ _ _ _ Hk). by rewrite decide_False.
    - intros k s Hk He. rewrite (map_lookup_if _ _ _ _ _ Hk). by rewrite decide_True.
    - intros Hnone. f_equal. apply map_if_none.
      intros s Hs He. by destruct (Hnone s Hs). }
  split; [done|]. split; [by eexists|].
  intros chapterId pageId updates [i t cs] doc' [= <-]. simpl.
  split; [done|]. split; [done|]. split; [by rewrite length_map|].
  split.
  - intros k c Hk.
    rewrite (map_lookup_if (fun c => ChapterScaffold.id c = chapterId) _ _ _ _ Hk).
    eexists; split; [reflexivity|].
    destruct (decide (ChapterScaffold.id c = chapterId)) as [He|Hne]; simpl.
    + split; [done|]. split; [done|]. split; [done|]. split; [by rewrite length_map|].
      split; [done|]. split.
      * intros j p Hj Hp. rewrite (map_lookup_if _ _ _ _ _ Hj). by rewrite decide_False.
      * intros j p Hj _ Hp. rewrite (map_lookup_if _ _ _ _ _ Hj). by rewrite decide_True.
    + repeat (split; [done|]). intros j p Hj Hc. done.
  - intros Hnone. f_equal.
    apply (map_if_none (fun c => ChapterScaffold.id c = chapterId)).
    intros [ci ct cs' cp] Hc He. simpl. f_equal.
    apply map_if_none. intros p Hp Hpid.
    by destruct (Hnone _ p Hc Hp He).
Qed.

Example onUpdateSlide_retitles_a :
  Presentation.onUpdateSlide (lit "a") retitle (Some two_slides)
  = Some {| PresentationDocument.id := lit "doc";
            PresentationDocument.title := lit "Deck";
            PresentationDocument.slides :=
              [ SlideScaffold.mk (lit "a") (lit "Renamed") [lit "x"] None;
                SlideScaffold.mk (lit "b") (lit "Second") [lit "y"]
                  (Some (lit "data:image/jpeg;base64,AA")) ] |}.
Proof. reflexivity. Qed.

Lemma update_touches_only_the_matching_item_witness :
  Presentation.onUpdateSlide (lit "zz") retitle (Some two_slides) = Some two_slides.
Proof.
  destruct update_touches_only_the_matching_item as (_ & Hsome & Hframe & _).
  destruct (Hsome (lit "zz") retitle two_slides) as [doc' Hdoc'].
  destruct (Hframe _ _ _ _ Hdoc') as (_ & _ & _ & _ & _ & Hnone).
  rewrite Hdoc'. f_equal. apply Hnone.
  intros s Hs. apply list_elem_of_In in Hs. simpl in Hs.
  destruct Hs as [<-|[<-|[]]]; discriminate.
Defined.

End UpdateFacts.

(** ** Presentation flavour: image generation and the generation handler *)

Module PresentationFacts.
Import Presentation.

#[local] Opaque lit String_of_nat.

Ltac run :=
  unfold generateSlideFromChunk, generateSlideImage, generatePresentationTitle,
    first_imageBytes, randomUUID, await, record, console_error,
    setAppState, setPresentationDocument, setIsLoading, setLoadingMessage, setError,
    try_catch, try_finally, bind, ret, throw, gets, modify; simpl.

Lemma startsWith_app (p s : jsstring) : startsWith (p ++ s) p = true.
Proof.
  induction p as [|c p IH]; simpl; [done|].
  by rewrite N.eqb_refl, IH.
Qed.

Lemma generateSlideImage_run w prompt s :
  let answer := images_response w (trace s ++ [Started ImageCall]) prompt in
  exists url s',
    generateSlideImage w prompt s = (Return url, s')
    /\ same_cells s s' /\ uuids s' = uuids s
    /\ trace s' = trace s ++ [Started ImageCall; Settled ImageCall (threw answer)]
    /\ url = match answer with
             | Return (imageBytes :: _) => data_url_prefix ++ imageBytes
             | _ => []
             end.
Proof.
  run. destruct (images_response w _ prompt) as [[|b l]|e]; simpl;
    (do 2 eexists; split; [reflexivity|]; simpl;
     rewrite <- ?app_assoc; repeat split; done).
Qed.

Lemma bind_run {S A B} (m : M S A) (k : A -> M S B) (s : S) :
  bind m k s = match m s with
               | (Return a, s') => k a s'
               | (Throw e, s') => (Throw e, s')
               end.
Proof. reflexivity. Qed.

(** One call of [generateSlideFromChunk], by what the text model
    answers. *)
Lemma generateSlideFromChunk_run w chunk n total title s :
  let h := trace s ++ [Started (SlideCall n)] in
  match slide_response w h chunk n total title with
  | Throw e =>
      exists s',
        generateSlideFromChunk w chunk n total title s = (Throw e, s')
        /\ same_cells s s' /\ uuids s' = uuids s /\ console s' = console s
        /\ trace s' = h ++ [Settled (SlideCall n) (Some e)]
  | Return parsed =>
      let h' := h ++ [Settled (SlideCall n) None; Started ImageCall] in
      let answer := images_response w h' (json_image_prompt parsed) in
      exists s',
        generateSlideFromChunk w chunk n total title s
        = (Return (slide_of (randomUUID_value w (uuids s)) parsed
                     match answer with
                     | Return (imageBytes :: _) => data_url_prefix ++ imageBytes
                     | _ => []
                     end), s')
        /\ same_cells s s' /\ uuids s' = S (uuids s)
        /\ trace s' = h' ++ [Settled ImageCall (threw answer)]
  end.
Proof.
  run. destruct (slide_response w _ chunk n total title) as [parsed|e]; simpl.
  - rewrite <- !app_assoc. simpl.
    destruct (images_response w _ (json_image_prompt parsed)) as [[|b l]|e]; simpl;
      (eexists; split; [reflexivity|]; simpl; rewrite <- ?app_assoc; repeat split; done).
  - eexists; split; [reflexivity|]. simpl. rewrite <- ?app_assoc. repeat split; done.
Qed.

Lemma settled_in_turn_S first count :
  settled_in_turn first (S count)
  = [Started (SlideCall first); Settled (SlideCall first) None]
    ++ settled_in_turn (S first) count.
Proof. reflexivity. Qed.

Lemma slide_loop_cons w total title chunk rest index acc s :
  slide_loop w total title (chunk :: rest) index acc s
  = match generateSlideFromChunk w chunk (index + 1) total title
            (snd (setLoadingMessage
                    (lit "Generating slide " ++ String_of_nat (index + 1) ++ lit " of "
                     ++ String_of_nat total ++ lit "...") s)) with
    | (Return slide, s2) => slide_loop w total title rest (S index) (acc ++ [slide]) s2
    | (Throw e, s2) => (Throw e, s2)
    end.
Proof. reflexivity. Qed.

(** The slide loop, from any position: either every remaining request is
    answered, and the slides are appended in order, or the first failing
    request ends the loop with its exception. *)
Lemma slide_loop_run w total title rest :
  forall index acc s,
  exists s' new,
    snd (slide_loop w total title rest index acc s) = s'
    /\ trace s' = trace s ++ new
    /\ same_cells s s'
    /\ match fst (slide_loop w total title rest index acc s) with
       | Return slides =>
           exists made,
             slides = acc ++ made
             /\ length made = length rest
             /\ omap slide_event new = settled_in_turn (index + 1) (length rest)
             /\ omap text_call_threw new = []
             /\ forall i chunk, rest !! i = Some chunk ->
                  exists slide, made !! i = Some slide
                    /\ built_from w (trace s') chunk (index + i + 1) total title slide
       | Throw e =>
           exists k,
             k < length rest
             /\ omap slide_event new
                = settled_in_turn (index + 1) k
                  ++ [Started (SlideCall (index + k + 1));
                      Settled (SlideCall (index + k + 1)) (Some e)]
             /\ omap text_call_threw new = [e]
       end.
Proof.
  induction rest as [|chunk rest IH]; intros index acc s.
  - exists s, []. simpl. rewrite app_nil_r. repeat split.
    exists []. rewrite app_nil_r. repeat split. intros i chunk Hi. done.
  - rewrite slide_loop_cons.
    set (s1 := snd (setLoadingMessage _ s)).
    assert (Hs1 : same_cells s s1 /\ trace s1 = trace s /\ uuids s1 = uuids s)
      by (repeat split; reflexivity).
    destruct Hs1 as (Hc1 & Ht1 & Hu1).
    pose proof (generateSlideFromChunk_run w chunk (index + 1) total title s1) as Hrun.
    simpl in Hrun. rewrite ?Ht1 in Hrun.
    destruct (slide_response w _ chunk (index + 1) total title) as [parsed|e] eqn:Hanswer.
    + destruct Hrun as (s2 & -> & Hcells & Huu & Htr).
      edestruct (IH (S index)) as (s' & new & Hs' & Htr' & Hcells' & Hres).
      exists s'. eexists. split; [exact Hs'|].
      split; [rewrite Htr', Htr; rewrite <- !app_assoc; reflexivity|].
      split.
      { destruct Hc1 as (?&?&?&?), Hcells as (?&?&?&?), Hcells' as (?&?&?&?).
        unfold same_cells. repeat split; congruence. }
      match goal with |- match fst ?call with _ => _ end => destruct (fst call) as [slides|e] end.
      * destruct Hres as (made & -> & Hlen & Hev & Hno & Hbuilt).
        eexists (_ :: made). split; [by rewrite <- app_assoc|].
        split; [simpl; by rewrite Hlen|].
        split.
        { simpl length. rewrite settled_in_turn_S, !omap_app, Hev. simpl.
          by replace (S index + 1) with (S (index + 1)) by lia. }
        split.
        { rewrite !omap_app, Hno. simpl. by destruct (threw _). }
        intros [|i] c Hc.
        -- injection Hc as <-. eexists. split; [reflexivity|].
           rewrite Nat.add_0_r.
           exists (trace s), parsed. do 2 eexists. split; [|split; [done|reflexivity]].
           rewrite Htr', Htr. rewrite <- !app_assoc.
           apply prefix_app, prefix_cons, prefix_nil.
        -- destruct (Hbuilt i c Hc) as (slide & Hslide & Hb).
           exists slide. split; [done|].
           by replace (index + S i + 1) with (S index + i + 1) by lia.
      * destruct Hres as (k & Hk & Hev & Hthrew).
        exists (S k). split; [simpl; lia|]. split.
        { rewrite settled_in_turn_S, !omap_app, Hev. simpl.
          replace (S index + 1) with (S (index + 1)) by lia.
          by replace (index + S k + 1) with (S index + k + 1) by lia. }
        rewrite !omap_app, Hthrew. simpl. by destruct (threw _).
    + destruct Hrun as (s2 & -> & Hcells & Huu & Hcons & Htr).
      exists s2. eexists. split; [reflexivity|].
      split; [rewrite Htr; rewrite <- !app_assoc; reflexivity|].
      split.
      { destruct Hc1 as (?&?&?&?), Hcells as (?&?&?&?).
        unfold same_cells. repeat split; congruence. }
      simpl. exists 0. split; [lia|]. by rewrite Nat.add_0_r.
Qed.

Lemma events_since_app s s' new :
  trace s' = trace s ++ new -> events_since s s' = new.
Proof.
  intros H. unfold events_since. rewrite H. by rewrite drop_app_length.
Qed.

#[local] Opaque slide_loop.

(** The handler never throws, always clears the loading flag, and ends in
    one of the two ways above. *)
Lemma handlePresentationGeneration_run w data s :
  exists s',
    handlePresentationGeneration w data s = (Return tt, s')
    /\ isLoading s' = false
    /\ loadingMessage s' = []
    /\ (ended_in_failure w data s s' \/ ended_in_editor w data s s').
Proof.
  unfold handlePresentationGeneration, ended_in_failure, ended_in_editor.
  destruct (Chunking.chunks_of Chunking.CHUNK_SIZE data) as [|firstChunk rest] eqn:Hchunks.
  - run. eexists. split; [reflexivity|]. simpl.
    split; [done|]. split; [done|]. left.
    repeat split. eexists. split; [apply last_snoc|]. left.
    repeat split. unfold events_since. simpl. apply drop_all.
  - run.
    destruct (title_response w _ firstChunk) as [title|e] eqn:Htitle; simpl.
    + match goal with |- context [slide_loop w ?n title ?r 0 [] ?s0] =>
        destruct (slide_loop_run w n title r 0 [] s0)
          as (s2 & new & Hs2 & Htr & Hcells & Hres);
        destruct (slide_loop w n title r 0 [] s0) as [[slides|e] s2'] eqn:Hloop
      end; simpl in Hs2; subst s2'; simpl in *.
      * eexists. split; [reflexivity|]. simpl.
        split; [done|]. split; [done|]. right.
        destruct Hres as (made & -> & Hlen & Hev & Hno & Hbuilt).
        erewrite !events_since_app
          by (simpl; rewrite Htr, <- !app_assoc; reflexivity).
        rewrite !omap_app, Hno, Hev.
        destruct Hcells as (?&?&?&?). simpl in *.
        split; [done|]. split; [done|]. split; [done|]. split; [done|].
        exists title, made. split; [reflexivity|]. split; [done|]. split; [lia|].
        intros i chunk Hi. destruct (Hbuilt i chunk Hi) as (slide & Hslide & Hb).
        exists slide. split; [done|]. exact Hb.
      * eexists. split; [reflexivity|]. simpl.
        split; [done|]. split; [done|]. left.
        destruct Hres as (k & Hk & Hev & Hthrew).
        erewrite !events_since_app
          by (simpl; rewrite Htr, <- !app_assoc; reflexivity).
        rewrite !omap_app, Hthrew, Hev.
        destruct Hcells as (?&?&?&?). simpl in *.
        split; [done|]. split; [done|]. split; [done|].
        exists e. split; [apply last_snoc|]. right.
        split; [done|]. exists k. split; [lia|]. by right.
    + eexists. split; [reflexivity|]. simpl.
      split; [done|]. split; [done|]. left.
      repeat split. exists e. split; [apply last_snoc|]. right.
      erewrite !events_since_app by (simpl; rewrite <- !app_assoc; reflexivity).
      simpl. split; [done|].
      exists 0. split; [lia|]. by left.
Qed.

(** C7 (as amended).  When a text-model request made by
    [handlePresentationGeneration] (the title request or a slide request)
    throws, the handler itself does not throw: the exception is the last
    value logged to the console, the user-facing error is the generic
    message, the app state is INPUT again, the presentation document is what
    it was before (null stays null) and the loading flag is cleared.  An
    image request that throws is not reported in this way: when the text is
    not empty and neither the title request nor a slide request throws, the
    run ends in the editor with no error shown and a document with one
    slide per chunk, whatever the image requests did. *)
Theorem failed_generation_is_reported w data s :
  (forall e,
     e ∈ omap text_call_threw (events_since s (snd (handlePresentationGeneration w data s))) ->
     fst (handlePresentationGeneration w data s) = Return tt
     /\ last (console (snd (handlePresentationGeneration w data s))) = Some e
     /\ error (snd (handlePresentationGeneration w data s))
        = Some (lit "Failed to generate a presentation. Please check your file and try again.")
     /\ appState (snd (handlePresentationGeneration w data s)) = INPUT
     /\ presentationDocument (snd (handlePresentationGeneration w data s))
        = presentationDocument s
     /\ isLoading (snd (handlePresentationGeneration w data s)) = false)
  /\ (data <> [] ->
      omap text_call_threw (events_since s (snd (handlePresentationGeneration w data s))) = [] ->
      fst (handlePresentationGeneration w data s) = Return tt
      /\ error (snd (handlePresentationGeneration w data s)) = None
      /\ appState (snd (handlePresentationGeneration w data s)) = EDITING
      /\ isLoading (snd (handlePresentationGeneration w data s)) = false
      /\ exists doc,
           presentationDocument (snd (handlePresentationGeneration w data s)) = Some doc
           /\ length (PresentationDocument.slides doc)
              = length (Chunking.chunks_of Chunking.CHUNK_SIZE data)).
Proof.
  destruct (handlePresentationGeneration_run w data s) as (s' & -> & Hload & _ & Hend).
  simpl. split.
  - intros e He.
    destruct Hend as [(Herr & Happ & Hdoc & e' & Hlast & Hwhy)|(_ & _ & Hno & _)].
    + destruct Hwhy as [(_ & Hnone & _)|(Hthrew & _)].
      * rewrite Hnone in He. simpl in He. by apply elem_of_nil in He.
      * rewrite Hthrew in He. apply list_elem_of_singleton in He. subst e'.
        repeat split; done.
    + rewrite Hno in He. by apply elem_of_nil in He.
  - intros Hdata Hno.
    destruct Hend as [(_ & _ & _ & e' & _ & Hwhy)
                     |(Herr & Happ & _ & _ & title & slides & Hdoc & Hlen & _)].
    + destruct Hwhy as [(Hchunks & _)|(Hthrew & _)].
      * destruct (ChunkingFacts.chunks_of_facts Chunking.CHUNK_SIZE data
                    ltac:(unfold Chunking.CHUNK_SIZE; lia)) as (_ & _ & _ & _ & Hconcat).
        rewrite Hchunks in Hconcat. by destruct Hdata.
      * rewrite Hthrew in Hno. discriminate Hno.
    + split; [done|]. split; [done|]. split; [done|]. split; [done|].
      eexists. split; [exact Hdoc|exact Hlen].
Qed.

End PresentationFacts.

(** ** Image generation never throws *)

Module ImageFacts.

#[local] Opaque lit String_of_nat.

Lemma generatePageImage_run w pageText mood s :
  let answer :=
    Story.images_response w (Story.trace s ++ [Story.Started Story.PageImageCall])
      (Story.page_image_prompt pageText mood) in
  exists s',
    Story.generatePageImage w pageText mood s
    = (Return match answer with
              | Return (imageBytes :: _) => Story.data_url_prefix ++ imageBytes
              | _ => []
              end, s').
Proof.
  unfold Story.generatePageImage, Story.await_images, Story.first_imageBytes,
    try_catch, bind, ret, throw, modify. simpl.
  destruct (Story.images_response w _ _) as [[|b l]|e]; simpl; by eexists.
Qed.

(** C8. [generateSlideImage] and [generatePageImage] never throw.  When
    the image request throws (or answers without an image) they return the
    empty string; when it answers with an image they return the data URL,
    which begins with [data:image/jpeg;base64,].  So a slide returned by
    [generateSlideFromChunk] never has the empty string as [imageUrl], and
    has [null] there when the image request threw. *)
Theorem image_helpers_never_throw :
  (forall w prompt s,
     exists url, fst (Presentation.generateSlideImage w prompt s) = Return url
       /\ (url = [] \/ startsWith url (lit "data:image/jpeg;base64,") = true))
  /\ (forall w prompt s e,
        Presentation.images_response w
          (Presentation.trace s ++ [Presentation.Started Presentation.ImageCall]) prompt
        = Throw e ->
        fst (Presentation.generateSlideImage w prompt s) = Return [])
  /\ (forall w prompt s imageBytes more,
        Presentation.images_response w
          (Presentation.trace s ++ [Presentation.Started Presentation.ImageCall]) prompt
        = Return (imageBytes :: more) ->
        fst (Presentation.generateSlideImage w prompt s)
        = Return (lit "data:image/jpeg;base64," ++ imageBytes))
  /\ (forall w pageText mood s,
        exists url, fst (Story.generatePageImage w pageText mood s) = Return url
          /\ (url = [] \/ startsWith url (lit "data:image/jpeg;base64,") = true))
  /\ (forall w pageText mood s e,
        Story.images_response w (Story.trace s ++ [Story.Started Story.PageImageCall])
          (Story.page_image_prompt pageText mood)
        = Throw e ->
        fst (Story.generatePageImage w pageText mood s) = Return [])
  /\ (forall w pageText mood s imageBytes more,
        Story.images_response w (Story.trace s ++ [Story.Started Story.PageImageCall])
          (Story.page_image_prompt pageText mood)
        = Return (imageBytes :: more) ->
        fst (Story.generatePageImage w pageText mood s)
        = Return (lit "data:image/jpeg;base64," ++ imageBytes))
  /\ (forall w chunk n total title s slide s',
        Presentation.generateSlideFromChunk w chunk n total title s = (Return slide, s') ->
        SlideScaffold.imageUrl slide <> Some []
        /\ ((exists e, Presentation.Settled Presentation.ImageCall (Some e)
                       ∈ Presentation.events_since s s') ->
            SlideScaffold.imageUrl slide = None)).
Proof.
  split; [|split; [|split]].
  - intros w prompt s.
    destruct (PresentationFacts.generateSlideImage_run w prompt s)
      as (url & s' & -> & _ & _ & _ & Hurl).
    exists url. split; [done|]. subst url.
    destruct (Presentation.images_response w _ prompt) as [[|b l]|e];
      [by left | right; apply PresentationFacts.startsWith_app | by left].
  - intros w prompt s e He.
    destruct (PresentationFacts.generateSlideImage_run w prompt s)
      as (url & s' & -> & _ & _ & _ & Hurl).
    simpl. rewrite He in Hurl. by subst.
  - intros w prompt s b l He.
    destruct (PresentationFacts.generateSlideImage_run w prompt s)
      as (url & s' & -> & _ & _ & _ & Hurl).
    simpl. rewrite He in Hurl. by subst.
  - split; [|split; [|split]].
    + intros w pageText mood s.
      destruct (generatePageImage_run w pageText mood s) as (s' & ->).
      eexists. split; [reflexivity|].
      destruct (Story.images_response w _ _) as [[|b l]|e];
        [by left | right; apply PresentationFacts.startsWith_app | by left].
    + intros w pageText mood s e He.
      destruct (generatePageImage_run w pageText mood s) as (s' & ->).
      simpl. by rewrite He.
    + intros w pageText mood s b l He.
      destruct (generatePageImage_run w pageText mood s) as (s' & ->).
      simpl. by rewrite He.
    + intros w chunk n total title s slide s' Hrun.
      pose proof (PresentationFacts.generateSlideFromChunk_run w chunk n total title s) as H.
      simpl in H.
      destruct (Presentation.slide_response w _ chunk n total title) as [parsed|e].
      * rewrite <- !app_assoc in H. simpl in H.
        destruct H as (s2 & Heq & _ & _ & Htr).
        rewrite Heq in Hrun. injection Hrun as <- <-.
        split.
        { simpl. by destruct (Presentation.images_response w _ _) as [[|b l]|e]. }
        intros [e He].
        erewrite PresentationFacts.events_since_app in He by (rewrite Htr; reflexivity).
        simpl in He.
        destruct (Presentation.images_response w _ _) as [[|b l]|e']; [done| |done].
        exfalso. simpl in He.
        repeat (apply elem_of_cons in He as [He|He]; [discriminate He|]).
        by apply elem_of_nil in He.
      * destruct H as (s2 & Heq & _). rewrite Heq in Hrun. discriminate Hrun.
Qed.

End ImageFacts.

(** ** Sample worlds and runs of the presentation flavour *)

Module PresentationSamples.
Import Presentation PresentationWorlds.

Example two_chunk_text_chunks :
  map length (Chunking.chunks_of Chunking.CHUNK_SIZE two_chunk_text) = [3000; 1].
Proof. vm_compute. reflexivity. Qed.

Example run_ok :
  let s' := snd (handlePresentationGeneration world_ok two_chunk_text initial) in
  appState s' = EDITING
  /\ error s' = None
  /\ option_map (fun d => map SlideScaffold.title (PresentationDocument.slides d))
       (presentationDocument s') = Some [lit "Slide"; lit "Slide"]
  /\ option_map (fun d => map SlideScaffold.id (PresentationDocument.slides d))
       (presentationDocument s') = Some [lit "1"; lit "2"]
  /\ trace s'
     = [Started TitleCall; Settled TitleCall None;
        Started (SlideCall 1); Settled (SlideCall 1) None;
        Started ImageCall; Settled ImageCall None;
        Started (SlideCall 2); Settled (SlideCall 2) None;
        Started ImageCall; Settled ImageCall None].
Proof. vm_compute. repeat split. Qed.

Example run_images_fail :
  let s' := snd (handlePresentationGeneration world_images_fail two_chunk_text initial) in
  appState s' = EDITING
  /\ option_map (fun d => map SlideScaffold.imageUrl (PresentationDocument.slides d))
       (presentationDocument s') = Some [None; None]
  /\ console s' = [quota_error; quota_error].
Proof. vm_compute. repeat split. Qed.

Example run_slide_1_fails :
  let s' := snd (handlePresentationGeneration (world_slide_fails 1) two_chunk_text initial) in
  appState s' = INPUT
  /\ presentationDocument s' = None
  /\ error s' = Some generation_failed_message
  /\ trace s'
     = [Started TitleCall; Settled TitleCall None;
        Started (SlideCall 1); Settled (SlideCall 1) (Some quota_error)].
Proof. vm_compute. repeat split. Qed.

Lemma failed_generation_is_reported_witness :
  (appState (snd (handlePresentationGeneration (world_slide_fails 2) two_chunk_text initial))
   = INPUT
   /\ presentationDocument
        (snd (handlePresentationGeneration (world_slide_fails 2) two_chunk_text initial))
      = None)
  /\ appState (snd (handlePresentationGeneration world_images_fail two_chunk_text initial))
     = EDITING
  /\ error (snd (handlePresentationGeneration world_images_fail two_chunk_text initial))
     = None.
Proof.
  split.
  - destruct (proj1 (PresentationFacts.failed_generation_is_reported
                       (world_slide_fails 2) two_chunk_text initial) quota_error)
      as (_ & _ & _ & Happ & Hdoc & _).
    + vm_compute. left.
    + split; [exact Happ | exact Hdoc].
  - destruct (proj2 (PresentationFacts.failed_generation_is_reported
                       world_images_fail two_chunk_text initial))
      as (_ & Herr & Happ & _).
    + discriminate.
    + reflexivity.
    + split; [exact Happ | exact Herr].
Defined.

(** An image request is an AI call too, and when it throws nothing is
    reported: with every image request refused the run ends in the editor,
    with a published document and no error. *)
Lemma image_failure_is_not_reported : ~ any_failed_call_is_reported.
Proof.
  intros Hclaim.
  destruct (Hclaim world_images_fail two_chunk_text initial ImageCall quota_error)
    as (_ & Happ & _).
  - vm_compute. repeat constructor.
  - vm_compute in Happ. discriminate Happ.
Qed.

Lemma image_helpers_never_throw_witness :
  fst (generateSlideImage world_images_fail (lit "a chart") initial) = Return []
  /\ fst (generateSlideImage world_ok (lit "a chart") initial)
     = Return (lit "data:image/jpeg;base64," ++ lit "QUJD").
Proof.
  destruct ImageFacts.image_helpers_never_throw as (_ & Hfail & Hok & _).
  split.
  - apply (Hfail world_images_fail (lit "a chart") initial quota_error). reflexivity.
  - apply (Hok world_ok (lit "a chart") initial (lit "QUJD") []). reflexivity.
Defined.

End PresentationSamples.

(** ** Exported file names *)

Module FileNameFacts.
Import FileName.

Section WithUnicode.
Variable uc : Unicode.

Lemma Canonicalize_ascii ch : is_ascii ch = true -> Canonicalize uc ch = ascii_upper ch.
Proof.
  intros Ha. unfold Canonicalize. rewrite Ha.
  unfold is_ascii in Ha. apply N.ltb_lt in Ha.
  replace (128 <=? ch)%N with false by (symmetry; apply N.leb_gt; lia).
  reflexivity.
Qed.

Lemma Canonicalize_non_ascii ch : is_ascii ch = false -> (128 <= Canonicalize uc ch)%N.
Proof.
  intros Ha. unfold Canonicalize. rewrite Ha.
  unfold is_ascii in Ha. apply N.ltb_ge in Ha.
  destruct (upper_of_unit uc ch) as [|cu [|? ?]]; try done.
  replace (128 <=? ch)%N with true by (symmetry; apply N.leb_le; lia). simpl.
  destruct (cu <? 128)%N eqn:Hcu; [done|]. by apply N.ltb_ge in Hcu.
Qed.

Lemma class_members_ascii : forallb is_ascii class_a_z_0_9 = true.
Proof. reflexivity. Qed.

Lemma ascii_upper_ascii a : is_ascii a = true -> (ascii_upper a < 128)%N.
Proof.
  unfold is_ascii, ascii_upper. intros Ha. apply N.ltb_lt in Ha.
  destruct (_ && _); lia.
Qed.

Lemma ascii_table : forallb ascii_table_agrees (seq 0 128) = true.
Proof. vm_compute. reflexivity. Qed.

Lemma existsb_ext_in {A} (f g : A -> bool) (l : list A) :
  (forall x, In x l -> f x = g x) -> existsb f l = existsb g l.
Proof.
  induction l as [|a l IH]; intros H; simpl; [done|].
  rewrite (H a) by (by left). rewrite IH; [done|]. intros x Hx. apply H. by right.
Qed.

Lemma existsb_false_in {A} (f : A -> bool) (l : list A) :
  (forall x, In x l -> f x = false) -> existsb f l = false.
Proof.
  induction l as [|a l IH]; intros H; simpl; [done|].
  rewrite (H a) by (by left). simpl. apply IH. intros x Hx. apply H. by right.
Qed.

(** The class atom [[^a-z0-9]] with the [i] flag matches exactly the code
    units that are not ASCII letters or digits, whatever the case tables
    say outside ASCII. *)
Lemma matches_iff_not_alnum ch :
  matches_not_a_z_0_9_i uc ch = negb (is_ascii_letter_or_digit ch).
Proof.
  unfold matches_not_a_z_0_9_i. f_equal.
  pose proof class_members_ascii as Hmem. rewrite forallb_forall in Hmem.
  destruct (is_ascii ch) eqn:Ha.
  - rewrite (existsb_ext_in _ (fun a => (ascii_upper a =? ascii_upper ch)%N)).
    + pose proof ascii_table as Htab. rewrite forallb_forall in Htab.
      unfold is_ascii in Ha. apply N.ltb_lt in Ha.
      assert (Hn : ascii_table_agrees (N.to_nat ch) = true)
        by (apply Htab, in_seq; lia).
      unfold ascii_table_agrees in Hn. apply bool_decide_eq_true in Hn.
      by rewrite N2Nat.id in Hn.
    + intros a Hin. by rewrite !Canonicalize_ascii by auto.
  - pose proof (Canonicalize_non_ascii ch Ha) as Hge.
    rewrite existsb_false_in.
    + unfold is_ascii in Ha. apply N.ltb_ge in Ha.
      unfold is_ascii_letter_or_digit.
      repeat match goal with
             | |- context [(?a <=? ?b)%N] => destruct (N.leb_spec a b)
             end; simpl; try reflexivity; lia.
    + intros a Hin. rewrite (Canonicalize_ascii a) by auto.
      pose proof (ascii_upper_ascii a (Hmem a Hin)). apply N.eqb_neq. lia.
Qed.

Lemma replace_non_alnum_map title :
  replace_non_alnum uc title
  = map (fun ch => if is_ascii_letter_or_digit ch then ch else 95%N) title.
Proof.
  unfold replace_non_alnum.
  induction title as [|ch title IH]; simpl; [done|].
  rewrite IH, matches_iff_not_alnum.
  by destruct (is_ascii_letter_or_digit ch).
Qed.

Lemma replaced_is_ascii title :
  forallb is_ascii (map (fun ch => if is_ascii_letter_or_digit ch then ch else 95%N) title)
  = true.
Proof.
  induction title as [|ch title IH]; simpl; [done|].
  rewrite IH, andb_true_r.
  destruct (is_ascii_letter_or_digit ch) eqn:Hal; [|done].
  unfold is_ascii_letter_or_digit in Hal. unfold is_ascii. apply N.ltb_lt.
  repeat match type of Hal with
         | context [(?a <=? ?b)%N] => destruct (N.leb_spec a b); simpl in Hal
         end; try discriminate; lia.
Qed.

(** C10. The exported file name is a function of the title alone: each
    code unit that is not an ASCII letter or digit becomes an underscore,
    letters are lowered, and [.pptx] (for createPresentation) or [.pdf] (for
    createPdf) is appended.  The case tables of the engine outside ASCII
    have no influence. *)
Theorem fileName_from_title (title : jsstring) :
  pptx_fileName uc title = described_name title (lit ".pptx")
  /\ pdf_fileName uc title = described_name title (lit ".pdf").
Proof.
  unfold pptx_fileName, pdf_fileName, described_name, toLowerCase.
  rewrite replace_non_alnum_map, replaced_is_ascii. done.
Qed.

End WithUnicode.

Example fileName_my_deck :
  pptx_fileName no_tables (lit "My Deck: Q3/Q4!") = lit "my_deck__q3_q4_.pptx".
Proof. vm_compute. reflexivity. Qed.

(** U+00E9, a space and the two code units of a surrogate pair become
    four underscores. *)
Example fileName_non_ascii :
  pdf_fileName no_tables ([67; 97; 102; 233; 32; 55357; 56832]%N) = lit "caf____.pdf".
Proof. vm_compute. reflexivity. Qed.

End FileNameFacts.

(** ** Story flavour: grouping chunks into chapters *)

Module GroupingFacts.
Import Chunking Story.

#[local] Opaque lit String_of_nat.

Lemma ceil_div_5_full m : ceil_div (5 * m) 5 = m.
Proof.
  unfold ceil_div. symmetry. apply (Nat.div_unique _ _ _ 4); lia.
Qed.

Lemma ceil_div_5_part m r : 0 < r <= 5 -> ceil_div (5 * m + r) 5 = S m.
Proof.
  intros Hr. unfold ceil_div. symmetry. apply (Nat.div_unique _ _ _ (r - 1)); lia.
Qed.

Lemma group_unchanged {A} (l : list A) (x : A) j :
  5 * j + 5 <= length l ->
  take 5 (drop (5 * j) (l ++ [x])) = take 5 (drop (5 * j) l).
Proof.
  intros Hj. rewrite drop_app_le by lia.
  apply take_app_le. rewrite length_drop. lia.
Qed.

(** A chunk arriving after full groups opens a new group. *)
Lemma groups_snoc_new {A} (l : list A) (x : A) m :
  length l = 5 * m ->
  groups_of_five (l ++ [x]) = groups_of_five l ++ [[x]].
Proof.
  intros Hl. unfold groups_of_five.
  rewrite length_app. simpl length. rewrite Hl.
  rewrite ceil_div_5_full, ceil_div_5_part by lia.
  rewrite seq_S, map_app. simpl. f_equal.
  - apply map_ext_in. intros j Hj. apply in_seq in Hj.
    apply group_unchanged. lia.
  - rewrite drop_app_le by lia. rewrite drop_ge by lia. reflexivity.
Qed.

(** A chunk arriving while the last group has fewer than five members
    joins that group. *)
Lemma groups_snoc_more {A} (l : list A) (x : A) m r :
  length l = 5 * m + r -> 0 < r < 5 ->
  exists init g,
    groups_of_five l = init ++ [g]
    /\ groups_of_five (l ++ [x]) = init ++ [g ++ [x]]
    /\ length init = m.
Proof.
  intros Hl Hr. unfold groups_of_five.
  rewrite length_app. simpl length. rewrite Hl.
  replace (5 * m + r + 1) with (5 * m + (r + 1)) by lia.
  rewrite !ceil_div_5_part by lia.
  rewrite seq_S, !map_app. simpl.
  exists (map (fun j => take 5 (drop (5 * j) l)) (seq 0 m)), (take 5 (drop (5 * m) l)).
  split; [done|]. split; [|by rewrite length_map, length_seq].
  f_equal.
  - apply map_ext_in. intros j Hj. apply in_seq in Hj.
    apply group_unchanged. lia.
  - rewrite drop_app_le by lia.
    rewrite !take_ge; [done| |]; rewrite ?length_app, length_drop; simpl; lia.
Qed.

Lemma groups_length {A} (l : list A) :
  length (groups_of_five l) = ceil_div (length l) 5.
Proof. unfold groups_of_five. by rewrite length_map, length_seq. Qed.

Lemma get_fmap_Some {A} (l : list A) i : Sparse.get (Some <$> l) i = l !! i.
Proof.
  unfold Sparse.get. rewrite list_lookup_fmap. by destruct (l !! i).
Qed.

Lemma set_at_end {A} (l : list A) (v : A) :
  Sparse.set (Some <$> l) (length l) v = Some <$> (l ++ [v]).
Proof.
  unfold Sparse.set. rewrite length_fmap, decide_False by lia.
  rewrite Nat.sub_diag. simpl. by rewrite fmap_app.
Qed.

Lemma set_last {A} (init : list A) (g v : A) :
  Sparse.set (Some <$> (init ++ [g])) (length init) v = Some <$> (init ++ [v]).
Proof.
  unfold Sparse.set. rewrite length_fmap, length_app. simpl.
  rewrite decide_True by lia. rewrite !fmap_app. simpl.
  rewrite insert_app_r_alt by (rewrite length_fmap; lia).
  by rewrite length_fmap, Nat.sub_diag.
Qed.

(** One step of the reducer, on an accumulator without empty slots that
    holds the groups of the chunks seen so far. *)
Lemma group_step_groups (seen : list jsstring) (chunk : jsstring) :
  group_step (Some <$> groups_of_five seen) chunk (length seen)
  = Some <$> groups_of_five (seen ++ [chunk]).
Proof.
  unfold group_step.
  pose proof (Nat.div_mod_eq (length seen) 5) as Hdm.
  pose proof (Nat.mod_upper_bound (length seen) 5 ltac:(lia)) as Hlt.
  set (m := length seen / 5) in *. set (r := length seen mod 5) in *.
  destruct (decide (r = 0)) as [Hr|Hr].
  - rewrite (groups_snoc_new seen chunk m) by lia.
    assert (Hlen : length (groups_of_five seen) = m).
    { rewrite groups_length. replace (length seen) with (5 * m) by lia.
      apply ceil_div_5_full. }
    rewrite get_fmap_Some, lookup_ge_None_2 by lia.
    rewrite <- Hlen, set_at_end, get_fmap_Some.
    rewrite lookup_app_r, Nat.sub_diag by lia. simpl.
    apply set_last.
  - destruct (groups_snoc_more seen chunk m r) as (init & g & Hg & Hg' & Hinit); [lia..|].
    rewrite Hg, Hg', get_fmap_Some.
    rewrite lookup_app_r, Hinit, Nat.sub_diag by lia. simpl.
    rewrite get_fmap_Some.
    rewrite lookup_app_r, Hinit, Nat.sub_diag by lia. simpl.
    rewrite <- Hinit. apply set_last.
Qed.

Lemma reduce_groups (rest seen : list jsstring) :
  Sparse.reduce_from group_step rest (length seen) (Some <$> groups_of_five seen)
  = Some <$> groups_of_five (seen ++ rest).
Proof.
  revert seen. induction rest as [|chunk rest IH]; intros seen; simpl.
  - by rewrite app_nil_r.
  - rewrite group_step_groups.
    replace (S (length seen)) with (length (seen ++ [chunk]))
      by (rewrite length_app; simpl; lia).
    rewrite IH. by rewrite <- app_assoc.
Qed.

Lemma dense_fmap_Some {A} (l : list A) : Sparse.dense (Some <$> l) = Some l.
Proof.
  induction l as [|x l IH]; [done|].
  rewrite fmap_cons. cbn [Sparse.dense]. by rewrite IH.
Qed.

(** The reducer leaves no empty slot. *)
Lemma group_chunks_dense (chunks : list jsstring) :
  group_chunks chunks = Some <$> groups_of_five chunks.
Proof. unfold group_chunks. apply (reduce_groups chunks []). Qed.

Lemma chapterChunks_groups (chunks : list jsstring) :
  chapterChunks_of chunks = groups_of_five chunks.
Proof.
  unfold chapterChunks_of. by rewrite group_chunks_dense, dense_fmap_Some.
Qed.

Lemma imap_index_only {A B} (g : nat -> B) (l : list A) :
  imap (fun i _ => g i) l = g <$> seq 0 (length l).
Proof.
  revert g. induction l as [|x l IH]; intros g; [done|].
  simpl. f_equal. unfold compose. rewrite (IH (fun i => g (S i))).
  rewrite <- fmap_S_seq, <- list_fmap_compose. done.
Qed.

Lemma pending_chapters_closed w (chapterChunks : list (list jsstring)) u :
  pending_chapters w chapterChunks u
  = (fun i => {| ChapterScaffold.id := randomUUID_value w (u + i);
                 ChapterScaffold.title := pending_title i;
                 ChapterScaffold.summary := lit "AI summary will appear here.";
                 ChapterScaffold.pages := [] |})
    <$> seq 0 (length chapterChunks).
Proof.
  unfold pending_chapters.
  apply (imap_index_only
           (fun i => {| ChapterScaffold.id := randomUUID_value w (u + i);
                        ChapterScaffold.title := pending_title i;
                        ChapterScaffold.summary := lit "AI summary will appear here.";
                        ChapterScaffold.pages := [] |})).
Qed.

(** C9. The reducer of [handleScaffoldGeneration] leaves no empty slot and
    groups the N chunks into exactly ceil(N/5) groups, group j holding
    chunks 5j to min(5j+4, N-1) in their original order; one scaffold per
    group is created, titled [Chapter j+1 (pending...)], with no pages;
    and when the awaited part of the handler succeeds, these groups and
    these scaffolds are what it hands on and publishes. *)
Theorem chapters_group_five_chunks (w : World) (chunks : list jsstring) :
  Sparse.dense (group_chunks chunks) = Some (chapterChunks_of chunks)
  /\ length (chapterChunks_of chunks) = ceil_div (length chunks) 5
  /\ chapterChunks_of chunks
     = map (fun j => take 5 (drop (5 * j) chunks)) (seq 0 (ceil_div (length chunks) 5))
  /\ (forall u,
        length (pending_chapters w (chapterChunks_of chunks) u) = ceil_div (length chunks) 5
        /\ map ChapterScaffold.title (pending_chapters w (chapterChunks_of chunks) u)
           = map (fun j => lit "Chapter " ++ String_of_nat (j + 1) ++ lit " (pending...)")
                 (seq 0 (ceil_div (length chunks) 5))
        /\ Forall (fun c => ChapterScaffold.pages c = [])
                  (pending_chapters w (chapterChunks_of chunks) u))
  /\ (forall data s docId chapterChunks s',
        chunks = chunks_of PAGE_CHUNK_SIZE data ->
        prepare_scaffold w data s = (Scaffolded docId chapterChunks, s') ->
        chapterChunks = chapterChunks_of chunks
        /\ generationStatus s' = mkStatus true 0 (ceil_div (length chunks) 5)
        /\ exists title,
             storyDocument s'
             = Some {| StoryDocument.id := docId;
                       StoryDocument.title := title;
                       StoryDocument.chapters :=
                         pending_chapters w (chapterChunks_of chunks) (S (uuids s)) |}).
Proof.
  assert (Hlen : length (chapterChunks_of chunks) = ceil_div (length chunks) 5)
    by (rewrite chapterChunks_groups; apply groups_length).
  split; [by rewrite group_chunks_dense, dense_fmap_Some, chapterChunks_groups|].
  split; [done|].
  split; [by rewrite chapterChunks_groups|].
  split.
  - intros u. rewrite pending_chapters_closed, Hlen.
    split; [by rewrite length_fmap, length_seq|].
    split.
    + exact (map_map _ _ _).
    + apply Forall_fmap, Forall_forall. done.
  - intros data s docId chapterChunks s' -> Hprep.
    unfold prepare_scaffold in Hprep.
    destruct (chunks_of PAGE_CHUNK_SIZE data) as [|firstChunk rest] eqn:Hchunks;
      [discriminate Hprep|].
    simpl in Hprep.
    destruct (story_title_response w _ firstChunk) as [title|e]; [|discriminate Hprep].
    injection Hprep as <- <- <-.
    split; [done|]. simpl. rewrite Hlen. split; [done|].
    by exists title.
Qed.

End GroupingFacts.

(** ** Story flavour: the background chapter generation *)

Module StoryFacts.
Import Story.

#[local] Opaque lit String_of_nat.

Ltac conjs := repeat match goal with |- _ /\ _ => split end.

Lemma signal_aborted_insert c c' (cs : list bool) :
  default false (<[c := true]> cs !! c')
  = if decide (c = c' /\ c < length cs) then true else default false (cs !! c').
Proof.
  destruct (decide (c = c' /\ c < length cs)) as [[-> Hlt]|Hne].
  - by rewrite list_lookup_insert_eq.
  - destruct (decide (c = c')) as [->|Hcc].
    + rewrite list_insert_ge by lia. done.
    + by rewrite list_lookup_insert_ne.
Qed.

Lemma abort_current_facts s :
  trace (abort_current s) = trace s
  /\ generationController (abort_current s) = generationController s
  /\ length (controllers (abort_current s)) = length (controllers s)
  /\ storyDocument (abort_current s) = storyDocument s
  /\ (forall c, signal_aborted c s = true -> signal_aborted c (abort_current s) = true)
  /\ (forall c, generationController s = Some c -> c < length (controllers s) ->
        signal_aborted c (abort_current s) = true).
Proof.
  unfold abort_current, signal_aborted.
  destruct (generationController s) as [c0|] eqn:Hgc0; simpl; rewrite ?Hgc0.
  - rewrite length_insert. repeat split.
    + intros c Hc. rewrite signal_aborted_insert. by destruct (decide _).
    + intros c [= ->] Hlt. rewrite signal_aborted_insert. by rewrite decide_True.
  - repeat split; done.
Qed.

(** ** The document cell *)

Lemma dense_Some {A} (a : Sparse.t A) (l : list A) :
  Sparse.dense a = Some l -> a = Some <$> l.
Proof.
  revert l. induction a as [|[x|] a IH]; intros l; cbn [Sparse.dense].
  - by intros [= <-].
  - destruct (Sparse.dense a) as [l'|]; [|discriminate].
    intros [= <-]. rewrite fmap_cons. f_equal. by apply IH.
  - discriminate.
Qed.

Lemma declared_of_stored_of d : declared_of (stored_of d) = Some d.
Proof.
  unfold declared_of, stored_of. simpl. rewrite GroupingFacts.dense_fmap_Some.
  by destruct d.
Qed.

Lemma declared_of_Some h d : declared_of h = Some d -> h = stored_of d.
Proof.
  unfold declared_of, stored_of. destruct h as [hid htitle a]. simpl.
  destruct (Sparse.dense a) as [l|] eqn:Hdense; [|discriminate].
  intros [= <-]. simpl. by rewrite (dense_Some _ _ Hdense).
Qed.

(** The cell holds what was last written to it. *)
Lemma document_cell_set v r : document_cell (set_document_cell v r) = v.
Proof.
  unfold set_document_cell, document_cell.
  destruct v as [h|]; [|done].
  destruct (declared_of h) as [d|] eqn:Hd; simpl; [|done].
  by rewrite (declared_of_Some _ _ Hd).
Qed.

Lemma set_document_cell_declared (d : option StoryDocument.t) r :
  set_document_cell (stored_of <$> d) r = mkRunning (setStoryDocument d (component r)) None.
Proof.
  destruct d as [d|]; [|done]. unfold set_document_cell. simpl.
  by rewrite declared_of_stored_of.
Qed.

Lemma set_document_cell_stored (d : StoryDocument.t) r :
  set_document_cell (Some (stored_of d)) r
  = mkRunning (setStoryDocument (Some d) (component r)) None.
Proof. exact (set_document_cell_declared (Some d) r). Qed.

Lemma document_cell_declared r :
  sparse_document r = None -> document_cell r = stored_of <$> storyDocument (component r).
Proof. unfold document_cell. by intros ->. Qed.

(** Writing the cell touches nothing but the document. *)
Lemma set_document_cell_frame v r :
  trace (component (set_document_cell v r)) = trace (component r)
  /\ generationController (component (set_document_cell v r))
     = generationController (component r)
  /\ controllers (component (set_document_cell v r)) = controllers (component r)
  /\ generationStatus (component (set_document_cell v r)) = generationStatus (component r)
  /\ robotState (component (set_document_cell v r)) = robotState (component r)
  /\ console (component (set_document_cell v r)) = console (component r)
  /\ error (component (set_document_cell v r)) = error (component r).
Proof.
  unfold set_document_cell. destruct v as [h|]; [|done].
  by destruct (declared_of h).
Qed.

Lemma sparse_get_fmap_Some {A} (l : list A) i : Sparse.get (Some <$> l) i = l !! i.
Proof. unfold Sparse.get. rewrite list_lookup_fmap. by destruct (l !! i). Qed.

Lemma store_chapter_in_range docId i chapter d :
  StoryDocument.id d = docId -> i < length (StoryDocument.chapters d) ->
  store_chapter docId i chapter (Some (stored_of d))
  = Some (stored_of {| StoryDocument.id := StoryDocument.id d;
                       StoryDocument.title := StoryDocument.title d;
                       StoryDocument.chapters := <[i := chapter]> (StoryDocument.chapters d) |}).
Proof.
  intros Hid Hi. unfold store_chapter, stored_of, Sparse.set. simpl.
  rewrite decide_True by done. rewrite length_fmap, decide_True by done.
  by rewrite list_fmap_insert.
Qed.

Lemma mark_failed_in_range i d c :
  StoryDocument.chapters d !! i = Some c ->
  mark_failed i (Some (stored_of d))
  = Return (Some (stored_of
                    {| StoryDocument.id := StoryDocument.id d;
                       StoryDocument.title := StoryDocument.title d;
                       StoryDocument.chapters :=
                         <[i := set_title c (failed_title i)]> (StoryDocument.chapters d) |})).
Proof.
  intros Hc. unfold mark_failed, stored_of. simpl.
  rewrite sparse_get_fmap_Some, Hc. by rewrite list_fmap_insert.
Qed.

(** ** What happens while a request is in flight *)

(** What one action does to the cells the loop depends on. *)
Lemma perform_facts a r :
  trace (component (perform a r)) = trace (component r) ++ [UserDid a]
  /\ generationController (component (perform a r)) = generationController (component r)
  /\ length (controllers (component (perform a r))) = length (controllers (component r))
  /\ (forall c, signal_aborted c (component r) = true ->
        signal_aborted c (component (perform a r)) = true)
  /\ (is_press a = true ->
      forall c, generationController (component r) = Some c ->
        c < length (controllers (component r)) ->
        signal_aborted c (component (perform a r)) = true)
  /\ (is_press a = false ->
      forall c, signal_aborted c (component (perform a r)) = signal_aborted c (component r))
  /\ (a = ClickStop ->
      storyDocument (component (perform a r)) = storyDocument (component r)
      /\ sparse_document (perform a r) = sparse_document r)
  /\ (a = ClickStartOver ->
      storyDocument (component (perform a r)) = None /\ sparse_document (perform a r) = None).
Proof.
  destruct (abort_current_facts (record (UserDid a) (component r)))
    as (Htr & Hgc & Hlen & Hdoc & Hmono & Hab).
  destruct a as [| |update]; unfold perform; cbn [on_component component sparse_document].
  - unfold handleStopGeneration.
    split; [exact Htr|]. split; [exact Hgc|]. split; [exact Hlen|]. split; [exact Hmono|].
    split; [intros _; exact Hab|]. split; [discriminate|]. split; [|discriminate].
    intros _. split; [exact Hdoc|done].
  - unfold handleReset.
    split; [exact Htr|]. split; [exact Hgc|]. split; [exact Hlen|]. split; [exact Hmono|].
    split; [intros _; exact Hab|]. split; [discriminate|]. split; [discriminate|].
    intros _. split; reflexivity.
  - destruct (set_document_cell_frame
                (update (document_cell (on_component (record (UserDid (EditDocument update))) r)))
                (on_component (record (UserDid (EditDocument update))) r))
      as (Htr' & Hgc' & Hcs' & _).
    unfold on_component in *. cbn [component sparse_document] in *.
    rewrite Htr', Hgc'. unfold signal_aborted. rewrite Hcs'.
    repeat split; try done.
Qed.

Lemma actions_facts acts r :
  let r' := foldl (fun r a => perform a r) r acts in
  trace (component r') = trace (component r) ++ (UserDid <$> acts)
  /\ generationController (component r') = generationController (component r)
  /\ length (controllers (component r')) = length (controllers (component r))
  /\ (forall c, signal_aborted c (component r) = true -> signal_aborted c (component r') = true)
  /\ (existsb is_press acts = true ->
      forall c, generationController (component r) = Some c ->
        c < length (controllers (component r)) ->
        signal_aborted c (component r') = true)
  /\ (existsb is_press acts = false ->
      forall c, signal_aborted c (component r') = signal_aborted c (component r))
  /\ (Forall (fun a => a = ClickStop) acts ->
      storyDocument (component r') = storyDocument (component r)
      /\ sparse_document r' = sparse_document r)
  /\ (Forall (fun a => is_press a = true) acts ->
      (storyDocument (component r) = None -> sparse_document r = None ->
       storyDocument (component r') = None /\ sparse_document r' = None)
      /\ (ClickStartOver ∈ acts ->
          storyDocument (component r') = None /\ sparse_document r' = None)).
Proof.
  revert r. induction acts as [|a acts IH]; intros r; cbn [foldl existsb fmap list_fmap].
  - rewrite app_nil_r. conjs; try done.
    intros _. split; [done|]. intros H. by apply elem_of_nil in H.
  - destruct (perform_facts a r)
      as (Htr & Hgc & Hlen & Hmono & Hab & Hsame & Hstop & Hover).
    destruct (IH (perform a r))
      as (Htr' & Hgc' & Hlen' & Hmono' & Hab' & Hsame' & Hstop' & Hquiet').
    split; [by rewrite Htr', Htr, <- app_assoc|].
    split; [congruence|]. split; [congruence|].
    split; [by auto|].
    split; [|split; [|split]].
    + intros Hpress c Hc Hlt. destruct (is_press a) eqn:Ha.
      * apply Hmono', Hab; done.
      * apply Hab'; [done|congruence|lia].
    + intros Hpress c. apply orb_false_iff in Hpress as [Ha Hacts].
      rewrite (Hsame' Hacts c). by apply Hsame.
    + intros Hall. apply Forall_cons in Hall as [-> Hall].
      destruct (Hstop' Hall) as [-> ->]. by apply Hstop.
    + intros Hall. apply Forall_cons in Hall as [Ha Hall].
      destruct (Hquiet' Hall) as [Hnone' Hover'].
      assert (storyDocument (component r) = None -> sparse_document r = None ->
              storyDocument (component (perform a r)) = None
              /\ sparse_document (perform a r) = None) as Hnull.
      { intros Hd Hs. destruct a; [| |discriminate Ha].
        - destruct (Hstop eq_refl) as [-> ->]. done.
        - by apply Hover. }
      split.
      * intros Hd Hs. destruct (Hnull Hd Hs). by apply Hnone'.
      * intros Hin. apply elem_of_cons in Hin as [<-|Hin]; [|by apply Hover'].
        destruct (Hover eq_refl) as [Hd Hs]. by apply Hnone'.
Qed.

(** One awaited chapter request. *)
Lemma await_chapter_facts w i pageChunks total storyTitle r :
  let acts := user_actions w (trace (component r) ++ [Started (ChapterCall i)]) in
  let res := fst (await_chapter w i pageChunks total storyTitle r) in
  let r' := snd (await_chapter w i pageChunks total storyTitle r) in
  res = chapter_response w (trace (component r) ++ [Started (ChapterCall i)]
                            ++ (UserDid <$> acts))
          pageChunks (i + 1) total storyTitle
  /\ trace (component r')
     = trace (component r) ++ [Started (ChapterCall i)] ++ (UserDid <$> acts)
       ++ [ChapterSettled i res]
  /\ generationController (component r') = generationController (component r)
  /\ length (controllers (component r')) = length (controllers (component r))
  /\ (forall c, signal_aborted c (component r) = true -> signal_aborted c (component r') = true)
  /\ (existsb is_press acts = true ->
      forall c, generationController (component r) = Some c ->
        c < length (controllers (component r)) ->
        signal_aborted c (component r') = true)
  /\ (existsb is_press acts = false ->
      forall c, signal_aborted c (component r') = signal_aborted c (component r))
  /\ (Forall (fun a => a = ClickStop) acts ->
      storyDocument (component r') = storyDocument (component r)
      /\ sparse_document r' = sparse_document r)
  /\ (Forall (fun a => is_press a = true) acts ->
      (storyDocument (component r) = None -> sparse_document r = None ->
       storyDocument (component r') = None /\ sparse_document r' = None)
      /\ (ClickStartOver ∈ acts ->
          storyDocument (component r') = None /\ sparse_document r' = None)).
Proof.
  unfold await_chapter. cbn [fst snd on_component component sparse_document]. simpl.
  pose proof (actions_facts (user_actions w (trace (component r) ++ [Started (ChapterCall i)]))
                (on_component (record (Started (ChapterCall i))) r)) as H.
  cbn [on_component component sparse_document] in H. simpl in H.
  destruct H as (Htr & Hgc & Hlen & Hmono & Hab & Hsame & Hstop & Hquiet).
  rewrite Htr. rewrite <- !app_assoc.
  split; [done|]. split; [done|]. split; [done|]. split; [done|].
  split; [exact Hmono|]. split; [exact Hab|]. split; [exact Hsame|].
  split; [exact Hstop|exact Hquiet].
Qed.

Lemma run_chapter_loop_cons w docId total storyTitle signal pageChunks rest i r :
  run_chapter_loop w docId total storyTitle signal (pageChunks :: rest) i r
  = if signal_aborted signal (component r) then
      (StoppedByUser,
       on_component
         (fun s => setRobotState idle
                     (setGenerationStatus
                        (fun g => mkStatus false (completed g) (Story.total g))
                        (to_console (console_log (lit "Generation stopped by user.")) s))) r)
    else
      match await_chapter w i pageChunks total storyTitle r with
      | (Return chapter, r1) =>
          run_chapter_loop w docId total storyTitle signal rest (S i)
            (on_component
               (setGenerationStatus (fun g => mkStatus (active g) (i + 1) (Story.total g)))
               (set_document_cell (store_chapter docId i chapter (document_cell r1)) r1))
      | (Throw err, r1) =>
          if is_AbortError err then (AbortErrorReturn, r1)
          else
            let r2 := on_component
                        (to_console
                           (console_error
                              (Some (lit "Failed to generate chapter "
                                     ++ String_of_nat (i + 1)))
                              err)) r1 in
            match mark_failed i (document_cell r2) with
            | Return doc' =>
                run_chapter_loop w docId total storyTitle signal rest (S i)
                  (set_document_cell doc' r2)
            | Throw e => (UpdaterThrew e, r2)
            end
      end.
Proof. reflexivity. Qed.

(** How a run is reported. *)
Lemma finish_facts (run : Exit * Running) :
  snd (finish run) = component (snd run)
  /\ (sparse_document (snd run) = None -> fst (finish run) = fst run)
  /\ (forall h, sparse_document (snd run) = Some h ->
        fst (finish run) = EmptySlots (fst run) h).
Proof.
  unfold finish. destruct (sparse_document (snd run)) as [h|]; simpl.
  - split; [done|]. split; [discriminate|]. by intros ? [= <-].
  - repeat split; discriminate.
Qed.

(** When the report of a run names one of these ways of ending, the run
    ended that way with every slot of the chapter array filled. *)
Lemma finish_plain (run : Exit * Running) (e : Exit) :
  fst (finish run) = e -> (forall how h, e <> EmptySlots how h) ->
  fst run = e /\ sparse_document (snd run) = None.
Proof.
  destruct (finish_facts run) as (_ & Hnone & Hsome).
  destruct (sparse_document (snd run)) as [h|].
  - rewrite (Hsome h eq_refl). intros <- Hno. by destruct (Hno (fst run) h).
  - rewrite (Hnone eq_refl). done.
Qed.

(** An iteration that begins with the signal set starts no request and
    leaves the generation marked inactive. *)
Lemma aborted_loop_stops w docId total storyTitle signal rest i s :
  signal_aborted signal s = true ->
  trace (snd (chapter_loop w docId total storyTitle signal rest i s)) = trace s
  /\ active (generationStatus (snd (chapter_loop w docId total storyTitle signal rest i s)))
     = false
  /\ robotState (snd (chapter_loop w docId total storyTitle signal rest i s)) = idle
  /\ storyDocument (snd (chapter_loop w docId total storyTitle signal rest i s))
     = storyDocument s
  /\ (fst (chapter_loop w docId total storyTitle signal rest i s) = StoppedByUser
      \/ (rest = []
          /\ fst (chapter_loop w docId total storyTitle signal rest i s) = Completed)).
Proof.
  intros Hab. unfold chapter_loop. destruct rest as [|pageChunks rest].
  - simpl. repeat split. right. done.
  - rewrite run_chapter_loop_cons. cbn [running component]. rewrite Hab.
    simpl. repeat split. by left.
Qed.

Lemma none_started_after_click_actions pressed acts tr :
  none_started_after_click pressed ((UserDid <$> acts) ++ tr)
  = none_started_after_click (pressed || existsb is_press acts) tr.
Proof.
  revert pressed. induction acts as [|a acts IH]; intros pressed.
  - simpl. by rewrite orb_false_r.
  - rewrite fmap_cons. simpl. rewrite IH. by rewrite orb_assoc.
Qed.

Lemma omap_chapter_event_actions acts : omap chapter_event (UserDid <$> acts) = [].
Proof. induction acts as [|a acts IH]; [done|]. rewrite fmap_cons. simpl. exact IH. Qed.

(** The loop from any iteration on: requests go out one at a time, in
    index order, and none after a button was pressed. *)
Lemma run_chapter_loop_order w docId total storyTitle signal rest :
  forall i r pressed,
    generationController (component r) = Some signal ->
    signal < length (controllers (component r)) ->
    (pressed = true -> signal_aborted signal (component r) = true) ->
    exists new,
      trace (component (snd (run_chapter_loop w docId total storyTitle signal rest i r)))
      = trace (component r) ++ new
      /\ none_started_after_click pressed new = true
      /\ in_turn i (omap chapter_event new) = true
      /\ (fst (run_chapter_loop w docId total storyTitle signal rest i r) = StoppedByUser
          \/ fst (run_chapter_loop w docId total storyTitle signal rest i r) = Completed ->
          active (generationStatus
                    (component (snd (run_chapter_loop w docId total storyTitle signal rest i r))))
          = false).
Proof.
  induction rest as [|pageChunks rest IH]; intros i r pressed Hgc Hlt Hpressed.
  - exists []. simpl. rewrite app_nil_r. repeat split.
  - rewrite run_chapter_loop_cons.
    destruct (signal_aborted signal (component r)) eqn:Hab.
    { exists []. simpl. rewrite app_nil_r. repeat split. }
    assert (pressed = false) as ->.
    { destruct pressed; [|done]. by specialize (Hpressed eq_refl). }
    destruct (await_chapter_facts w i pageChunks total storyTitle r)
      as (Hr & Htr & Hgc1 & Hlen1 & _ & Hab1 & _).
    destruct (await_chapter w i pageChunks total storyTitle r) as [res r1].
    cbn [fst snd] in Hr, Htr, Hgc1, Hlen1, Hab1.
    set (acts := user_actions w (trace (component r) ++ [Started (ChapterCall i)])) in *.
    assert (Hnew : forall new,
      none_started_after_click (existsb is_press acts) new = true ->
      in_turn (S i) (omap chapter_event new) = true ->
      none_started_after_click false
        ([Started (ChapterCall i)] ++ (UserDid <$> acts) ++ [ChapterSettled i res] ++ new) = true
      /\ in_turn i (omap chapter_event
           ([Started (ChapterCall i)] ++ (UserDid <$> acts) ++ [ChapterSettled i res] ++ new))
         = true).
    { intros new Hn Hi. split.
      - simpl. by rewrite none_started_after_click_actions.
      - rewrite !omap_app, omap_chapter_event_actions. simpl.
        rewrite !bool_decide_eq_true_2 by done. done. }
    assert (Hstep : forall r2,
      trace (component r2) = trace (component r1) ->
      generationController (component r2) = generationController (component r1) ->
      controllers (component r2) = controllers (component r1) ->
      exists new,
        trace (component (snd (run_chapter_loop w docId total storyTitle signal rest (S i) r2)))
        = trace (component r) ++ new
        /\ none_started_after_click false new = true
        /\ in_turn i (omap chapter_event new) = true
        /\ (fst (run_chapter_loop w docId total storyTitle signal rest (S i) r2) = StoppedByUser
            \/ fst (run_chapter_loop w docId total storyTitle signal rest (S i) r2) = Completed ->
            active (generationStatus
                      (component
                         (snd (run_chapter_loop w docId total storyTitle signal rest (S i) r2))))
            = false)).
    { intros r2 Ht2 Hg2 Hc2.
      destruct (IH (S i) r2 (existsb is_press acts)) as (new & Hn1 & Hn2 & Hn3 & Hn4).
      - congruence.
      - rewrite Hc2. lia.
      - intros Hp. unfold signal_aborted. rewrite Hc2. by apply Hab1.
      - destruct (Hnew new Hn2 Hn3) as (Hx & Hy).
        eexists. split; [|split; [exact Hx|split; [exact Hy|exact Hn4]]].
        rewrite Hn1, Ht2, Htr. rewrite <- app_assoc. f_equal. cbn [app]. f_equal.
        by rewrite <- app_assoc. }
    assert (Hend : exists new,
      trace (component r1) = trace (component r) ++ new
      /\ none_started_after_click false new = true
      /\ in_turn i (omap chapter_event new) = true).
    { destruct (Hnew [] eq_refl eq_refl) as (Hx & Hy).
      eexists. split; [|split; [exact Hx|exact Hy]].
      rewrite Htr. reflexivity. }
    destruct res as [chapter|err].
    + destruct (set_document_cell_frame (store_chapter docId i chapter (document_cell r1)) r1)
        as (H1 & H2 & H3 & _).
      apply Hstep; cbn [on_component component]; simpl; done.
    + destruct (is_AbortError err).
      * destruct Hend as (new & H1 & H2 & H3). exists new. simpl.
        repeat split; try done. intros [?|?]; discriminate.
      * cbv zeta.
        destruct (mark_failed i _) as [doc'|e].
        -- destruct (set_document_cell_frame doc'
                       (on_component
                          (to_console
                             (console_error
                                (Some (lit "Failed to generate chapter "
                                       ++ String_of_nat (i + 1))) err)) r1))
             as (H1 & H2 & H3 & _).
           apply Hstep; [rewrite H1|rewrite H2|rewrite H3]; reflexivity.
        -- destruct Hend as (new & H1 & H2 & H3). exists new. simpl.
           repeat split; try done. intros [?|?]; discriminate.
Qed.

Lemma no_edits_app evs evs' : no_edits (evs ++ evs') <-> no_edits evs /\ no_edits evs'.
Proof.
  unfold no_edits. split.
  - intros H. split; intros u Hin; apply (H u), elem_of_app; [by left|by right].
  - intros [H1 H2] u Hin. apply elem_of_app in Hin as [Hin|Hin]; [by apply (H1 u)|by apply (H2 u)].
Qed.

(** The events of one awaited request. *)
Lemma request_events i acts res :
  let head := Started (ChapterCall i) :: (UserDid <$> acts) ++ [ChapterSettled i res] in
  (forall j res', ChapterSettled j res' ∈ head -> j = i /\ res' = res)
  /\ (forall a, UserDid a ∈ head <-> a ∈ acts)
  /\ (no_edits head -> Forall (fun a => is_press a = true) acts)
  /\ (no_edits head -> ClickStartOver ∉ acts -> Forall (fun a => a = ClickStop) acts).
Proof.
  cbv zeta.
  assert (Hact : forall a,
            UserDid a ∈ Started (ChapterCall i) :: (UserDid <$> acts) ++ [ChapterSettled i res]
            <-> a ∈ acts).
  { intros a. split.
    - intros Hin. apply elem_of_cons in Hin as [Hin|Hin]; [discriminate Hin|].
      apply elem_of_app in Hin as [Hin|Hin].
      + apply list_elem_of_fmap in Hin as (a' & Ha & Hin). by injection Ha as ->.
      + apply list_elem_of_singleton in Hin. discriminate Hin.
    - intros Hin. apply elem_of_cons. right. apply elem_of_app. left.
      apply list_elem_of_fmap. by exists a. }
  split; [|split; [exact Hact|split]].
  - intros j res' Hin.
    apply elem_of_cons in Hin as [Hin|Hin]; [discriminate Hin|].
    apply elem_of_app in Hin as [Hin|Hin].
    + apply list_elem_of_fmap in Hin as (a & Ha & _). discriminate Ha.
    + apply list_elem_of_singleton in Hin. by injection Hin as -> ->.
  - intros Hno. apply Forall_forall. intros a Hin.
    destruct a as [| |update]; [done|done|]. exfalso. by apply (Hno update), Hact.
  - intros Hno Hover. apply Forall_forall. intros a Hin.
    destruct a as [| |update]; [done|by destruct Hover|]. exfalso. by apply (Hno update), Hact.
Qed.

(** A run that starts no request guarantees [loop_post] with no events. *)
Lemma loop_post_nil w docId total storyTitle rest i r exit r' :
  trace (component r') = trace (component r) ->
  storyDocument (component r') = storyDocument (component r) ->
  sparse_document r' = sparse_document r ->
  exit = Completed \/ exit = StoppedByUser ->
  loop_post w docId total storyTitle rest i r (exit, r') [].
Proof.
  intros Htr Hdoc Hsparse Hexit. unfold loop_post. cbn [fst snd].
  rewrite app_nil_r, Hdoc, Hsparse.
  split; [done|]. split.
  { intros j res H. by apply elem_of_nil in H. }
  intros _. split.
  { intros H. by apply elem_of_nil in H. }
  intros Hs. split; [done|].
  intros d Hd Hid _ _. exists d.
  split; [done|]. split; [done|]. split; [done|]. split; [done|]. split; [done|].
  split; [done|]. split.
  - intros j res H. by apply elem_of_nil in H.
  - destruct Hexit as [->| ->]; [by left|right; by left].
Qed.

(** The loop from any iteration on. *)
Lemma run_chapter_loop_post w docId total storyTitle signal rest :
  forall i r,
  exists new,
    loop_post w docId total storyTitle rest i r
      (run_chapter_loop w docId total storyTitle signal rest i r) new.
Proof.
  induction rest as [|pageChunks rest IH]; intros i r.
  - exists []. apply loop_post_nil; [done|done|done|by left].
  - rewrite run_chapter_loop_cons.
    destruct (signal_aborted signal (component r)) eqn:Hab.
    { exists []. apply loop_post_nil; [done|done|done|by right]. }
    destruct (await_chapter_facts w i pageChunks total storyTitle r)
      as (Hr & Htr & _ & _ & _ & _ & _ & Hstops & Hquiet).
    destruct (await_chapter w i pageChunks total storyTitle r) as [res r1].
    cbn [fst snd] in Hr, Htr, Hstops, Hquiet.
    set (acts := user_actions w (trace (component r) ++ [Started (ChapterCall i)])) in *.
    destruct (request_events i acts res) as (Hhead_settled & Hhead_act & Hpresses & Hallstop).
    cbv zeta in Hhead_settled, Hhead_act, Hpresses, Hallstop.
    set (head := Started (ChapterCall i) :: (UserDid <$> acts) ++ [ChapterSettled i res]) in *.
    assert (Hreq : exists h pcs,
              (pageChunks :: rest) !! (i - i) = Some pcs
              /\ res = chapter_response w h pcs (i + 1) total storyTitle).
    { rewrite Nat.sub_diag. eexists _, pageChunks. split; [done|exact Hr]. }
    (* the document after the request, when no handler replaced it *)
    assert (Hnull1 : no_edits head -> sparse_document r = None ->
              storyDocument (component r) = None ->
              storyDocument (component r1) = None /\ sparse_document r1 = None).
    { intros Hno Hs Hd. destruct (Hquiet (Hpresses Hno)) as [Hnone _]. by apply Hnone. }
    assert (Hover1 : no_edits head -> UserDid ClickStartOver ∈ head ->
              storyDocument (component r1) = None /\ sparse_document r1 = None).
    { intros Hno Hin. destruct (Hquiet (Hpresses Hno)) as [_ Hover]. by apply Hover, Hhead_act. }
    assert (Hsame1 : no_edits head -> UserDid ClickStartOver ∉ head ->
              storyDocument (component r1) = storyDocument (component r)
              /\ sparse_document r1 = sparse_document r).
    { intros Hno Hnot. apply Hstops, Hallstop; [done|]. intros Hin. by apply Hnot, Hhead_act. }
    (* the loop ends right after this request *)
    assert (Hexit : forall exit rx,
      trace (component rx) = trace (component r1) ->
      storyDocument (component rx) = storyDocument (component r1) ->
      sparse_document rx = sparse_document r1 ->
      (forall d c, storyDocument (component r1) = Some d -> sparse_document r1 = None ->
         StoryDocument.chapters d !! i = Some c ->
         exit = AbortErrorReturn /\ left_at i res (Some c) = Some c) ->
      exists new, loop_post w docId total storyTitle (pageChunks :: rest) i r (exit, rx) new).
    { intros exit rx Htx Hdx Hsx Hwhy. exists head. unfold loop_post. cbn [fst snd].
      rewrite Htx, Hdx, Hsx. split; [exact Htr|]. split.
      { intros j res' Hin. apply Hhead_settled in Hin as [-> ->]. split; [lia|exact Hreq]. }
      intros Hno. split; [by apply Hover1|].
      intros Hs. split; [by apply Hnull1|].
      intros d Hd Hid Hlen Hnot.
      destruct (Hsame1 Hno Hnot) as [Hd1 Hs1]. rewrite Hd in Hd1. rewrite Hs in Hs1.
      simpl in Hlen.
      destruct (lookup_lt_is_Some_2 (StoryDocument.chapters d) i ltac:(lia)) as [c Hc].
      destruct (Hwhy d c Hd1 Hs1 Hc) as [-> Hleft].
      exists d. conjs; try done.
      - intros j res' Hin. apply Hhead_settled in Hin as [-> ->].
        by rewrite Hc, Hleft.
      - right. by right. }
    (* the loop goes on with the next index *)
    assert (Hcont : forall r2,
      trace (component r2) = trace (component r1) ->
      (storyDocument (component r1) = None -> sparse_document r1 = None ->
       storyDocument (component r2) = None /\ sparse_document r2 = None) ->
      (forall d c, storyDocument (component r1) = Some d -> sparse_document r1 = None ->
         StoryDocument.id d = docId ->
         StoryDocument.chapters d !! i = Some c ->
         left_at i res (Some c) <> None
         /\ sparse_document r2 = None
         /\ storyDocument (component r2)
            = Some {| StoryDocument.id := StoryDocument.id d;
                      StoryDocument.title := StoryDocument.title d;
                      StoryDocument.chapters :=
                        <[i := default c (left_at i res (Some c))]>
                          (StoryDocument.chapters d) |}) ->
      exists new,
        loop_post w docId total storyTitle (pageChunks :: rest) i r
          (run_chapter_loop w docId total storyTitle signal rest (S i) r2) new).
    { intros r2 Ht2 Hn2 Hd2.
      destruct (IH (S i) r2) as (tail & Htail & Hreq' & Hdoc').
      exists (head ++ tail). unfold loop_post.
      split; [rewrite Htail, Ht2, Htr; by rewrite <- app_assoc|].
      split.
      { intros j res' Hin. apply elem_of_app in Hin as [Hin|Hin].
        - apply Hhead_settled in Hin as [-> ->]. split; [lia|exact Hreq].
        - destruct (Hreq' j res' Hin) as (Hj & h & pcs & Hpcs & Hresp).
          split; [lia|]. exists h, pcs. split; [|done].
          by replace (j - i) with (S (j - S i)) by lia. }
      intros Hno. apply no_edits_app in Hno as [Hno_head Hno_tail].
      destruct (Hdoc' Hno_tail) as (Hover' & Hrest').
      split; [|intros Hs; split].
      - intros Hin. apply elem_of_app in Hin as [Hin|Hin]; [|by apply Hover'].
        destruct (Hover1 Hno_head Hin) as [Hd1 Hs1].
        destruct (Hn2 Hd1 Hs1) as [Hd2' Hs2].
        destruct (Hrest' Hs2) as (Hnone' & _). by apply Hnone'.
      - intros Hd. destruct (Hnull1 Hno_head Hs Hd) as [Hd1 Hs1].
        destruct (Hn2 Hd1 Hs1) as [Hd2' Hs2].
        destruct (Hrest' Hs2) as (Hnone' & _). by apply Hnone'.
      - intros d Hd Hid Hlen Hnot.
        assert (UserDid ClickStartOver ∉ head) as Hnot_head.
        { intros Hin. apply Hnot, elem_of_app. by left. }
        destruct (Hsame1 Hno_head Hnot_head) as [Hd1 Hs1]. rewrite Hd in Hd1. rewrite Hs in Hs1.
        simpl in Hlen.
        destruct (lookup_lt_is_Some_2 (StoryDocument.chapters d) i ltac:(lia)) as [c Hc].
        destruct (Hd2 d c Hd1 Hs1 Hid Hc) as (Hleft & Hs2 & Hs2d).
        destruct (Hrest' Hs2) as (_ & Hmain).
        destruct (Hmain _ Hs2d) as (d' & Hd' & Hs' & Hid' & Htitle' & Hlen' & Hbefore & Hat & Hex).
        { done. }
        { cbn [StoryDocument.chapters]. rewrite length_insert. lia. }
        { intros Hin. apply Hnot, elem_of_app. by right. }
        cbn [StoryDocument.chapters StoryDocument.title StoryDocument.id] in *.
        exists d'. split; [done|]. split; [done|]. split; [done|]. split; [done|].
        split; [by rewrite Hlen', length_insert|].
        split.
        { intros j Hj. rewrite Hbefore by lia. apply list_lookup_insert_ne. lia. }
        split; [|exact Hex].
        intros j res' Hin. apply elem_of_app in Hin as [Hin|Hin].
        + apply Hhead_settled in Hin as [-> ->].
          rewrite Hbefore by lia. rewrite list_lookup_insert_eq by lia.
          rewrite Hc. by destruct (left_at i res (Some c)).
        + rewrite (Hat j res' Hin). f_equal.
          destruct (Hreq' j res' Hin) as (Hj & _).
          apply list_lookup_insert_ne. lia. }
    destruct res as [chapter|err].
    + apply Hcont.
      * destruct (set_document_cell_frame
                    (store_chapter docId i chapter (document_cell r1)) r1) as (Htr' & _).
        exact Htr'.
      * intros Hd1 Hs1. rewrite (document_cell_declared _ Hs1), Hd1. done.
      * intros d c Hd1 Hs1 Hid Hc. split; [done|].
        rewrite (document_cell_declared _ Hs1), Hd1. cbn [fmap option_fmap option_map].
        rewrite (store_chapter_in_range docId i chapter d Hid)
          by (by eapply lookup_lt_Some).
        rewrite set_document_cell_stored. done.
    + destruct (is_AbortError err) eqn:Habort.
      * apply Hexit; [done|done|done|].
        intros d c _ _ _. split; [done|]. simpl. by rewrite Habort.
      * cbv zeta.
        set (r1' := on_component
                      (to_console
                         (console_error
                            (Some (lit "Failed to generate chapter " ++ String_of_nat (i + 1)))
                            err)) r1).
        assert (document_cell r1' = document_cell r1) as Hcell by reflexivity.
        rewrite Hcell.
        destruct (mark_failed i (document_cell r1)) as [doc'|e] eqn:Hmark.
        -- apply Hcont.
           ++ by destruct (set_document_cell_frame doc' r1') as (-> & _).
           ++ intros Hd1 Hs1. rewrite (document_cell_declared _ Hs1), Hd1 in Hmark.
              injection Hmark as <-. done.
           ++ intros d c Hd1 Hs1 Hid Hc. simpl. rewrite Habort. split; [done|].
              rewrite (document_cell_declared _ Hs1), Hd1 in Hmark.
              cbn [fmap option_fmap option_map] in Hmark.
              rewrite (mark_failed_in_range i d c Hc) in Hmark.
              injection Hmark as <-.
              rewrite set_document_cell_stored. done.
        -- apply Hexit; [done|done|done|].
           intros d c Hd1 Hs1 Hc.
           rewrite (document_cell_declared _ Hs1), Hd1 in Hmark.
           cbn [fmap option_fmap option_map] in Hmark.
           rewrite (mark_failed_in_range i d c Hc) in Hmark. discriminate Hmark.
Qed.

Lemma story_events_since s s' new :
  trace s' = trace s ++ new -> events_since s s' = new.
Proof.
  intros H. unfold events_since. rewrite H. by rewrite drop_app_length.
Qed.

Lemma handleReset_trace s : trace (handleReset s) = trace s.
Proof.
  destruct (abort_current_facts s) as (Htr & _). unfold handleReset. simpl. exact Htr.
Qed.

Lemma iter_take_uuid_trace n s : trace (Nat.iter n take_uuid s) = trace s.
Proof. induction n as [|n IH]; [done|]. simpl. exact IH. Qed.

Lemma iter_take_uuid_uuids n s : uuids (Nat.iter n take_uuid s) = n + uuids s.
Proof. induction n as [|n IH]; [done|]. simpl. by rewrite IH. Qed.

(** The awaited part of the handler: what it leaves behind. *)
Lemma prepare_scaffold_facts w data s :
  match fst (prepare_scaffold w data s) with
  | Scaffolded docId chapterChunks =>
      chapterChunks = chapterChunks_of (Chunking.chunks_of Chunking.PAGE_CHUNK_SIZE data)
      /\ trace (snd (prepare_scaffold w data s))
         = trace s ++ [Started StoryTitleCall; Settled StoryTitleCall None]
      /\ exists d,
           storyDocument (snd (prepare_scaffold w data s)) = Some d
           /\ StoryDocument.id d = docId
           /\ StoryDocument.chapters d = pending_chapters w chapterChunks (S (uuids s))
  | Caught =>
      exists new,
        trace (snd (prepare_scaffold w data s)) = trace s ++ new
        /\ omap chapter_event new = []
        /\ none_started_after_click false new = true
  end.
Proof.
  unfold prepare_scaffold.
  destruct (Chunking.chunks_of Chunking.PAGE_CHUNK_SIZE data) as [|firstChunk rest].
  - unfold scaffold_catch. cbn [fst snd]. rewrite handleReset_trace. simpl.
    exists []. by rewrite app_nil_r.
  - cbv zeta.
    destruct (story_title_response w _ firstChunk) as [title|e].
    + cbn [fst snd]. split; [done|]. split.
      * unfold setIsLoading, setAppState, setGenerationStatus, setStoryDocument. simpl.
        rewrite iter_take_uuid_trace. simpl. by rewrite <- app_assoc.
      * eexists. split; [reflexivity|]. done.
    + unfold scaffold_catch. cbn [fst snd]. rewrite handleReset_trace. simpl.
      eexists. split; [by rewrite <- app_assoc|]. done.
Qed.




(** A whole run: the handler and the background generation it starts. *)
Lemma handleScaffoldGeneration_order w data s :
  exists new,
    trace (snd (handleScaffoldGeneration w data s)) = trace s ++ new
    /\ none_started_after_click false new = true
    /\ in_turn 0 (omap chapter_event new) = true
    /\ (fst (handleScaffoldGeneration w data s) = StoppedByUser
        \/ fst (handleScaffoldGeneration w data s) = Completed ->
        active (generationStatus (snd (handleScaffoldGeneration w data s))) = false).
Proof.
  unfold handleScaffoldGeneration.
  pose proof (prepare_scaffold_facts w data s) as Hprep.
  destruct (prepare_scaffold w data s) as [[docId chapterChunks|] s1]; simpl in Hprep.
  - destruct Hprep as (_ & Htr & _).
    unfold startChapterGeneration, new_AbortController, chapter_loop.
    cbv beta iota zeta.
    match goal with |- context [run_chapter_loop w docId ?t ?ti ?sig chapterChunks 0 ?r0] =>
      destruct (run_chapter_loop_order w docId t ti sig chapterChunks 0 r0 false)
        as (new & Hn & Hclick & Hturn & Hact);
      [reflexivity | simpl; rewrite length_app; simpl; lia | done |];
      destruct (finish_facts (run_chapter_loop w docId t ti sig chapterChunks 0 r0))
        as (Hsnd & _);
      pose proof (finish_plain (run_chapter_loop w docId t ti sig chapterChunks 0 r0)) as Hplain
    end.
    rewrite Hsnd.
    eexists. split; [|split; [|split]].
    + rewrite Hn. simpl. rewrite Htr, <- app_assoc. reflexivity.
    + exact Hclick.
    + exact Hturn.
    + intros [Hexit|Hexit]; destruct (Hplain _ Hexit) as [Hrun _]; try done;
        apply Hact; rewrite Hrun; [by left|by right].
  - destruct Hprep as (new & Htr & Hno & Hclick).
    exists new. simpl. rewrite Hno. split; [done|]. split; [done|]. split; [done|].
    intros [?|?]; discriminate.
Qed.

(** C4. Pressing stop or start-over sets the signal of the current
    controller; an iteration that begins with the signal set starts no
    request (the trace is unchanged) and leaves the generation status
    inactive and the robot idle; and in a whole run no chapter request is
    started after the user pressed either button, the run ending with the
    status inactive whenever the loop stops at the signal or runs out. *)
Theorem abort_stops_generation :
  (forall s c,
     generationController s = Some c -> c < length (controllers s) ->
     signal_aborted c (handleStopGeneration s) = true
     /\ signal_aborted c (handleReset s) = true)
  /\ (forall w docId total storyTitle signal rest i s,
        signal_aborted signal s = true ->
        trace (snd (chapter_loop w docId total storyTitle signal rest i s)) = trace s
        /\ active (generationStatus
                     (snd (chapter_loop w docId total storyTitle signal rest i s))) = false
        /\ robotState (snd (chapter_loop w docId total storyTitle signal rest i s)) = idle
        /\ (fst (chapter_loop w docId total storyTitle signal rest i s) = StoppedByUser
            \/ (rest = []
                /\ fst (chapter_loop w docId total storyTitle signal rest i s) = Completed)))
  /\ (forall w data s,
        none_started_after_click false
          (events_since s (snd (handleScaffoldGeneration w data s))) = true
        /\ (fst (handleScaffoldGeneration w data s) = StoppedByUser
            \/ fst (handleScaffoldGeneration w data s) = Completed ->
            active (generationStatus (snd (handleScaffoldGeneration w data s))) = false)).
Proof.
  split; [|split].
  - intros s c Hgc Hlt.
    destruct (abort_current_facts s) as (_ & _ & _ & _ & _ & Hab).
    split; [by apply Hab|].
    unfold handleReset, signal_aborted. simpl. by apply Hab.
  - intros w docId total storyTitle signal rest i s Hab.
    destruct (aborted_loop_stops w docId total storyTitle signal rest i s Hab)
      as (H1 & H2 & H3 & _ & H5).
    done.
  - intros w data s.
    destruct (handleScaffoldGeneration_order w data s) as (new & Htr & Hclick & _ & Hact).
    by rewrite (story_events_since _ _ _ Htr).
Qed.


End StoryFacts.

(** ** Both flavours: order of the requests, and what a failed item does *)

Module GenerationFacts.

#[local] Opaque lit String_of_nat.

Import PresentationFacts.

Lemma settled_in_turn_elem first count x :
  x ∈ Presentation.settled_in_turn first count ->
  exists n, first <= n < first + count
    /\ (x = Presentation.Started (Presentation.SlideCall n)
        \/ x = Presentation.Settled (Presentation.SlideCall n) None).
Proof.
  revert first. induction count as [|count IH]; intros first Hin.
  - by apply elem_of_nil in Hin.
  - rewrite settled_in_turn_S in Hin.
    apply elem_of_app in Hin as [Hin|Hin].
    + exists first. split; [lia|].
      apply elem_of_cons in Hin as [->|Hin]; [by left|].
      apply list_elem_of_singleton in Hin as ->. by right.
    + destruct (IH _ Hin) as (n & Hn & Hx). exists n. split; [lia|done].
Qed.

(** In the presentation flavour a failing slide request ends the loop:
    nothing is published and no later slide is requested. *)
Lemma failed_slide_abandons w data s k e :
  Presentation.Settled (Presentation.SlideCall k) (Some e)
    ∈ Presentation.events_since s (snd (Presentation.handlePresentationGeneration w data s)) ->
  Presentation.appState (snd (Presentation.handlePresentationGeneration w data s)) = INPUT
  /\ Presentation.presentationDocument
       (snd (Presentation.handlePresentationGeneration w data s))
     = Presentation.presentationDocument s
  /\ Presentation.error (snd (Presentation.handlePresentationGeneration w data s))
     = Some Presentation.generation_failed_message
  /\ forall n, k < n ->
       Presentation.Started (Presentation.SlideCall n)
         ∉ Presentation.events_since s
             (snd (Presentation.handlePresentationGeneration w data s)).
Proof.
  destruct (handlePresentationGeneration_run w data s) as (s' & -> & _ & _ & Hend).
  cbn [snd]. intros Hin.
  assert (Hin' : Presentation.Settled (Presentation.SlideCall k) (Some e)
                 ∈ omap Presentation.slide_event (Presentation.events_since s s')).
  { apply list_elem_of_omap. eexists. split; [exact Hin|done]. }
  destruct Hend as [(Herr & Happ & Hdoc & e' & _ & Hwhy)|(_ & _ & _ & Hev & _)].
  - destruct Hwhy as [(_ & Hnone & _)|(_ & k' & _ & [Hev|Hev])].
    + rewrite Hnone in Hin. by apply elem_of_nil in Hin.
    + rewrite Hev in Hin'. by apply elem_of_nil in Hin'.
    + split; [done|]. split; [done|]. split; [done|].
      rewrite Hev in Hin'.
      assert (k = k' + 1) as ->.
      { apply elem_of_app in Hin' as [Hin'|Hin'].
        - apply settled_in_turn_elem in Hin' as (n & _ & [Hx|Hx]); discriminate Hx.
        - apply elem_of_cons in Hin' as [Hx|Hin']; [discriminate Hx|].
          apply list_elem_of_singleton in Hin'. by injection Hin' as ->. }
      intros n Hn Hstarted.
      assert (Hs' : Presentation.Started (Presentation.SlideCall n)
                    ∈ omap Presentation.slide_event (Presentation.events_since s s')).
      { apply list_elem_of_omap. eexists. split; [exact Hstarted|done]. }
      rewrite Hev in Hs'.
      apply elem_of_app in Hs' as [Hs'|Hs'].
      * apply settled_in_turn_elem in Hs' as (m & Hm & [Hx|Hx]); [|discriminate Hx].
        injection Hx as ->. lia.
      * apply elem_of_cons in Hs' as [Hx|Hs']; [injection Hx as ->; lia|].
        apply list_elem_of_singleton in Hs'. discriminate Hs'.
  - rewrite Hev in Hin'.
    apply settled_in_turn_elem in Hin' as (n & _ & [Hx|Hx]); discriminate Hx.
Qed.

Lemma pending_chapters_lookup w (chapterChunks : list (list jsstring)) u j :
  j < length chapterChunks ->
  Story.pending_chapters w chapterChunks u !! j
  = Some {| ChapterScaffold.id := Story.randomUUID_value w (u + j);
            ChapterScaffold.title := Story.pending_title j;
            ChapterScaffold.summary := lit "AI summary will appear here.";
            ChapterScaffold.pages := [] |}.
Proof.
  intros Hj. rewrite GroupingFacts.pending_chapters_closed, list_lookup_fmap.
  by rewrite lookup_seq_lt.
Qed.

(** ** Index assignment on an array with slots *)




(** When an iteration begins with the signal clear, the request of its
    index is the next thing that happens. *)
Lemma iteration_starts_request w docId total storyTitle signal pageChunks rest i r :
  Story.signal_aborted signal (Story.component r) = false ->
  exists later,
    Story.trace
      (Story.component
         (snd (Story.run_chapter_loop w docId total storyTitle signal (pageChunks :: rest) i r)))
    = Story.trace (Story.component r) ++ Story.Started (Story.ChapterCall i) :: later.
Proof.
  intros Hab. rewrite StoryFacts.run_chapter_loop_cons, Hab.
  destruct (StoryFacts.await_chapter_facts w i pageChunks total storyTitle r)
    as (_ & Htr & _).
  destruct (Story.await_chapter w i pageChunks total storyTitle r) as [res r1].
  cbn [fst snd] in Htr.
  assert (Hgo : forall r2, Story.trace (Story.component r2) = Story.trace (Story.component r1) ->
            exists later,
              Story.trace
                (Story.component
                   (snd (Story.run_chapter_loop w docId total storyTitle signal rest (S i) r2)))
              = Story.trace (Story.component r) ++ Story.Started (Story.ChapterCall i) :: later).
  { intros r2 Ht2.
    destruct (StoryFacts.run_chapter_loop_post w docId total storyTitle signal rest (S i) r2)
      as (tail & Htail & _).
    rewrite Htail, Ht2, Htr. eexists. rewrite <- !app_assoc. cbn [app]. reflexivity. }
  assert (Hstop : exists later,
            Story.trace (Story.component r1)
            = Story.trace (Story.component r) ++ Story.Started (Story.ChapterCall i) :: later).
  { rewrite Htr. eexists. reflexivity. }
  destruct res as [chapter|err].
  - apply Hgo.
    destruct (StoryFacts.set_document_cell_frame
                (Story.store_chapter docId i chapter (Story.document_cell r1)) r1)
      as (Htr' & _).
    exact Htr'.
  - destruct (is_AbortError err); [exact Hstop|]. cbv zeta.
    destruct (Story.mark_failed i _) as [doc'|e]; [|exact Hstop].
    apply Hgo.
    match goal with |- context [Story.set_document_cell doc' ?rx] =>
      destruct (StoryFacts.set_document_cell_frame doc' rx) as (Htr' & _)
    end.
    exact Htr'.
Qed.

(** C2 (as amended).  Story flavour: when a chapter request throws
    something other than an AbortError, and the document, if there is one,
    holds a chapter at that index by then, the failure is logged and that
    chapter is retitled [Chapter i+1 (Failed)], nothing else in the
    document changing (a missing document stays missing); the loop then
    goes on with the next index, and unless the signal is set by then, the
    request for the next chapter group is the next thing that happens.
    This holds from any state of the loop, whatever the editor did to the
    document while the request was in flight.  Presentation flavour: a
    slide request that throws is not marked and the loop does not go on:
    the handler reports the generic error, returns to INPUT, publishes no
    document and requests no later slide. *)
Theorem failed_chapter_is_marked_failed_slide_abandons :
  (forall w docId total storyTitle signal pageChunks rest i r err r1,
     Story.signal_aborted signal (Story.component r) = false ->
     Story.await_chapter w i pageChunks total storyTitle r = (Throw err, r1) ->
     is_AbortError err = false ->
     (Story.document_cell r1 = None
      \/ exists d, Story.document_cell r1 = Some d
                   /\ is_Some (Sparse.get (Story.stored_chapters d) i)) ->
     exists r2,
       Story.run_chapter_loop w docId total storyTitle signal (pageChunks :: rest) i r
       = Story.run_chapter_loop w docId total storyTitle signal rest (S i) r2
       /\ match Story.document_cell r1 with
          | None => Story.document_cell r2 = None
          | Some d =>
              exists c,
                Sparse.get (Story.stored_chapters d) i = Some c
                /\ Story.document_cell r2
                   = Some (Story.mkStored (Story.stored_id d) (Story.stored_title d)
                             (<[i := Some (Story.set_title c
                                             (lit "Chapter " ++ String_of_nat (i + 1)
                                              ++ lit " (Failed)"))]>
                                (Story.stored_chapters d)))
          end
       /\ Story.trace (Story.component r2) = Story.trace (Story.component r1)
       /\ last (Story.console (Story.component r2))
          = Some (Story.console_error
                    (Some (lit "Failed to generate chapter " ++ String_of_nat (i + 1))) err)
       /\ (Story.signal_aborted signal (Story.component r2) = false ->
           forall next rest', rest = next :: rest' ->
             exists later,
               Story.trace
                 (Story.component
                    (snd (Story.run_chapter_loop w docId total storyTitle signal
                            (pageChunks :: rest) i r)))
               = Story.trace (Story.component r1)
                 ++ Story.Started (Story.ChapterCall (S i)) :: later))
  /\ (forall w data s k e,
        Presentation.Settled (Presentation.SlideCall k) (Some e)
          ∈ Presentation.events_since s
              (snd (Presentation.handlePresentationGeneration w data s)) ->
        Presentation.appState (snd (Presentation.handlePresentationGeneration w data s))
        = INPUT
        /\ Presentation.presentationDocument
             (snd (Presentation.handlePresentationGeneration w data s))
           = Presentation.presentationDocument s
        /\ Presentation.error (snd (Presentation.handlePresentationGeneration w data s))
           = Some (lit "Failed to generate a presentation. Please check your file and try again.")
        /\ forall n, k < n ->
             Presentation.Started (Presentation.SlideCall n)
               ∉ Presentation.events_since s
                   (snd (Presentation.handlePresentationGeneration w data s))).
Proof.
  split.
  - intros w docId total storyTitle signal pageChunks rest i r err r1
      Hab Hawait Habort Hcell.
    rewrite StoryFacts.run_chapter_loop_cons, Hab, Hawait, Habort. cbv zeta.
    set (r1' := Story.on_component
                  (Story.to_console
                     (Story.console_error
                        (Some (lit "Failed to generate chapter " ++ String_of_nat (i + 1)))
                        err)) r1).
    assert (Story.document_cell r1' = Story.document_cell r1) as Hsame by reflexivity.
    rewrite Hsame.
    assert (exists marked,
              Story.mark_failed i (Story.document_cell r1) = Return marked
              /\ match Story.document_cell r1 with
                 | None => marked = None
                 | Some d =>
                     exists c,
                       Sparse.get (Story.stored_chapters d) i = Some c
                       /\ marked
                          = Some (Story.mkStored (Story.stored_id d) (Story.stored_title d)
                                    (<[i := Some (Story.set_title c (Story.failed_title i))]>
                                       (Story.stored_chapters d)))
                 end) as (marked & Hmark & Hmarked).
    { destruct (Story.document_cell r1) as [d|]; [|by exists None].
      destruct Hcell as [Hnone|(d' & [= <-] & c & Hc)]; [discriminate Hnone|].
      unfold Story.mark_failed. rewrite Hc. eexists. split; [reflexivity|].
      exists c. done. }
    rewrite Hmark.
    destruct (StoryFacts.set_document_cell_frame marked r1')
      as (Htr & _ & Hcs & _ & _ & Hconsole & _).
    exists (Story.set_document_cell marked r1').
    split; [reflexivity|]. rewrite StoryFacts.document_cell_set.
    split; [exact Hmarked|].
    split; [exact Htr|]. split; [rewrite Hconsole; apply last_snoc|].
    intros Hclear next rest' ->.
    destruct (iteration_starts_request w docId total storyTitle signal next rest' (S i)
                (Story.set_document_cell marked r1') Hclear) as (later & Hlater).
    exists later. rewrite Hlater, Htr. reflexivity.
  - intros w data s k e Hin. exact (failed_slide_abandons w data s k e Hin).
Qed.


End GenerationFacts.

(** ** Sample worlds and runs of the story flavour *)

Module StorySamples.
Import Story StoryWorlds.

Example long_text_groups :
  map (map length) (chapterChunks_of (Chunking.chunks_of Chunking.PAGE_CHUNK_SIZE long_text))
  = [[3200; 3200; 3200; 3200; 3200]; [3200; 3200; 3200; 3200; 3200]; [1]].
Proof. vm_compute. reflexivity. Qed.

Example run_all_chapters_written :
  let '(exit, s') := handleScaffoldGeneration world_ok long_text initial in
  exit = Completed
  /\ generationStatus s' = mkStatus false 3 3
  /\ option_map (fun d => map ChapterScaffold.title (StoryDocument.chapters d))
       (storyDocument s')
     = Some [lit "Written 1"; lit "Written 2"; lit "Written 3"]
  /\ omap chapter_event (trace s')
     = [Started (ChapterCall 0); ChapterSettled 0 (Return (written 1));
        Started (ChapterCall 1); ChapterSettled 1 (Return (written 2));
        Started (ChapterCall 2); ChapterSettled 2 (Return (written 3))].
Proof. vm_compute. repeat split. Qed.

Example run_chapter_2_fails :
  let '(exit, s') := handleScaffoldGeneration (world_chapter_fails 2) long_text initial in
  exit = Completed
  /\ option_map (fun d => map ChapterScaffold.title (StoryDocument.chapters d))
       (storyDocument s')
     = Some [lit "Written 1"; lit "Chapter 2 (Failed)"; lit "Written 3"].
Proof. vm_compute. repeat split. Qed.

Example run_stopped_during_first :
  let '(exit, s') := handleScaffoldGeneration (world_stop_during 0) long_text initial in
  exit = StoppedByUser
  /\ generationStatus s' = mkStatus false 1 3
  /\ option_map (fun d => map ChapterScaffold.title (StoryDocument.chapters d))
       (storyDocument s')
     = Some [lit "Written 1"; lit "Chapter 2 (pending...)"; lit "Chapter 3 (pending...)"]
  /\ omap chapter_event (trace s')
     = [Started (ChapterCall 0); ChapterSettled 0 (Return (written 1))].
Proof. vm_compute. repeat split. Qed.

Lemma chapters_group_five_chunks_witness :
  exists docId s',
    prepare_scaffold world_ok long_text initial
    = (Scaffolded docId
         (chapterChunks_of (Chunking.chunks_of Chunking.PAGE_CHUNK_SIZE long_text)), s')
    /\ generationStatus s' = mkStatus true 0 3.
Proof.
  destruct (prepare_scaffold world_ok long_text initial) as [[docId cc|] s'] eqn:Hprep;
    [|vm_compute in Hprep; discriminate Hprep].
  destruct (GroupingFacts.chapters_group_five_chunks world_ok
              (Chunking.chunks_of Chunking.PAGE_CHUNK_SIZE long_text))
    as (_ & _ & _ & _ & Hhandler).
  destruct (Hhandler long_text initial docId cc s' eq_refl Hprep) as (-> & Hstatus & _).
  exists docId, s'. split; [reflexivity|]. rewrite Hstatus. vm_compute. reflexivity.
Defined.

Lemma abort_stops_generation_witness :
  let s := handleStopGeneration (snd (new_AbortController initial)) in
  signal_aborted 0 s = true
  /\ trace (snd (chapter_loop world_ok (lit "doc") 1 (lit "Untitled") 0 [[lit "text"]] 0 s))
     = trace s
  /\ active (generationStatus
               (snd (chapter_loop world_ok (lit "doc") 1 (lit "Untitled") 0 [[lit "text"]] 0 s)))
     = false.
Proof.
  destruct StoryFacts.abort_stops_generation as (Hset & Hiter & _).
  assert (Hab : signal_aborted 0 (handleStopGeneration (snd (new_AbortController initial)))
                = true).
  { apply (Hset (snd (new_AbortController initial)) 0); [reflexivity | simpl; lia]. }
  destruct (Hiter world_ok (lit "doc") 1 (lit "Untitled") 0 [[lit "text"]] 0 _ Hab)
    as (Htr & Hact & _).
  split; [exact Hab|]. split; [exact Htr | exact Hact].
Defined.

End StorySamples.

(** ** Sample runs: failed items and the order of requests *)

Module GenerationSamples.

Ltac find_event := vm_compute; repeat constructor.


(** The slide loop does not go on after a failed slide: with two chunks
    and a refused request for slide 1, slide 2 is never requested. *)
Lemma slide_loop_stops_at_failed_slide :
  ~ Presentation.slide_loop_continues_after_failure.
Proof.
  intros Hclaim.
  specialize (Hclaim (PresentationWorlds.world_slide_fails 1)
                PresentationWorlds.two_chunk_text Presentation.initial 1
                PresentationWorlds.quota_error).
  assert (Hnext : Presentation.Started (Presentation.SlideCall (1 + 1))
                  ∈ Presentation.events_since Presentation.initial
                      (snd (Presentation.handlePresentationGeneration
                              (PresentationWorlds.world_slide_fails 1)
                              PresentationWorlds.two_chunk_text Presentation.initial))).
  { apply Hclaim.
    - find_event.
    - reflexivity.
    - vm_compute. lia. }
  vm_compute in Hnext.
  repeat (apply elem_of_cons in Hnext as [Hnext|Hnext]; [discriminate Hnext|]).
  by apply elem_of_nil in Hnext.
Qed.

Lemma failed_chapter_is_marked_failed_slide_abandons_witness :
  (exists r2 d c,
     Story.run_chapter_loop (StoryWorlds.world_chapter_fails 1) (lit "doc") 2 (lit "Saga") 0
       [[lit "one"]; [lit "two"]] 0 EditorWorlds.generating
     = Story.run_chapter_loop (StoryWorlds.world_chapter_fails 1) (lit "doc") 2 (lit "Saga") 0
         [[lit "two"]] 1 r2
     /\ Story.document_cell r2 = Some d
     /\ Sparse.get (Story.stored_chapters d) 0 = Some c
     /\ ChapterScaffold.title c = lit "Chapter 1 (Failed)")
  /\ Presentation.presentationDocument
       (snd (Presentation.handlePresentationGeneration
               (PresentationWorlds.world_slide_fails 2)
               PresentationWorlds.two_chunk_text Presentation.initial))
     = None.
Proof.
  destruct GenerationFacts.failed_chapter_is_marked_failed_slide_abandons
    as (Hstory & Hdeck).
  split.
  - destruct (Hstory (StoryWorlds.world_chapter_fails 1) (lit "doc") 2 (lit "Saga") 0
                [lit "one"] [[lit "two"]] 0 EditorWorlds.generating StoryWorlds.quota_error
                (snd (Story.await_chapter (StoryWorlds.world_chapter_fails 1) 0 [lit "one"] 2
                        (lit "Saga") EditorWorlds.generating)))
      as (r2 & Heq & Hdoc & _).
    + reflexivity.
    + reflexivity.
    + reflexivity.
    + right. eexists. split; [reflexivity|]. eexists. reflexivity.
    + cbv beta iota delta [Story.document_cell] in Hdoc. simpl in Hdoc.
      destruct Hdoc as (c & Hc & Hdoc).
      eexists r2, _, _. split; [exact Heq|]. split; [exact Hdoc|].
      split; [reflexivity|]. reflexivity.
  - destruct (Hdeck (PresentationWorlds.world_slide_fails 2)
                PresentationWorlds.two_chunk_text Presentation.initial 2
                PresentationWorlds.quota_error) as (_ & Hdoc & _).
    + find_event.
    + exact Hdoc.
Defined.


(** The editor at work during the generation.  Chapter 1 fails and is
    marked; while chapter 2 is requested a suggested title is applied to
    the first chapter, and the mark is gone from the document the run ends
    with. *)
Example failed_mark_is_overwritten_by_an_edit :
  let '(exit, s') := Story.handleScaffoldGeneration EditorWorlds.world_retitled_after_failure
                       StoryWorlds.long_text Story.initial in
  exit = Story.Completed
  /\ option_map (fun d => map ChapterScaffold.title (StoryDocument.chapters d))
       (Story.storyDocument s')
     = Some [lit "Dawn"; lit "Written 2"; lit "Written 3"]
  /\ Story.generationStatus s' = Story.mkStatus false 3 3.
Proof. vm_compute. repeat split. Qed.

(** While chapter 2 is requested the editor drops every chapter: the
    chapter that comes back is stored at index 1 of the empty array, which
    leaves slot 0 empty; the loop goes on, requests chapter 3 and appends
    it. *)
Example store_beyond_the_end_leaves_an_empty_slot :
  let '(exit, s') := Story.handleScaffoldGeneration EditorWorlds.world_chapters_dropped
                       StoryWorlds.long_text Story.initial in
  exit = Story.EmptySlots Story.Completed
           (Story.mkStored (lit "0") (lit "Saga")
              [None; Some (StoryWorlds.written 2); Some (StoryWorlds.written 3)])
  /\ omap Story.chapter_event (Story.trace s')
     = [Story.Started (Story.ChapterCall 0);
        Story.ChapterSettled 0 (Return (StoryWorlds.written 1));
        Story.Started (Story.ChapterCall 1);
        Story.ChapterSettled 1 (Return (StoryWorlds.written 2));
        Story.Started (Story.ChapterCall 2);
        Story.ChapterSettled 2 (Return (StoryWorlds.written 3))]
  /\ Story.generationStatus s' = Story.mkStatus false 3 3.
Proof. vm_compute. repeat split. Qed.

End GenerationSamples.

Module PdfFacts.
Import Pdf.

Example letter_lines_3 : letter_lines 3 = [97; 10; 97; 10; 97]%N.
Proof. reflexivity. Qed.

Example split_3_lines :
  split_at_line_feeds (letter_lines 3) [] = [lit "a"; lit "a"; lit "a"].
Proof. reflexivity. Qed.

(** With ten lines in the first chapter both passes agree: chapter two
    is announced for, and drawn on, page 4. *)
Example short_chapter_agrees :
  match createPdf a4_short_lines FileName.no_tables (two_chapters 10) with
  | Return out =>
      toc_page_of out 0 = Some 3 /\ title_page out 0 = Some 3
      /\ toc_page_of out 1 = Some 4 /\ title_page out 1 = Some 4
  | Throw _ => False
  end.
Proof. vm_compute. repeat split. Qed.

(** C3, at a failing input.  With 51 lines in the first chapter the dry
    run counts a page break (50 + 30 + 51 * 14 = 794 exceeds 791.89) and
    announces chapter two for page 5, whereas the drawing pass, which
    starts the text at 90 and tests the cursor before each line, fits all
    51 lines (the last at 790) on page 3 and draws the title of chapter
    two on page 4. *)
Theorem toc_page_differs_from_title_page :
  match createPdf a4_short_lines FileName.no_tables (two_chapters 51) with
  | Return out => toc_page_of out 1 = Some 5 /\ title_page out 1 = Some 4
  | Throw _ => False
  end.
Proof. vm_compute. split; reflexivity. Qed.

(** With 200 lines the passes disagree the other way round: the dry run
    allows one page break per story page and announces page 5; the text
    takes four pages and chapter two is drawn on page 7. *)
Example long_chapter_disagrees :
  match createPdf a4_short_lines FileName.no_tables (two_chapters 200) with
  | Return out => toc_page_of out 1 = Some 5 /\ title_page out 1 = Some 7
  | Throw _ => False
  end.
Proof. vm_compute. split; reflexivity. Qed.

(** The table of contents does not always announce the page a chapter is
    drawn on. *)
Lemma toc_does_not_match_drawing : ~ toc_matches_drawing.
Proof.
  intros Hclaim.
  destruct (createPdf a4_short_lines FileName.no_tables (two_chapters 51))
    as [out|e] eqn:Hpdf.
  - specialize (Hclaim _ _ _ _ Hpdf 1%nat ltac:(simpl; lia)).
    vm_compute in Hpdf. injection Hpdf as <-.
    vm_compute in Hclaim. discriminate Hclaim.
  - vm_compute in Hpdf. discriminate Hpdf.
Qed.

End PdfFacts.

(** ** The bullet textarea of a slide *)

Module TextFacts.
Import Text.

Lemma split_not_nil sep s : split sep s <> [].
Proof.
  destruct s as [|c s]; simpl; [done|].
  destruct (c =? sep)%N; [done|]. by destruct (split sep s).
Qed.

Lemma join_cons sep x l : l <> [] -> join sep (x :: l) = x ++ sep ++ join sep l.
Proof. by destruct l. Qed.

(** Joining what was split gives the string back. *)
Lemma join_split sep s : join [sep] (split sep s) = s.
Proof.
  induction s as [|c s IH]; simpl; [done|].
  destruct (N.eqb_spec c sep) as [->|Hne].
  - rewrite join_cons by apply split_not_nil. cbn [app]. by rewrite IH.
  - pose proof (split_not_nil sep s) as Hnil.
    destruct (split sep s) as [|first more] eqn:Hs; [done|].
    rewrite <- IH. by destruct more.
Qed.

Lemma split_no_sep sep s : sep ∉ s -> split sep s = [s].
Proof.
  induction s as [|c s IH]; intros Hs; simpl; [done|].
  apply not_elem_of_cons in Hs as [Hc Hs].
  destruct (N.eqb_spec c sep) as [->|_]; [done|]. by rewrite IH.
Qed.

Lemma split_app_sep sep x rest :
  sep ∉ x -> split sep (x ++ sep :: rest) = x :: split sep rest.
Proof.
  induction x as [|c x IH]; intros Hx; simpl.
  - by rewrite N.eqb_refl.
  - apply not_elem_of_cons in Hx as [Hc Hx].
    destruct (N.eqb_spec c sep) as [->|_]; [done|]. by rewrite IH.
Qed.

(** Splitting what was joined gives the array back when it is not empty
    and no element holds the separator. *)
Lemma split_join sep l :
  l <> [] -> Forall (fun x => sep ∉ x) l -> split sep (join [sep] l) = l.
Proof.
  induction l as [|x l IH]; intros Hnil Hall; [done|].
  apply Forall_cons in Hall as [Hx Hall].
  destruct l as [|y l].
  - simpl. by apply split_no_sep.
  - rewrite join_cons by done. cbn [app].
    rewrite split_app_sep by done. by rewrite IH.
Qed.

(** One substring more than there are separators. *)
Lemma split_length sep (s : list N) :
  length (split sep s) = S (length (filter (fun c => c = sep) s)).
Proof.
  induction s as [|c s IH]; [done|]. cbn [split].
  destruct (N.eqb_spec c sep) as [->|Hne].
  - rewrite filter_cons_True by done. simpl. by rewrite IH.
  - rewrite filter_cons_False by done.
    pose proof (split_not_nil sep s).
    destruct (split sep s); [done|]. simpl in *. done.
Qed.

Lemma join_separators sep (l : list (list N)) :
  length (filter (fun c => c = sep) (join [sep] l : list N))
  = length l - 1 + length (filter (fun c => c = sep) (concat l)).
Proof.
  induction l as [|x l IH]; [done|].
  destruct l as [|y l].
  - simpl. rewrite app_nil_r. done.
  - rewrite join_cons by done. cbn [concat].
    rewrite !filter_app, !length_app, IH. cbn [concat].
    rewrite filter_cons_True by done. rewrite !filter_app, !length_app. simpl. lia.
Qed.

Lemma no_sep_in_concat sep (l : list (list N)) :
  length (filter (fun c => c = sep) (concat l)) = 0 -> Forall (fun x => sep ∉ x) l.
Proof.
  induction l as [|x l IH]; intros Hlen; [constructor|].
  simpl in Hlen. rewrite filter_app, length_app in Hlen.
  constructor; [|apply IH; lia].
  intros Hin.
  assert (sep ∈ filter (fun c => c = sep) x) as Hin' by (by apply list_elem_of_filter).
  destruct (filter (fun c => c = sep) x); [by apply elem_of_nil in Hin'|simpl in Hlen; lia].
Qed.

Lemma split_join_iff sep (l : list (list N)) :
  split sep (join [sep] l) = l <-> l <> [] /\ Forall (fun x => sep ∉ x) l.
Proof.
  split.
  - intros Heq.
    assert (l <> []) as Hnil by (intros ->; discriminate Heq).
    split; [done|].
    apply (f_equal length) in Heq. rewrite split_length, join_separators in Heq.
    apply no_sep_in_concat. destruct l; [done|]. cbn [length] in Heq.
    unfold jsstring in *. lia.
  - intros [Hnil Hall]. by apply split_join.
Qed.

End TextFacts.

Module SlideComponentFacts.
Import SlideComponent.

#[local] Opaque lit String_of_nat.

Lemma content_change_at slide value doc i :
  (PresentationDocument.slides <$> handleContentChange slide value (Some doc)) ≫= (.!! i)
  = (fun s => if decide (SlideScaffold.id s = SlideScaffold.id slide)
              then SlideScaffold.spread s
                     (SlideScaffold.mkPartial None None
                        (Some (Text.split Text.line_feed value)) None)
              else s)
    <$> PresentationDocument.slides doc !! i.
Proof.
  unfold handleContentChange, Presentation.onUpdateSlide. simpl.
  rewrite UpdateFacts.map_is_fmap. by rewrite list_lookup_fmap.
Qed.

(** What is typed into the bullet textarea of a slide is what the
    textarea shows afterwards: the updater of [handleContentChange] keeps
    the number and order of slides, changes nothing but the bullets, leaves
    slides with another id alone, and every slide with the id of the edited
    one then displays exactly the typed text. *)
Theorem typed_text_is_displayed (slide : SlideScaffold.t) (value : jsstring)
    (doc : PresentationDocument.t) :
  exists doc',
    handleContentChange slide value (Some doc) = Some doc'
    /\ PresentationDocument.id doc' = PresentationDocument.id doc
    /\ PresentationDocument.title doc' = PresentationDocument.title doc
    /\ length (PresentationDocument.slides doc') = length (PresentationDocument.slides doc)
    /\ forall i s,
         PresentationDocument.slides doc !! i = Some s ->
         exists s',
           PresentationDocument.slides doc' !! i = Some s'
           /\ SlideScaffold.id s' = SlideScaffold.id s
           /\ SlideScaffold.title s' = SlideScaffold.title s
           /\ SlideScaffold.imageUrl s' = SlideScaffold.imageUrl s
           /\ (SlideScaffold.id s = SlideScaffold.id slide -> textarea_value s' = value)
           /\ (SlideScaffold.id s <> SlideScaffold.id slide -> s' = s).
Proof.
  pose proof (content_change_at slide value doc) as Hat.
  destruct (handleContentChange slide value (Some doc)) as [doc'|] eqn:Hrun;
    [|discriminate Hrun].
  exists doc'. split; [done|].
  unfold handleContentChange, Presentation.onUpdateSlide in Hrun.
  injection Hrun as <-. simpl.
  split; [done|]. split; [done|]. split; [by rewrite length_map|].
  intros i s Hs. specialize (Hat i). simpl in Hat. rewrite Hat, Hs. simpl.
  eexists. split; [done|].
  destruct (decide (SlideScaffold.id s = SlideScaffold.id slide)) as [Heq|Hne]; simpl.
  - repeat split; try done.
    intros _. unfold textarea_value. simpl. apply TextFacts.join_split.
  - repeat split; done.
Qed.

(** Re-submitting the text the textarea displays leaves the slide as it
    is exactly when the slide has at least one bullet and no bullet
    contains a line feed (an empty bullet list comes back as one empty
    bullet, a bullet with a line feed comes back as several). *)
Theorem shown_text_keeps_bullets (doc doc' : PresentationDocument.t) (i : nat)
    (s : SlideScaffold.t) :
  PresentationDocument.slides doc !! i = Some s ->
  handleContentChange s (textarea_value s) (Some doc) = Some doc' ->
  PresentationDocument.slides doc' !! i = Some s
  <-> SlideScaffold.content s <> []
      /\ Forall (fun bullet => Text.line_feed ∉ bullet) (SlideScaffold.content s).
Proof.
  intros Hs Hrun.
  pose proof (content_change_at s (textarea_value s) doc i) as Hat.
  rewrite Hrun, Hs in Hat. simpl in Hat. rewrite Hat.
  rewrite decide_True by done.
  rewrite <- (TextFacts.split_join_iff Text.line_feed (SlideScaffold.content s)).
  unfold textarea_value, SlideScaffold.spread. simpl.
  destruct s as [id title content imageUrl]; simpl. split.
  - intros Heq. injection Heq as Heq. exact Heq.
  - intros Heq. by rewrite Heq.
Qed.

End SlideComponentFacts.

(** ** Adding and deleting slides in the editor *)

Module PresentationEditorFacts.
Import PresentationEditor.

#[local] Opaque lit String_of_nat.

Section Slides.
Implicit Types (l : list SlideScaffold.t) (x y : SlideScaffold.t).

Lemma other_id_of_NoDup y l k x :
  NoDup (SlideScaffold.id <$> y :: l) -> l !! k = Some x ->
  SlideScaffold.id y <> SlideScaffold.id x.
Proof.
  rewrite fmap_cons, NoDup_cons. intros [Hy _] Hx Heq. apply Hy.
  rewrite Heq. apply list_elem_of_fmap. exists x. split; [done|].
  by apply list_elem_of_lookup_2 in Hx.
Qed.

Lemma findIndex_from_lookup l k x i :
  NoDup (SlideScaffold.id <$> l) -> l !! k = Some x ->
  findIndex_from (fun s => bool_decide (SlideScaffold.id s = SlideScaffold.id x)) l i
  = (i + Z.of_nat k)%Z.
Proof.
  revert k i. induction l as [|y l IH]; intros k i Hnd Hx; [done|].
  destruct k as [|k]; simpl in *.
  - injection Hx as ->. rewrite bool_decide_eq_true_2 by done. lia.
  - rewrite bool_decide_eq_false_2 by (by eapply other_id_of_NoDup).
    rewrite (IH k) by (by apply NoDup_cons in Hnd as [_ ?]). lia.
Qed.

Lemma findIndex_from_absent l v i :
  v ∉ SlideScaffold.id <$> l ->
  findIndex_from (fun s => bool_decide (SlideScaffold.id s = v)) l i = (-1)%Z.
Proof.
  revert i. induction l as [|y l IH]; intros i Hv; [done|]. simpl.
  rewrite fmap_cons in Hv. apply not_elem_of_cons in Hv as [Hy Hv].
  rewrite bool_decide_eq_false_2 by done. by apply IH.
Qed.

Lemma filter_absent l v :
  v ∉ SlideScaffold.id <$> l -> filter (fun s => SlideScaffold.id s <> v) l = l.
Proof.
  induction l as [|y l IH]; intros Hv; [done|].
  rewrite fmap_cons in Hv. apply not_elem_of_cons in Hv as [Hy Hv].
  rewrite filter_cons_True by done. by rewrite IH.
Qed.

Lemma filter_delete l k x :
  NoDup (SlideScaffold.id <$> l) -> l !! k = Some x ->
  filter (fun s => SlideScaffold.id s <> SlideScaffold.id x) l = delete k l.
Proof.
  revert k. induction l as [|y l IH]; intros k Hnd Hx; [done|].
  destruct k as [|k]; simpl in Hx.
  - injection Hx as ->. rewrite filter_cons_False by (intros H; by apply H).
    apply filter_absent. rewrite fmap_cons in Hnd. by apply NoDup_cons in Hnd as [? _].
  - rewrite filter_cons_True by (by eapply other_id_of_NoDup). simpl.
    rewrite (IH k); [done| |done]. rewrite fmap_cons in Hnd. by apply NoDup_cons in Hnd as [_ ?].
Qed.

Lemma find_lookup l k x :
  NoDup (SlideScaffold.id <$> l) -> l !! k = Some x ->
  find (fun s => bool_decide (SlideScaffold.id s = SlideScaffold.id x)) l = Some x.
Proof.
  revert k. induction l as [|y l IH]; intros k Hnd Hx; [done|].
  destruct k as [|k]; simpl in *.
  - injection Hx as ->. by rewrite bool_decide_eq_true_2.
  - rewrite bool_decide_eq_false_2 by (by eapply other_id_of_NoDup).
    apply (IH k); [|done]. by apply NoDup_cons in Hnd as [_ ?].
Qed.

Lemma find_absent l v :
  v ∉ SlideScaffold.id <$> l ->
  find (fun s => bool_decide (SlideScaffold.id s = v)) l = None.
Proof.
  induction l as [|y l IH]; intros Hv; [done|]. simpl.
  rewrite fmap_cons in Hv. apply not_elem_of_cons in Hv as [Hy Hv].
  rewrite bool_decide_eq_false_2 by done. by apply IH.
Qed.

Lemma find_app_absent l v x :
  v ∉ SlideScaffold.id <$> l -> SlideScaffold.id x = v ->
  find (fun s => bool_decide (SlideScaffold.id s = v)) (l ++ [x]) = Some x.
Proof.
  induction l as [|y l IH]; intros Hv Hx; simpl.
  - by rewrite bool_decide_eq_true_2.
  - rewrite fmap_cons in Hv. apply not_elem_of_cons in Hv as [Hy Hv].
    rewrite bool_decide_eq_false_2 by done. by apply IH.
Qed.

Lemma findIndex_from_app_absent l v x i :
  v ∉ SlideScaffold.id <$> l -> SlideScaffold.id x = v ->
  findIndex_from (fun s => bool_decide (SlideScaffold.id s = v)) (l ++ [x]) i
  = (i + Z.of_nat (length l))%Z.
Proof.
  revert i. induction l as [|y l IH]; intros i Hv Hx; simpl.
  - rewrite bool_decide_eq_true_2 by done. lia.
  - rewrite fmap_cons in Hv. apply not_elem_of_cons in Hv as [Hy Hv].
    rewrite bool_decide_eq_false_2 by done. rewrite IH by done. lia.
Qed.

(** The index [findIndex] returns is -1 or an index of the array. *)
Lemma findIndex_from_range (P : SlideScaffold.t -> bool) l i :
  findIndex_from P l i = (-1)%Z
  \/ (i <= findIndex_from P l i < i + Z.of_nat (length l))%Z.
Proof.
  revert i. induction l as [|y l IH]; intros i; [by left|]. simpl.
  destruct (P y); [right; lia|].
  destruct (IH (i + 1)%Z) as [->|?]; [by left|right; lia].
Qed.

End Slides.

(** [handleDeleteSlide] never throws: when it reads
    [doc.slides[newActiveIndex]] the index is inside the array. *)
Lemma handleDeleteSlide_returns doc activeSlideId slideId :
  exists e, handleDeleteSlide doc activeSlideId slideId = Return e.
Proof.
  unfold handleDeleteSlide.
  destruct (decide (activeSlideId = slideId)); [|by eexists].
  destruct (decide (1 < length (PresentationDocument.slides doc))) as [Hlen|]; [|by eexists].
  match goal with |- context [?l !! ?n] => destruct (lookup_lt_is_Some_2 l n) as [s Hs] end.
  - unfold findIndex.
    match goal with |- context [findIndex_from ?P ?l 0] =>
      destruct (findIndex_from_range P l 0) as [->|?] end; simpl; lia.
  - rewrite Hs. by eexists.
Qed.

(** Deleting the active slide when it is not the first one: the slide
    disappears from the document, everything else stays, and the slide
    just before it becomes the active slide of the next render.  (Slide
    ids are pairwise different, the render is up to date.) *)
Theorem delete_activates_previous (doc : PresentationDocument.t) (k : nat)
    (victim prev : SlideScaffold.t) :
  NoDup (SlideScaffold.id <$> PresentationDocument.slides doc) ->
  PresentationDocument.slides doc !! S k = Some victim ->
  PresentationDocument.slides doc !! k = Some prev ->
  exists e doc',
    handleDeleteSlide doc (SlideScaffold.id victim) (SlideScaffold.id victim) = Return e
    /\ rerender doc (SlideScaffold.id victim) e = Some (doc', SlideScaffold.id prev)
    /\ PresentationDocument.id doc' = PresentationDocument.id doc
    /\ PresentationDocument.title doc' = PresentationDocument.title doc
    /\ PresentationDocument.slides doc' = delete (S k) (PresentationDocument.slides doc)
    /\ activeSlide doc' (SlideScaffold.id prev) = Some prev.
Proof.
  intros Hnd Hvictim Hprev.
  pose proof (lookup_lt_Some _ _ _ Hvictim) as Hlen.
  unfold handleDeleteSlide, findIndex.
  rewrite decide_True by done. rewrite decide_True by lia.
  rewrite (findIndex_from_lookup _ (S k) victim) by done.
  replace (Z.to_nat (Z.max 0 (0 + Z.of_nat (S k) - 1))) with k by lia.
  rewrite Hprev. eexists _, _. split; [done|].
  unfold rerender. simpl. split; [done|]. simpl.
  split; [done|]. split; [done|].
  rewrite (filter_delete _ (S k) victim) by done. split; [done|].
  unfold activeSlide. simpl. apply (find_lookup _ k).
  - rewrite list_fmap_delete. exact (sublist_NoDup _ _ Hnd (sublist_delete _ _)).
  - by rewrite list_lookup_delete_lt by lia.
Qed.

(** Deleting the active slide when it is the first of several: the
    slide disappears from the document, but the id handed to
    [setActiveSlideId] is read from the old array at index 0, which is the
    deleted slide itself; the next render finds no active slide although
    slides remain. *)
Theorem delete_first_leaves_no_active_slide (doc : PresentationDocument.t)
    (victim next : SlideScaffold.t) (rest : list SlideScaffold.t) :
  NoDup (SlideScaffold.id <$> PresentationDocument.slides doc) ->
  PresentationDocument.slides doc = victim :: next :: rest ->
  exists e doc',
    handleDeleteSlide doc (SlideScaffold.id victim) (SlideScaffold.id victim) = Return e
    /\ rerender doc (SlideScaffold.id victim) e = Some (doc', SlideScaffold.id victim)
    /\ PresentationDocument.slides doc' = next :: rest
    /\ activeSlide doc' (SlideScaffold.id victim) = None.
Proof.
  intros Hnd Hslides.
  unfold handleDeleteSlide, findIndex.
  rewrite decide_True by done. rewrite decide_True by (rewrite Hslides; simpl; lia).
  rewrite (findIndex_from_lookup _ 0 victim) by (done || by rewrite Hslides).
  simpl. rewrite Hslides. simpl. eexists _, _. split; [done|].
  unfold rerender. simpl. split; [done|]. simpl.
  rewrite Hslides in Hnd |- *.
  rewrite (filter_delete _ 0 victim) by done. simpl. split; [done|].
  unfold activeSlide. apply (find_absent (next :: rest)).
  rewrite fmap_cons in Hnd. by apply NoDup_cons in Hnd as [? _].
Qed.

(** Adding a slide appends it and makes it the active slide; deleting
    it again restores the document exactly and activates the slide that
    was last before (or none, if there was no slide).  The id drawn for
    the new slide is one no slide of the document has. *)
Theorem add_then_delete_restores (doc : PresentationDocument.t)
    (activeSlideId uuid : jsstring) :
  uuid ∉ SlideScaffold.id <$> PresentationDocument.slides doc ->
  exists doc1 e,
    rerender doc activeSlideId (handleAddSlide uuid doc) = Some (doc1, uuid)
    /\ PresentationDocument.slides doc1
       = PresentationDocument.slides doc ++ [newSlide uuid doc]
    /\ activeSlide doc1 uuid = Some (newSlide uuid doc)
    /\ SlideScaffold.title (newSlide uuid doc)
       = lit "New Slide " ++ String_of_nat (length (PresentationDocument.slides doc) + 1)
    /\ handleDeleteSlide doc1 uuid uuid = Return e
    /\ rerender doc1 uuid e
       = Some (doc, default [] (SlideScaffold.id <$> last (PresentationDocument.slides doc))).
Proof.
  intros Hfresh. destruct doc as [docId title slides]. simpl in *.
  set (new := newSlide uuid (PresentationDocument.mk docId title slides)).
  assert (filter (fun s => SlideScaffold.id s <> uuid) (slides ++ [new]) = slides) as Hfilter.
  { rewrite filter_app, filter_absent by done.
    rewrite filter_cons_False by (intros H; by apply H). apply app_nil_r. }
  exists (PresentationDocument.mk docId title (slides ++ [new])).
  unfold rerender at 1. simpl. fold new.
  destruct (handleDeleteSlide_returns
              (PresentationDocument.mk docId title (slides ++ [new])) uuid uuid) as [e He].
  exists e. split; [done|]. split; [done|].
  split; [by apply find_app_absent|]. split; [done|]. split; [done|].
  revert He. unfold handleDeleteSlide, findIndex. simpl.
  rewrite decide_True by done.
  rewrite (findIndex_from_app_absent slides uuid new) by done.
  rewrite length_app. simpl.
  destruct (decide (1 < length slides + 1)) as [Hlen|Hlen].
  - replace (Z.to_nat (Z.max 0 (0 + Z.of_nat (length slides) - 1)))
      with (pred (length slides)) by lia.
    rewrite lookup_app_l by lia. rewrite <- last_lookup.
    destruct (last slides) as [s|] eqn:Hlast.
    + intros [= <-]. unfold rerender. simpl. by rewrite Hfilter.
    + apply last_None in Hlast. subst slides. simpl in Hlen. lia.
  - intros [= <-]. unfold rerender. simpl. rewrite Hfilter.
    destruct slides; [done|]. simpl in Hlen. lia.
Qed.

End PresentationEditorFacts.

(** ** The magazine preview of a page *)

Module MagazinePreviewFacts.
Import MagazinePreview.

#[local] Opaque lit String_of_nat.

Lemma step_keeps i paragraph images contentElements :
  omap paragraph_of (snd (step i paragraph (images, contentElements)))
  = omap paragraph_of contentElements ++ [paragraph]
  /\ filter (fun src : jsstring => src <> [])
            (omap src_of (snd (step i paragraph (images, contentElements))))
     ++ filter (fun src : jsstring => src <> [])
               (fst (step i paragraph (images, contentElements)))
     = filter (fun src : jsstring => src <> []) (omap src_of contentElements)
       ++ filter (fun src : jsstring => src <> []) images.
Proof.
  unfold step.
  destruct (bool_decide (0 < i) && bool_decide (i mod 2 = 0)
            && bool_decide (0 < length images)).
  - destruct images as [|[|c imgUrl] images]; simpl; rewrite ?omap_app; simpl.
    + by rewrite !app_nil_r.
    + rewrite !app_nil_r. split; [done|].
      by rewrite filter_cons_False by (intros H; by apply H).
    + rewrite !app_nil_r, !filter_app.
      rewrite !filter_cons_True by done. rewrite filter_nil.
      split; [done|]. by rewrite <- app_assoc.
  - simpl. rewrite !omap_app. simpl. by rewrite !app_nil_r.
Qed.

Lemma loop_keeps rest i images contentElements :
  omap paragraph_of (snd (loop rest i (images, contentElements)))
  = omap paragraph_of contentElements ++ rest
  /\ filter (fun src : jsstring => src <> [])
            (omap src_of (snd (loop rest i (images, contentElements))))
     ++ filter (fun src : jsstring => src <> []) (fst (loop rest i (images, contentElements)))
     = filter (fun src : jsstring => src <> []) (omap src_of contentElements)
       ++ filter (fun src : jsstring => src <> []) images.
Proof.
  revert i images contentElements.
  induction rest as [|paragraph rest IH]; intros i images contentElements.
  - simpl. by rewrite app_nil_r.
  - cbn [loop].
    destruct (step_keeps i paragraph images contentElements) as [Hp Hi].
    destruct (step i paragraph (images, contentElements)) as [images1 els1].
    destruct (IH (S i) images1 els1) as [Hp' Hi']. simpl in *.
    rewrite Hp', Hi', Hp, Hi. split; [|done]. by rewrite <- app_assoc.
Qed.

Lemma rest_images (images : list jsstring) (g : nat -> jsstring -> Element) :
  (forall i imgUrl, src_of (g i imgUrl) = Some imgUrl /\ paragraph_of (g i imgUrl) = None) ->
  omap src_of (imap g images) = images /\ omap paragraph_of (imap g images) = [].
Proof.
  revert g. induction images as [|x images IH]; intros g Hg; [done|].
  rewrite imap_cons. simpl.
  destruct (Hg 0 x) as [-> ->].
  destruct (IH (g ∘ S)) as [Hs Hn]; [intros i imgUrl; apply Hg|].
  split; [f_equal; exact Hs | exact Hn].
Qed.

(** The preview of a page shows every line of the page text that is not
    blank, once and in order, as a paragraph; and it shows every image URL
    of the page that is not the empty string, once and in order.  Nothing
    else is turned into a paragraph. *)
Theorem preview_shows_all_paragraphs_and_images (text : jsstring) (images : list jsstring) :
  omap paragraph_of (renderPageContent text images)
  = filter (fun line => Text.trim line <> []) (Text.split Text.line_feed text)
  /\ filter (fun src : jsstring => src <> []) (omap src_of (renderPageContent text images))
     = filter (fun src : jsstring => src <> []) images.
Proof.
  unfold renderPageContent.
  set (paragraphs := filter _ (Text.split Text.line_feed text)).
  destruct (loop_keeps paragraphs 0 images []) as [Hp Hi].
  destruct (loop paragraphs 0 (images, [])) as [images' els]. simpl in *.
  destruct (rest_images images'
              (fun i imgUrl => img (lit "img-rem-" ++ String_of_nat i) imgUrl None))
    as [Hs Hn]; [done|].
  rewrite !omap_app, Hs, Hn, Hp, app_nil_r, filter_app, Hi. done.
Qed.

End MagazinePreviewFacts.

Module EditorSamples.
Import PresentationEditor SlideComponent PresentationWorlds.

Lemma shown_text_keeps_bullets_witness :
  PresentationDocument.slides two_slides !! 0
  = Some (SlideScaffold.mk (lit "a") (lit "First") [lit "x"] None)
  <-> [lit "x"] <> []
      /\ Forall (fun bullet => Text.line_feed ∉ bullet) [lit "x"].
Proof.
  apply (SlideComponentFacts.shown_text_keeps_bullets two_slides two_slides 0
           (SlideScaffold.mk (lit "a") (lit "First") [lit "x"] None)).
  - reflexivity.
  - vm_compute. reflexivity.
Defined.

(** An empty bullet list does not survive the round trip: it comes back
    as one empty bullet. *)
Example empty_bullets_become_one :
  handleContentChange (SlideScaffold.mk (lit "a") (lit "First") [] None)
    (textarea_value (SlideScaffold.mk (lit "a") (lit "First") [] None))
    (Some (PresentationDocument.mk (lit "doc") (lit "Deck")
             [SlideScaffold.mk (lit "a") (lit "First") [] None]))
  = Some (PresentationDocument.mk (lit "doc") (lit "Deck")
            [SlideScaffold.mk (lit "a") (lit "First") [[]] None]).
Proof. vm_compute. reflexivity. Qed.

Lemma two_slides_ids :
  NoDup (SlideScaffold.id <$> PresentationDocument.slides two_slides).
Proof. apply (bool_decide_unpack _). vm_compute. exact I. Qed.

Lemma delete_activates_previous_witness :
  exists e doc',
    handleDeleteSlide two_slides (lit "b") (lit "b") = Return e
    /\ rerender two_slides (lit "b") e = Some (doc', lit "a")
    /\ PresentationDocument.id doc' = lit "doc"
    /\ PresentationDocument.title doc' = lit "Deck"
    /\ PresentationDocument.slides doc'
       = [SlideScaffold.mk (lit "a") (lit "First") [lit "x"] None]
    /\ activeSlide doc' (lit "a")
       = Some (SlideScaffold.mk (lit "a") (lit "First") [lit "x"] None).
Proof.
  apply (PresentationEditorFacts.delete_activates_previous two_slides 0
           (SlideScaffold.mk (lit "b") (lit "Second") [lit "y"]
              (Some (lit "data:image/jpeg;base64,AA")))
           (SlideScaffold.mk (lit "a") (lit "First") [lit "x"] None)).
  - apply two_slides_ids.
  - reflexivity.
  - reflexivity.
Defined.

Lemma delete_first_leaves_no_active_slide_witness :
  exists e doc',
    handleDeleteSlide two_slides (lit "a") (lit "a") = Return e
    /\ rerender two_slides (lit "a") e = Some (doc', lit "a")
    /\ PresentationDocument.slides doc'
       = [SlideScaffold.mk (lit "b") (lit "Second") [lit "y"]
            (Some (lit "data:image/jpeg;base64,AA"))]
    /\ activeSlide doc' (lit "a") = None.
Proof.
  apply (PresentationEditorFacts.delete_first_leaves_no_active_slide two_slides
           (SlideScaffold.mk (lit "a") (lit "First") [lit "x"] None)
           (SlideScaffold.mk (lit "b") (lit "Second") [lit "y"]
              (Some (lit "data:image/jpeg;base64,AA")))
           []).
  - apply two_slides_ids.
  - reflexivity.
Defined.

Lemma add_then_delete_restores_witness :
  exists doc1 e,
    rerender two_slides (lit "a") (handleAddSlide (lit "c") two_slides) = Some (doc1, lit "c")
    /\ PresentationDocument.slides doc1
       = PresentationDocument.slides two_slides ++ [newSlide (lit "c") two_slides]
    /\ activeSlide doc1 (lit "c") = Some (newSlide (lit "c") two_slides)
    /\ SlideScaffold.title (newSlide (lit "c") two_slides) = lit "New Slide 3"
    /\ handleDeleteSlide doc1 (lit "c") (lit "c") = Return e
    /\ rerender doc1 (lit "c") e = Some (two_slides, lit "b").
Proof.
  apply (PresentationEditorFacts.add_then_delete_restores two_slides (lit "a") (lit "c")).
  apply (bool_decide_unpack _). vm_compute. exact I.
Defined.

End EditorSamples.

Module PreviewSamples.
Import MagazinePreview.

(** Five lines, one of them blank, and three images, the second of which
    is the empty string: the first image goes before the third paragraph,
    the empty one is taken and dropped, the third is appended. *)
Example preview_of_five_lines :
  renderPageContent (lit "one" ++ [10] ++ lit "two" ++ [10] ++ lit "  " ++ [10]
                     ++ lit "three" ++ [10] ++ lit "four" ++ [10] ++ lit "five")%N
    [lit "u1"; []; lit "u3"]
  = [ p (lit "p-0") (lit "one"); p (lit "p-1") (lit "two");
      img (lit "img-2") (lit "u1") (Some img_right); p (lit "p-2") (lit "three");
      p (lit "p-3") (lit "four"); p (lit "p-4") (lit "five");
      img (lit "img-rem-0") (lit "u3") None ].
Proof. vm_compute. reflexivity. Qed.

End PreviewSamples.

(** ** The PowerPoint export *)

Module PptxFacts.
Import Pptx.

#[local] Opaque lit String_of_nat.

Section WithLoader.
Variable image_load : jsstring -> option (option jsstring).
Variable uc : FileName.Unicode.

Lemma promise_all_caught (urls : list jsstring) :
  promise_all (map (fun url => catch_null (preloadImageAsBase64 image_load url)) urls)
  = Return (map (fun url => match preloadImageAsBase64 image_load url with
                            | Return x => Some x
                            | Throw _ => None
                            end) urls).
Proof.
  induction urls as [|url urls IH]; [done|]. simpl. rewrite IH.
  by destruct (preloadImageAsBase64 image_load url).
Qed.

Lemma truthy_preloaded (url : jsstring) :
  match (match preloadImageAsBase64 image_load url with
         | Return x => Some x
         | Throw _ => None
         end) with
  | Some ((_ :: _) as data) => Some data
  | _ => None
  end = loaded_data image_load url.
Proof.
  unfold preloadImageAsBase64, loaded_data.
  destruct url as [|c url]; [done|]. simpl.
  by destruct (image_load (c :: url)) as [[[|d dataUrl]|]|].
Qed.

Lemma build_imageMap_lookup (urls : list jsstring) (m : gmap jsstring jsstring) (u : jsstring) :
  build_imageMap urls
    (map (fun url => match preloadImageAsBase64 image_load url with
                     | Return x => Some x
                     | Throw _ => None
                     end) urls) m !! u
  = match (if decide (u ∈ urls) then loaded_data image_load u else None) with
    | Some data => Some data
    | None => m !! u
    end.
Proof.
  revert m. induction urls as [|url urls IH]; intros m; [done|].
  cbn [map build_imageMap].
  rewrite IH. pose proof (truthy_preloaded url) as Hurl.
  destruct (decide (u ∈ urls)) as [Hin|Hnin].
  - rewrite decide_True by (by right).
    destruct (loaded_data image_load u) eqn:Hu; [done|].
    destruct (decide (u = url)) as [->|Hne].
    + rewrite Hu in Hurl.
      by destruct (preloadImageAsBase64 image_load url) as [[|]|].
    + destruct (preloadImageAsBase64 image_load url) as [[|]|]; try done.
      by rewrite lookup_insert_ne.
  - destruct (decide (u = url)) as [->|Hne].
    + rewrite decide_True by (by left).
      destruct (preloadImageAsBase64 image_load url) as [[|c d]|]; simpl in Hurl;
        rewrite <- Hurl; try done.
      by rewrite lookup_insert_eq.
    + rewrite decide_False by (intros [?|?]%elem_of_cons; done).
      destruct (preloadImageAsBase64 image_load url) as [[|]|]; try done.
      by rewrite lookup_insert_ne.
Qed.

(** The export always completes, whatever happens to the images: the
    deck has the title slide and one content slide per slide of the
    document, in order, each with that slide's title and bullets; a content
    slide carries an image exactly when the slide's [imageUrl] is a
    non-empty string that loads into a non-empty data URL, and the image
    is that data; the file is named after the title. *)
Theorem export_has_every_slide (doc : PresentationDocument.t) :
  exists out,
    createPresentation image_load uc doc = Return out
    /\ titleSlide out = PresentationDocument.title doc
    /\ fileName out = FileName.pptx_fileName uc (PresentationDocument.title doc)
    /\ length (contentSlides out) = length (PresentationDocument.slides doc)
    /\ forall i slide,
         PresentationDocument.slides doc !! i = Some slide ->
         contentSlides out !! i
         = Some {| title_text := SlideScaffold.title slide;
                   body_text := SlideScaffold.content slide;
                   bullet := true;
                   image_data := SlideScaffold.imageUrl slide ≫= loaded_data image_load |}.
Proof.
  unfold createPresentation. rewrite promise_all_caught.
  eexists. split; [done|]. simpl.
  split; [done|]. split; [done|]. split; [by rewrite length_map|].
  intros i slide Hslide.
  rewrite UpdateFacts.map_is_fmap, list_lookup_fmap, Hslide. simpl.
  unfold content_slide. do 2 f_equal.
  destruct (SlideScaffold.imageUrl slide) as [[|c url]|] eqn:Hurl; try done.
  rewrite build_imageMap_lookup, lookup_empty.
  rewrite decide_True; [simpl; by destruct (image_load (c :: url)) as [[[|]|]|]|].
  apply list_elem_of_omap. exists slide. split.
  - by apply list_elem_of_lookup_2 in Hslide.
  - by rewrite Hurl.
Qed.

End WithLoader.

End PptxFacts.

(** ** The layout of the PDF *)

Module PdfLayoutFacts.
Import Pdf PdfLayout.
Local Open Scope Q_scope.

#[local] Opaque lit String_of_nat.

Lemma Q_of_nat_nonneg n : 0 <= Q_of_nat n.
Proof. unfold Q_of_nat. change 0 with (inject_Z 0). rewrite <- Zle_Qle. lia. Qed.

Lemma gtb_false a b : gtb a b = false -> a <= b.
Proof.
  unfold gtb. intros H. apply negb_false_iff in H. by apply Qle_bool_iff.
Qed.

Lemma foldl_cons {A B} (f : A -> B -> A) a x l : foldl f a (x :: l) = foldl f (f a x) l.
Proof. reflexivity. Qed.

Section WithEnv.
Variable env : Env.
Variable uc : FileName.Unicode.

Lemma line_item_weaken lo hi lo' hi' o :
  (lo' <= lo)%nat -> (hi <= hi')%nat -> line_item env lo hi o -> line_item env lo' hi' o.
Proof. unfold line_item. intros ? ? (? & ? & ? & ?). repeat split; try done; lia. Qed.

Lemma body_item_weaken imageMap page lo hi lo' hi' o :
  (lo' <= lo)%nat -> (hi <= hi')%nat ->
  body_item env imageMap page lo hi o -> body_item env imageMap page lo' hi' o.
Proof.
  unfold body_item, line_item, image_item.
  intros ? ? [(? & ? & ? & ?)|(? & ? & ? & ? & ?)]; [left|right]; repeat split; try done; lia.
Qed.

(** One text line: one more item, on the last page. *)
Lemma draw_line_more line yPos d :
  margin <= yPos ->
  exists o,
    drawn (snd (draw_line env line (yPos, d))) = drawn d ++ [o]
    /\ (pages d <= pages (snd (draw_line env line (yPos, d))))%nat
    /\ margin <= fst (draw_line env line (yPos, d))
    /\ line_item env (pages d) (pages (snd (draw_line env line (yPos, d)))) o.
Proof.
  intros Hy. unfold draw_line, line_item.
  destruct (gtb yPos (pageH env - margin)) eqn:Hgt; simpl.
  - eexists. split; [done|]. simpl.
    repeat split; try done; try lia; try (by right); unfold margin; lra.
  - apply gtb_false in Hgt.
    eexists. split; [done|]. simpl.
    repeat split; try done; try lia; try (by left); lra.
Qed.

Lemma draw_lines_more lines yPos d :
  margin <= yPos ->
  exists more,
    drawn (snd (foldl (fun st line => draw_line env line st) (yPos, d) lines))
    = drawn d ++ more
    /\ (pages d <= pages (snd (foldl (fun st line => draw_line env line st) (yPos, d) lines)))%nat
    /\ margin <= fst (foldl (fun st line => draw_line env line st) (yPos, d) lines)
    /\ Forall (line_item env (pages d)
                 (pages (snd (foldl (fun st line => draw_line env line st) (yPos, d) lines))))
              more.
Proof.
  revert yPos d. induction lines as [|line lines IH]; intros yPos d Hy.
  - exists []. simpl. rewrite app_nil_r. repeat split; try done.
  - rewrite foldl_cons.
    destruct (draw_line_more line yPos d Hy) as (o & Hdrawn & Hpages & Hy1 & Ho).
    destruct (draw_line env line (yPos, d)) as [y1 d1]. simpl in *.
    destruct (IH y1 d1 Hy1) as (more & Hdrawn' & Hpages' & Hy2 & Hmore).
    exists (o :: more). rewrite Hdrawn', Hdrawn, <- app_assoc. split; [done|].
    split; [lia|]. split; [done|]. constructor.
    + eapply line_item_weaken; [| |exact Ho]; lia.
    + eapply Forall_impl; [exact Hmore|]. intros o' Ho'.
      eapply line_item_weaken; [| |exact Ho']; lia.
Qed.

(** One story page: its image, if the map holds one, then its lines. *)
Lemma draw_page_more imageMap page yPos d :
  margin <= yPos ->
  exists more,
    drawn (snd (draw_page env imageMap page (yPos, d))) = drawn d ++ more
    /\ (pages d <= pages (snd (draw_page env imageMap page (yPos, d))))%nat
    /\ margin <= fst (draw_page env imageMap page (yPos, d))
    /\ Forall (body_item env imageMap page (pages d)
                 (pages (snd (draw_page env imageMap page (yPos, d)))))
              more.
Proof.
  intros Hy. unfold draw_page.
  destruct (base64Image_of imageMap page) as [base64Image|] eqn:Himg.
  - destruct (gtb (yPos + 150) (pageH env - margin)) eqn:Hgt.
    + match goal with |- context [foldl ?f (?y1, ?d1) ?lines] =>
        destruct (draw_lines_more lines y1 d1) as (more & Hdrawn & Hpages & Hy2 & Hmore);
          [unfold margin; lra|];
        destruct (foldl f (y1, d1) lines) as [y2 d2]
      end.
      simpl in *. eexists (_ :: more). rewrite Hdrawn, <- app_assoc.
      split; [done|]. split; [lia|]. split; [lra|]. constructor.
      * right. unfold image_item. simpl. split; [lia|]. split; [done|].
        split; [by eexists|]. split; [unfold margin; lra|by right].
      * eapply Forall_impl; [exact Hmore|]. intros o Ho. left.
        eapply line_item_weaken; [| |exact Ho]; lia.
    + apply gtb_false in Hgt.
      match goal with |- context [foldl ?f (?y1, ?d1) ?lines] =>
        destruct (draw_lines_more lines y1 d1) as (more & Hdrawn & Hpages & Hy2 & Hmore);
          [lra|];
        destruct (foldl f (y1, d1) lines) as [y2 d2]
      end.
      simpl in *. eexists (_ :: more). rewrite Hdrawn, <- app_assoc.
      split; [done|]. split; [lia|]. split; [lra|]. constructor.
      * right. unfold image_item. simpl. split; [lia|]. split; [done|].
        split; [by eexists|]. split; [done|by left].
      * eapply Forall_impl; [exact Hmore|]. intros o Ho. left.
        eapply line_item_weaken; [| |exact Ho]; lia.
  - match goal with |- context [foldl ?f (?y1, ?d1) ?lines] =>
      destruct (draw_lines_more lines y1 d1) as (more & Hdrawn & Hpages & Hy2 & Hmore);
        [done|];
      destruct (foldl f (y1, d1) lines) as [y2 d2]
    end.
    simpl in *. exists more. split; [done|]. split; [lia|]. split; [lra|].
    eapply Forall_impl; [exact Hmore|]. intros o Ho. by left.
Qed.

(** The pages of one chapter. *)
Lemma draw_pages_more imageMap pgs yPos d :
  margin <= yPos ->
  exists more,
    drawn (snd (foldl (fun st page => draw_page env imageMap page st) (yPos, d) pgs))
    = drawn d ++ more
    /\ (pages d
        <= pages (snd (foldl (fun st page => draw_page env imageMap page st) (yPos, d) pgs)))%nat
    /\ margin <= fst (foldl (fun st page => draw_page env imageMap page st) (yPos, d) pgs)
    /\ Forall (fun o => exists page, page ∈ pgs
                 /\ body_item env imageMap page (pages d)
                      (pages (snd (foldl (fun st page => draw_page env imageMap page st)
                                         (yPos, d) pgs))) o)
              more.
Proof.
  revert yPos d. induction pgs as [|page pgs IH]; intros yPos d Hy.
  - exists []. simpl. rewrite app_nil_r. repeat split; try done.
  - rewrite foldl_cons.
    destruct (draw_page_more imageMap page yPos d Hy) as (more1 & Hdrawn & Hpages & Hy1 & Hmore1).
    destruct (draw_page env imageMap page (yPos, d)) as [y1 d1]. simpl in *.
    destruct (IH y1 d1 Hy1) as (more & Hdrawn' & Hpages' & Hy2 & Hmore).
    exists (more1 ++ more). rewrite Hdrawn', Hdrawn, <- app_assoc. split; [done|].
    split; [lia|]. split; [done|]. apply Forall_app. split.
    + eapply Forall_impl; [exact Hmore1|]. intros o Ho. exists page. split; [by left|].
      eapply body_item_weaken; [| |exact Ho]; lia.
    + eapply Forall_impl; [exact Hmore|]. intros o (page' & Hin & Ho). exists page'.
      split; [by right|]. eapply body_item_weaken; [| |exact Ho]; lia.
Qed.

(** The chapters: every chapter adds a page and draws its title there
    first. *)
Lemma draw_chapters_more imageMap chapters k yPos d :
  Forall (fun o => (on_page o <= pages d)%nat
                   /\ forall j, what o = ChapterTitle j -> (j < k)%nat) (drawn d) ->
  exists more,
    drawn (snd (draw_chapters env imageMap chapters k yPos d)) = drawn d ++ more
    /\ (pages d + length chapters
        <= pages (snd (draw_chapters env imageMap chapters k yPos d)))%nat
    /\ Forall (fun o => (on_page o <= pages (snd (draw_chapters env imageMap chapters k yPos d)))%nat
                        /\ forall j, what o = ChapterTitle j -> (j < k + length chapters)%nat)
              (drawn (snd (draw_chapters env imageMap chapters k yPos d)))
    /\ Forall (fun o => (exists j, what o = ChapterTitle j)
                        \/ exists chapter page,
                             chapter ∈ chapters /\ page ∈ ChapterScaffold.pages chapter
                             /\ body_item env imageMap page (pages d)
                                  (pages (snd (draw_chapters env imageMap chapters k yPos d))) o)
              more
    /\ forall i, (i < length chapters)%nat ->
         exists pg,
           title_on_fresh_page (drawn (snd (draw_chapters env imageMap chapters k yPos d)))
             (k + i) pg
           /\ (pages d + 1 + i <= pg)%nat
           /\ (i = 0%nat -> pg = S (pages d)).
Proof.
  revert k yPos d. induction chapters as [|chapter chapters IH]; intros k yPos d Hd.
  - exists []. simpl. rewrite app_nil_r, !Nat.add_0_r.
    split; [done|]. split; [done|]. split; [done|]. split; [done|]. intros i Hi. lia.
  - cbn [draw_chapters].
    set (titleLines := splitTextToSize env 20 bold (ChapterScaffold.title chapter)
                         (contentWidth env)).
    set (d2 := draw (ChapterTitle k) titleLines margin (addPage d)).
    destruct (draw_pages_more imageMap (ChapterScaffold.pages chapter)
                (margin + (Q_of_nat (length titleLines) * 20 + 20)) d2)
      as (more1 & Hdrawn1 & Hpages1 & _ & Hmore1).
    { pose proof (Q_of_nat_nonneg (length titleLines)). nra. }
    destruct (foldl _ (margin + (Q_of_nat (length titleLines) * 20 + 20), d2)
                (ChapterScaffold.pages chapter)) as [y3 d3].
    simpl in Hdrawn1, Hpages1, Hmore1.
    destruct (IH (S k) y3 d3) as (more2 & Hdrawn2 & Hpages2 & Hall2 & Hmore2 & Htitles2).
    { rewrite Hdrawn1. rewrite !Forall_app. split; [split|].
      - eapply Forall_impl; [exact Hd|]. intros o [Ho Hj]. split; [lia|].
        intros j Hw. specialize (Hj j Hw). lia.
      - constructor; [|constructor]. simpl. split; [lia|]. intros j [= <-]. lia.
      - eapply Forall_impl; [exact Hmore1|]. intros o (page & _ & Ho).
        destruct Ho as [(Hp & Hw & _)|(Hp & Hw & _)]; (split; [lia|]);
          intros j Hj; rewrite Hw in Hj; discriminate Hj. }
    set (r := draw_chapters env imageMap chapters (S k) y3 d3) in *.
    exists (mkDrawn (S (pages d)) (ChapterTitle k) titleLines margin :: more1 ++ more2).
    split; [rewrite Hdrawn2, Hdrawn1; simpl; by rewrite <- !app_assoc|].
    simpl in Hpages1. simpl. split; [lia|]. split.
    { eapply Forall_impl; [exact Hall2|]. intros o [Ho Hj]. split; [done|].
      intros j Hw. specialize (Hj j Hw). lia. }
    split.
    { constructor; [left; by eexists|]. apply Forall_app. split.
      - eapply Forall_impl; [exact Hmore1|]. intros o (page & Hin & Ho). right.
        exists chapter, page. split; [by left|]. split; [done|].
        eapply body_item_weaken; [| |exact Ho]; simpl; lia.
      - eapply Forall_impl; [exact Hmore2|]. intros o [Ho|(c & page & Hc & Hin & Ho)];
          [by left|right].
        exists c, page. split; [by right|]. split; [done|].
        eapply body_item_weaken; [| |exact Ho]; simpl; lia. }
    intros [|i] Hi.
    + exists (S (pages d)). split; [|split; [lia|done]].
      exists (drawn d), (mkDrawn (S (pages d)) (ChapterTitle k) titleLines margin),
        (more1 ++ more2).
      split; [rewrite Hdrawn2, Hdrawn1; simpl; by rewrite <- !app_assoc|].
      split; [simpl; by rewrite Nat.add_0_r|]. split; [done|].
      eapply Forall_impl; [exact Hd|]. intros o [Ho Hj]. split; [lia|].
      intros j Hw. rewrite Nat.add_0_r. by apply Hj.
    + destruct (Htitles2 i) as (pg & Hfresh & Hpg & _); [simpl in Hi; lia|].
      exists pg. split; [|split; [simpl in *; lia|done]].
      by rewrite Nat.add_succ_r.
Qed.

Lemma Q_of_nat_S n : Q_of_nat (S n) == Q_of_nat n + 1.
Proof.
  unfold Q_of_nat. rewrite Nat2Z.inj_succ. unfold Z.succ. by rewrite inject_Z_plus.
Qed.

(** The entries of the table of contents: all on the current page, 20
    points apart. *)
Lemma draw_toc_more entries k yPos d :
  exists more,
    drawn (snd (draw_toc entries k yPos d)) = drawn d ++ more
    /\ pages (snd (draw_toc entries k yPos d)) = pages d
    /\ Forall (fun o => on_page o = pages d
                        /\ exists i, (i < length entries)%nat
                             /\ is_toc_entry (k + i) o
                             /\ y o == yPos + 20 * Q_of_nat i) more.
Proof.
  revert k yPos d. induction entries as [|entry entries IH]; intros k yPos d.
  - exists []. simpl. by rewrite app_nil_r.
  - cbn [draw_toc].
    destruct (IH (S k) (yPos + 20)
                (draw (TocEntryPage k) [String_of_nat (toc_page entry)] yPos
                   (draw (TocEntryTitle k) [toc_title entry] yPos d)))
      as (more & Hdrawn & Hpages & Hmore).
    eexists (_ :: _ :: more). rewrite Hdrawn, Hpages. simpl.
    rewrite <- !app_assoc. split; [done|]. split; [done|].
    constructor; [|constructor].
    + simpl. split; [done|]. exists 0%nat. split; [lia|]. rewrite Nat.add_0_r.
      split; [by left|]. change (Q_of_nat 0) with 0. lra.
    + simpl. split; [done|]. exists 0%nat. split; [lia|]. rewrite Nat.add_0_r.
      split; [by right|]. change (Q_of_nat 0) with 0. lra.
    + eapply Forall_impl; [exact Hmore|]. simpl. intros o (Hp & i & Hi & Hw & Hy).
      split; [done|]. exists (S i). split; [lia|]. rewrite Nat.add_succ_r.
      split; [done|]. rewrite Hy, Q_of_nat_S. lra.
Qed.

(** The dry run never lowers the page counter. *)
Lemma dry_pages_counter imageMap fontSize style pgs yPos pageCounter :
  (pageCounter
   <= snd (foldl (fun st page => dry_page env imageMap fontSize style page st)
                 (yPos, pageCounter) pgs))%nat.
Proof.
  revert yPos pageCounter. induction pgs as [|page pgs IH]; intros yPos pageCounter; [done|].
  rewrite foldl_cons. unfold dry_page at 2.
  match goal with |- context [if ?b then _ else _] => destruct b end.
  - etransitivity; [|apply IH]. lia.
  - apply IH.
Qed.

(** The dry run: one entry per chapter, in order, with page numbers that
    start at the counter and grow strictly; the cursor it leaves behind is
    that of the last chapter. *)
Lemma dry_run_entries imageMap fontSize style chapters toc yPos pageCounter :
  exists ents yPos' pageCounter',
    dry_run env imageMap fontSize style chapters toc yPos pageCounter
    = (toc ++ ents, yPos', pageCounter')
    /\ length ents = length chapters
    /\ (pageCounter + length chapters <= pageCounter')%nat
    /\ (forall i chapter,
          chapters !! i = Some chapter ->
          exists e, ents !! i = Some e
            /\ toc_title e = ChapterScaffold.title chapter
            /\ (pageCounter + i <= toc_page e < pageCounter')%nat
            /\ (i = 0%nat -> toc_page e = pageCounter))
    /\ (forall i j ei ej,
          (i < j)%nat -> ents !! i = Some ei -> ents !! j = Some ej ->
          (toc_page ei < toc_page ej)%nat)
    /\ (chapters = [] -> yPos' = yPos)
    /\ (forall front c,
          chapters = front ++ [c] -> ChapterScaffold.pages c = [] -> yPos' = margin + 30).
Proof.
  revert toc yPos pageCounter.
  induction chapters as [|chapter chapters IH]; intros toc yPos pageCounter.
  - exists [], yPos, pageCounter. simpl. rewrite app_nil_r, Nat.add_0_r.
    repeat split; try done.
    intros front c Hnil. by destruct front.
  - cbn [dry_run].
    pose proof (dry_pages_counter imageMap fontSize style (ChapterScaffold.pages chapter)
                  (margin + 30) pageCounter) as Hcount.
    destruct (foldl _ (margin + 30, pageCounter) (ChapterScaffold.pages chapter))
      as [y1 pc1] eqn:Hfold.
    simpl in Hcount.
    destruct (IH (toc ++ [mkToc (ChapterScaffold.title chapter) pageCounter]) y1 (S pc1))
      as (ents & y' & pc' & Hrun & Hlen & Hpc & Hents & Hincr & Hnil & Hlast).
    exists (mkToc (ChapterScaffold.title chapter) pageCounter :: ents), y', pc'.
    rewrite Hrun, <- app_assoc. split; [done|]. split; [simpl; lia|].
    split; [simpl; lia|]. split; [|split; [|split; [done|]]].
    + intros [|i] c Hc; simpl in Hc.
      * injection Hc as <-. eexists. split; [done|]. simpl. split; [done|].
        split; [lia|done].
      * destruct (Hents i c Hc) as (e & He & Ht & Hp & _).
        exists e. split; [done|]. split; [done|]. split; [lia|done].
    + intros i j ei ej Hij Hi Hj. destruct j as [|j]; [lia|]. simpl in Hj.
      destruct i as [|i]; simpl in Hi.
      * injection Hi as <-. simpl.
        pose proof (lookup_lt_Some _ _ _ Hj) as Hjlen. rewrite Hlen in Hjlen.
        destruct (lookup_lt_is_Some_2 chapters j Hjlen) as [c Hc].
        destruct (Hents j c Hc) as (e & He & _ & Hp & _).
        rewrite Hj in He. injection He as <-. lia.
      * apply (Hincr i j); [lia|done|done].
    + intros front c Hfront Hpages.
      destruct front as [|c0 front]; simpl in Hfront.
      * injection Hfront as -> ->. rewrite Hpages in Hfold. simpl in Hfold.
        injection Hfold as <- <-. by apply Hnil.
      * injection Hfront as -> ->. by eapply Hlast.
Qed.

(** What the map holds was loaded from a [data:image] URL. *)
Lemma preload_all_Return urls preloaded :
  preload_all env urls = Return preloaded ->
  Forall2 (fun url p => preloadImageAsBase64 env url = Return p) urls preloaded.
Proof.
  revert preloaded. induction urls as [|url urls IH]; intros preloaded Hall; simpl in Hall.
  - injection Hall as <-. constructor.
  - destruct (preloadImageAsBase64 env url) as [x|e] eqn:Hurl; [|discriminate Hall].
    destruct (preload_all env urls) as [xs|e]; [|discriminate Hall].
    injection Hall as <-. constructor; [done|]. by apply IH.
Qed.

Lemma pdf_imageMap_lookup urls preloaded imageMap url data :
  Forall2 (fun url p => preloadImageAsBase64 env url = Return p) urls preloaded ->
  build_imageMap urls preloaded imageMap !! url = Some data ->
  imageMap !! url = Some data
  \/ (url ∈ urls /\ preloadImageAsBase64 env url = Return data /\ data <> []).
Proof.
  intros Hall. revert imageMap.
  induction Hall as [|u p urls preloaded Hu Hall IH]; intros imageMap Hlookup; [by left|].
  cbn [build_imageMap] in Hlookup. apply IH in Hlookup as [Hlookup|(Hin & Hp & Hne)].
  - destruct p as [|c p]; [by left|].
    destruct (decide (u = url)) as [->|Hother].
    + rewrite lookup_insert_eq in Hlookup. injection Hlookup as <-.
      right. split; [by left|]. split; done.
    + rewrite lookup_insert_ne in Hlookup by done. by left.
  - right. split; [by right|]. done.
Qed.

Lemma preloaded_from_data_url url data :
  preloadImageAsBase64 env url = Return data -> data <> [] ->
  startsWith url (lit "data:image") = true /\ image_load env url = Some (Some data).
Proof.
  unfold preloadImageAsBase64. intros Hp Hne.
  destruct (bool_decide (url = []) || negb (startsWith url (lit "data:image"))) eqn:Htest.
  - by injection Hp as <-.
  - apply orb_false_iff in Htest as [_ Hstarts]. apply negb_false_iff in Hstarts.
    split; [done|].
    destruct (image_load env url) as [[dataUrl|]|]; try discriminate Hp.
    + by injection Hp as ->.
    + by injection Hp as <-.
Qed.

(** What a completed export consists of. *)
Lemma createPdf_Return doc out :
  createPdf env uc doc = Return out ->
  exists preloaded d0 yPos pageCounter,
    let urls := flat_map (fun c => flat_map PageScaffold.images (ChapterScaffold.pages c))
                         (StoryDocument.chapters doc) in
    let imageMap := build_imageMap urls preloaded ∅ in
    preload_all env urls = Return preloaded
    /\ pages d0 = 2%nat
    /\ Forall (fun o => (on_page o <= 2)%nat
                        /\ (what o = CoverTitle \/ what o = CoverSubtitle \/ what o = TocHeading))
              (drawn d0)
    /\ dry_run env imageMap 24 bold (StoryDocument.chapters doc) [] (margin + 40) 3
       = (tocEntries out, yPos, pageCounter)
    /\ pdf out
       = snd (draw_chapters env imageMap (StoryDocument.chapters doc) 0
                (fst (draw_toc (tocEntries out) 0 yPos d0))
                (snd (draw_toc (tocEntries out) 0 yPos d0)))
    /\ fileName out = FileName.pdf_fileName uc (StoryDocument.title doc).
Proof.
  unfold createPdf. intros Hrun.
  destruct (preload_all env _) as [preloaded|e] eqn:Hpre; [|discriminate Hrun].
  destruct (dry_run env _ 24 bold _ [] _ 3) as [[toc yPos] pageCounter] eqn:Hdry.
  match type of Hrun with context [draw_toc toc 0 yPos ?d0] =>
    exists preloaded, d0, yPos, pageCounter; destruct (draw_toc toc 0 yPos d0) as [y1 d1] eqn:Htoc
  end.
  destruct (draw_chapters env _ _ 0 y1 d1) as [y2 d2] eqn:Hch.
  injection Hrun as <-. simpl. split; [done|]. split; [done|].
  split; [repeat (constructor; [simpl; split; [lia|auto]|]); constructor|].
  split; [done|]. split; [|done]. rewrite Htoc. simpl. by rewrite Hch.
Qed.

(** The parts of a finished PDF: the cover and the heading of the table
    of contents, the entries of the table, and the chapters. *)
Lemma createPdf_anatomy doc out :
  createPdf env uc doc = Return out ->
  exists imageMap yPos pageCounter cover tocItems body,
    (forall url data,
       imageMap !! url = Some data ->
       startsWith url (lit "data:image") = true
       /\ image_load env url = Some (Some data) /\ data <> [])
    /\ dry_run env imageMap 24 bold (StoryDocument.chapters doc) [] (margin + 40) 3
       = (tocEntries out, yPos, pageCounter)
    /\ drawn (pdf out) = cover ++ tocItems ++ body
    /\ Forall (fun o => what o = CoverTitle \/ what o = CoverSubtitle \/ what o = TocHeading)
              cover
    /\ Forall (fun o => on_page o = 2%nat
                        /\ exists i, is_toc_entry i o /\ y o == yPos + 20 * Q_of_nat i)
              tocItems
    /\ Forall (fun o => (exists j, what o = ChapterTitle j)
                        \/ exists chapter page,
                             chapter ∈ StoryDocument.chapters doc
                             /\ page ∈ ChapterScaffold.pages chapter
                             /\ body_item env imageMap page 2 (pages (pdf out)) o)
              body
    /\ (2 + length (StoryDocument.chapters doc) <= pages (pdf out))%nat
    /\ forall i, (i < length (StoryDocument.chapters doc))%nat ->
         exists pg,
           title_on_fresh_page (drawn (pdf out)) i pg
           /\ (3 + i <= pg)%nat
           /\ (i = 0%nat -> pg = 3%nat).
Proof.
  intros Hrun.
  destruct (createPdf_Return doc out Hrun)
    as (preloaded & d0 & yPos & pageCounter & Hpre & Hpages0 & Hcover & Hdry & Hpdf & _).
  simpl in *.
  set (urls := flat_map (fun c => flat_map PageScaffold.images (ChapterScaffold.pages c))
                        (StoryDocument.chapters doc)) in *.
  set (imageMap := build_imageMap urls preloaded ∅) in *.
  destruct (draw_toc_more (tocEntries out) 0 yPos d0) as (tocItems & Hdrawn1 & Hpages1 & Htoc).
  destruct (draw_toc (tocEntries out) 0 yPos d0) as [y1 d1]. simpl in *.
  destruct (draw_chapters_more imageMap (StoryDocument.chapters doc) 0 y1 d1)
    as (body & Hdrawn2 & Hpages2 & _ & Hbody & Htitles).
  { rewrite Hdrawn1. apply Forall_app. split.
    - eapply Forall_impl; [exact Hcover|]. intros o [Hp Hw]. split; [lia|].
      intros j Hj. rewrite Hj in Hw. by destruct Hw as [|[|]].
    - eapply Forall_impl; [exact Htoc|]. intros o (Hp & i & _ & [Hw|Hw] & _);
        (split; [lia|]); intros j Hj; rewrite Hj in Hw; discriminate Hw. }
  rewrite <- Hpdf in *.
  exists imageMap, yPos, pageCounter, (drawn d0), tocItems, body.
  split.
  { intros url data Hlookup.
    apply (pdf_imageMap_lookup urls preloaded) in Hlookup as [Hlookup|(_ & Hp & Hne)];
      [by rewrite lookup_empty in Hlookup | | by apply preload_all_Return].
    destruct (preloaded_from_data_url url data Hp Hne). done. }
  split; [done|]. split; [by rewrite Hdrawn2, Hdrawn1, <- app_assoc|].
  split; [eapply Forall_impl; [exact Hcover|]; by intros o [_ ?]|].
  split.
  { eapply Forall_impl; [exact Htoc|]. intros o (Hp & i & _ & Hw & Hy).
    split; [lia|]. by exists i. }
  split.
  { eapply Forall_impl; [exact Hbody|]. intros o [Ho|(c & page & Hc & Hin & Ho)];
      [by left|right].
    exists c, page. split; [done|]. split; [done|].
    eapply body_item_weaken; [| |exact Ho]; lia. }
  split; [lia|].
  intros i Hi. destruct (Htitles i Hi) as (pg & Hfresh & Hpg & Hfirst).
  exists pg. split; [done|]. split; [lia|]. intros ->. rewrite Hfirst by done. lia.
Qed.

(** The table of contents lists every chapter once, in order and under
    its title; the page numbers it prints start at 3 and grow strictly
    from one chapter to the next. *)
Theorem toc_lists_every_chapter (doc : StoryDocument.t) (out : Output) :
  createPdf env uc doc = Return out ->
  length (tocEntries out) = length (StoryDocument.chapters doc)
  /\ forall k chapter,
       StoryDocument.chapters doc !! k = Some chapter ->
       exists entry,
         tocEntries out !! k = Some entry
         /\ toc_title entry = ChapterScaffold.title chapter
         /\ (3 + k <= toc_page entry)%nat
         /\ (k = 0%nat -> toc_page entry = 3%nat)
         /\ forall k' entry',
              (k < k')%nat -> tocEntries out !! k' = Some entry' ->
              (toc_page entry < toc_page entry')%nat.
Proof.
  intros Hrun.
  destruct (createPdf_anatomy doc out Hrun)
    as (imageMap & yPos & pageCounter & cover & tocItems & body & _ & Hdry & _).
  destruct (dry_run_entries imageMap 24 bold (StoryDocument.chapters doc) [] (margin + 40) 3)
    as (ents & y' & pc' & Hrun' & Hlen & _ & Hents & Hincr & _).
  rewrite Hdry in Hrun'. simpl in Hrun'. injection Hrun' as -> _ _.
  split; [done|]. intros k chapter Hk.
  destruct (Hents k chapter Hk) as (e & He & Ht & Hp & Hfirst).
  exists e. split; [done|]. split; [done|]. split; [lia|]. split; [done|].
  intros k' e' Hlt He'. by apply (Hincr k k').
Qed.

Lemma fresh_pages_increase (items : list Drawn) j j' pg pg' :
  (j < j')%nat ->
  title_on_fresh_page items j pg -> title_on_fresh_page items j' pg' -> (pg < pg')%nat.
Proof.
  intros Hlt (pre & t & post & Hitems & Hw & Hp & Hpre)
    (pre' & t' & post' & Hitems' & Hw' & Hp' & Hpre').
  destruct (Nat.lt_trichotomy (length pre) (length pre')) as [Hlen|[Hlen|Hlen]].
  - assert (pre' !! length pre = Some t) as Hin.
    { rewrite <- (lookup_app_l pre' (t' :: post')) by done.
      rewrite <- Hitems', Hitems. apply list_lookup_middle. done. }
    rewrite Forall_lookup in Hpre'. destruct (Hpre' _ _ Hin) as [? _]. lia.
  - assert (Some t = Some t') as Heq.
    { rewrite <- (list_lookup_middle pre post t (length pre)) by done.
      rewrite <- Hitems, Hitems'. by apply list_lookup_middle. }
    injection Heq as ->. rewrite Hw in Hw'. injection Hw' as ->. lia.
  - assert (pre !! length pre' = Some t') as Hin.
    { rewrite <- (lookup_app_l pre (t :: post)) by done.
      rewrite <- Hitems, Hitems'. apply list_lookup_middle. done. }
    rewrite Forall_lookup in Hpre. destruct (Hpre _ _ Hin) as [_ Hj].
    specialize (Hj j' Hw'). lia.
Qed.

Lemma fresh_page_title (out : Output) j pg :
  title_on_fresh_page (drawn (pdf out)) j pg ->
  title_page out j = Some pg /\ first_on_page out pg = Some (ChapterTitle j).
Proof.
  intros (pre & t & post & Hitems & Hw & Hp & Hpre).
  unfold title_page, first_on_page. rewrite Hitems, !filter_app.
  assert (filter (fun o => what o = ChapterTitle j) pre = []) as ->.
  { clear Hitems. induction Hpre as [|o pre [_ Ho] Hpre IH]; [done|].
    rewrite filter_cons_False; [done|]. intros Hj. specialize (Ho j Hj). lia. }
  assert (filter (fun o => on_page o = pg) pre = []) as ->.
  { clear Hitems. induction Hpre as [|o pre [Ho _] Hpre IH]; [done|].
    rewrite filter_cons_False; [done|]. lia. }
  rewrite !filter_cons_True by done. simpl. by rewrite Hp, Hw.
Qed.

(** Every chapter starts on a page of its own: its title is the first
    thing drawn on its page, the first chapter starts on page 3, chapter
    [k] not before page [3 + k], and a later chapter starts on a later
    page. *)
Theorem chapters_start_on_fresh_pages (doc : StoryDocument.t) (out : Output) :
  createPdf env uc doc = Return out ->
  (2 + length (StoryDocument.chapters doc) <= pages (pdf out))%nat
  /\ forall k,
       (k < length (StoryDocument.chapters doc))%nat ->
       exists pg,
         title_page out k = Some pg
         /\ first_on_page out pg = Some (ChapterTitle k)
         /\ (3 + k <= pg)%nat
         /\ (k = 0%nat -> pg = 3%nat)
         /\ forall k' pg',
              (k < k' < length (StoryDocument.chapters doc))%nat ->
              title_page out k' = Some pg' -> (pg < pg')%nat.
Proof.
  intros Hrun.
  destruct (createPdf_anatomy doc out Hrun)
    as (imageMap & yPos & pageCounter & cover & tocItems & body
        & _ & _ & _ & _ & _ & _ & Hpages & Htitles).
  split; [done|]. intros k Hk.
  destruct (Htitles k Hk) as (pg & Hfresh & Hpg & Hfirst).
  destruct (fresh_page_title out k pg Hfresh) as [Htitle Hhead].
  exists pg. split; [done|]. split; [done|]. split; [done|]. split; [done|].
  intros k' pg' [Hlt Hk'] Htitle'.
  destruct (Htitles k' Hk') as (pg'' & Hfresh' & _).
  destruct (fresh_page_title out k' pg'' Hfresh') as [Htitle'' _].
  rewrite Htitle' in Htitle''. injection Htitle'' as ->.
  by apply (fresh_pages_increase (drawn (pdf out)) k k').
Qed.

(** On a page at least 250 points high, the text lines and the images
    of the story are drawn between the margins: no line above the top
    margin or below the bottom margin, and no image reaching below the
    bottom margin. *)
Theorem body_within_margins (doc : StoryDocument.t) (out : Output) (o : Drawn) :
  250 <= pageH env ->
  createPdf env uc doc = Return out ->
  o ∈ drawn (pdf out) ->
  (what o = PageLine -> margin <= y o /\ y o <= pageH env - margin)
  /\ (what o = PageImage -> margin <= y o /\ y o + 150 <= pageH env - margin).
Proof.
  intros Hhigh Hrun Ho.
  destruct (createPdf_anatomy doc out Hrun)
    as (imageMap & yPos & pageCounter & cover & tocItems & body
        & _ & _ & Hdrawn & Hcover & Htoc & Hbody & _).
  rewrite Hdrawn in Ho. apply elem_of_app in Ho as [Ho|Ho]; [|apply elem_of_app in Ho as [Ho|Ho]].
  - rewrite Forall_forall in Hcover. specialize (Hcover o Ho).
    split; intros Hw; rewrite Hw in Hcover; by destruct Hcover as [|[|]].
  - rewrite Forall_forall in Htoc. destruct (Htoc o Ho) as (_ & i & [Hw|Hw] & _);
      split; intros Hw'; rewrite Hw' in Hw; discriminate Hw.
  - rewrite Forall_forall in Hbody.
    destruct (Hbody o Ho) as [[j Hw]|(c & page & _ & _ & [Hitem|Hitem])].
    + split; intros Hw'; rewrite Hw' in Hw; discriminate Hw.
    + destruct Hitem as (_ & Hw & Hlo & Hhi). split; intros Hw'.
      * split; [done|]. destruct Hhi as [?| ->]; [done|]. unfold margin. lra.
      * rewrite Hw' in Hw. discriminate Hw.
    + destruct Hitem as (_ & Hw & _ & Hlo & Hhi). split; intros Hw'.
      * rewrite Hw' in Hw. discriminate Hw.
      * split; [done|]. destruct Hhi as [?| ->]; [done|]. unfold margin. lra.
Qed.

(** The entries of the table of contents are all drawn on page 2, 20
    points apart, however many there are (the table never breaks to a new
    page); and they start where the dry run left the cursor, not under the
    heading: at 90 when there is no chapter, at 80 when the last chapter
    has no pages. *)
Theorem toc_is_drawn_on_page_two (doc : StoryDocument.t) (out : Output) :
  createPdf env uc doc = Return out ->
  exists y0,
    (forall k o,
       o ∈ drawn (pdf out) -> is_toc_entry k o ->
       on_page o = 2%nat /\ y o == y0 + 20 * Q_of_nat k)
    /\ (StoryDocument.chapters doc = [] -> y0 == 90)
    /\ (forall front c,
          StoryDocument.chapters doc = front ++ [c] -> ChapterScaffold.pages c = [] ->
          y0 == 80).
Proof.
  intros Hrun.
  destruct (createPdf_anatomy doc out Hrun)
    as (imageMap & yPos & pageCounter & cover & tocItems & body
        & _ & Hdry & Hdrawn & Hcover & Htoc & Hbody & _).
  destruct (dry_run_entries imageMap 24 bold (StoryDocument.chapters doc) [] (margin + 40) 3)
    as (ents & y' & pc' & Hrun' & _ & _ & _ & _ & Hnil & Hlast).
  rewrite Hdry in Hrun'. injection Hrun' as _ -> _.
  exists y'. split; [|split].
  - intros k o Ho Hk. rewrite Hdrawn in Ho.
    apply elem_of_app in Ho as [Ho|Ho]; [|apply elem_of_app in Ho as [Ho|Ho]].
    + rewrite Forall_forall in Hcover. specialize (Hcover o Ho).
      destruct Hk as [Hw|Hw]; rewrite Hw in Hcover; by destruct Hcover as [|[|]].
    + rewrite Forall_forall in Htoc. destruct (Htoc o Ho) as (Hp & i & Hi & Hy).
      split; [done|].
      assert (i = k) as ->; [|done].
      destruct Hk as [Hw|Hw], Hi as [Hw'|Hw']; rewrite Hw in Hw'; congruence.
    + rewrite Forall_forall in Hbody.
      destruct (Hbody o Ho) as [[j Hw]|(c & page & _ & _ & [Hitem|Hitem])].
      * destruct Hk as [Hw'|Hw']; rewrite Hw' in Hw; discriminate Hw.
      * destruct Hitem as (_ & Hw & _).
        destruct Hk as [Hw'|Hw']; rewrite Hw' in Hw; discriminate Hw.
      * destruct Hitem as (_ & Hw & _).
        destruct Hk as [Hw'|Hw']; rewrite Hw' in Hw; discriminate Hw.
  - intros Hno. rewrite (Hnil Hno). unfold margin. lra.
  - intros front c Hfront Hpages. rewrite (Hlast front c Hfront Hpages). unfold margin. lra.
Qed.

(** Every image in the PDF is the first image of a page of the story,
    given as a URL that starts with [data:image] and re-encoded by the
    loader into a non-empty data URL; other images of a page, and images
    given in another way, are never drawn. *)
Theorem drawn_images_come_from_data_urls (doc : StoryDocument.t) (out : Output) (o : Drawn) :
  createPdf env uc doc = Return out ->
  o ∈ drawn (pdf out) ->
  what o = PageImage ->
  image_of_doc env doc o.
Proof.
  intros Hrun Ho Hw.
  destruct (createPdf_anatomy doc out Hrun)
    as (imageMap & yPos & pageCounter & cover & tocItems & body
        & Hmap & _ & Hdrawn & Hcover & Htoc & Hbody & _).
  rewrite Hdrawn in Ho. apply elem_of_app in Ho as [Ho|Ho]; [|apply elem_of_app in Ho as [Ho|Ho]].
  - rewrite Forall_forall in Hcover. specialize (Hcover o Ho).
    rewrite Hw in Hcover. by destruct Hcover as [|[|]].
  - rewrite Forall_forall in Htoc. destruct (Htoc o Ho) as (_ & i & [Hw'|Hw'] & _);
      rewrite Hw in Hw'; discriminate Hw'.
  - rewrite Forall_forall in Hbody.
    destruct (Hbody o Ho) as [[j Hw']|(c & page & Hc & Hpage & [Hitem|Hitem])].
    + rewrite Hw in Hw'. discriminate Hw'.
    + destruct Hitem as (_ & Hw' & _). rewrite Hw in Hw'. discriminate Hw'.
    + destruct Hitem as (_ & _ & (data & Himg & Htext) & _).
      unfold base64Image_of in Himg.
      destruct (PageScaffold.images page !! 0%nat) as [[|ch url]|] eqn:Hfirst;
        try discriminate Himg.
      destruct (Hmap _ _ Himg) as (Hstarts & Hload & Hne).
      exists c, page, (ch :: url), data. repeat split; done.
Qed.

Lemma preload_Throw url e :
  preloadImageAsBase64 env url = Throw e <->
  e = new_Error (lit "Could not get canvas context")
  /\ startsWith url (lit "data:image") = true /\ image_load env url = None.
Proof.
  unfold preloadImageAsBase64.
  destruct (bool_decide (url = []) || negb (startsWith url (lit "data:image"))) eqn:Htest.
  - split; [discriminate|]. intros (_ & Hstarts & _).
    apply orb_true_iff in Htest as [Hnil|Hno].
    + apply bool_decide_eq_true in Hnil. subst url. discriminate Hstarts.
    + rewrite Hstarts in Hno. discriminate Hno.
  - apply orb_false_iff in Htest as [_ Hstarts]. apply negb_false_iff in Hstarts.
    destruct (image_load env url) as [[dataUrl|]|]; split; try discriminate.
    + by intros (_ & _ & ?).
    + by intros (_ & _ & ?).
    + by intros [= <-].
    + by intros (-> & _).
Qed.

Lemma preload_all_Throw urls e :
  preload_all env urls = Throw e <->
  e = new_Error (lit "Could not get canvas context")
  /\ exists url, url ∈ urls /\ startsWith url (lit "data:image") = true
                 /\ image_load env url = None.
Proof.
  revert e. induction urls as [|url urls IH]; intros e; simpl.
  - split; [discriminate|]. intros (_ & u & Hu & _). by apply elem_of_nil in Hu.
  - pose proof (preload_Throw url) as Hurl.
    destruct (preloadImageAsBase64 env url) as [x|e'].
    + destruct (preload_all env urls) as [xs|e'']; split.
      * discriminate.
      * intros (He & u & [-> |Hu]%elem_of_cons & Hs & Hl).
        -- assert (Return x = Throw e :> Outcome jsstring) as H by (by apply Hurl).
           discriminate H.
        -- assert (Return xs = Throw e :> Outcome (list jsstring)) as H
             by (apply IH; split; [done|]; by exists u).
           discriminate H.
      * intros [= <-]. destruct (proj1 (IH e'') eq_refl) as (He & u & Hu & Hs & Hl).
        split; [done|]. exists u. split; [by right|done].
      * intros (He & _). destruct (proj1 (IH e'') eq_refl) as (He' & _). by rewrite He, He'.
    + destruct (proj1 (Hurl e') eq_refl) as (He' & Hs & Hl). split.
      * intros [= <-]. split; [done|]. exists url. split; [by left|done].
      * intros (-> & _). by rewrite He'.
Qed.

(** The export fails exactly when some image of some page (not only the
    first of each page) is a [data:image] URL that the browser loads but
    cannot paint for want of a 2d canvas context; it then rejects with the
    error of that image and nothing is saved.  An image that does not load
    at all never fails the export. *)
Theorem export_fails_without_canvas_context (doc : StoryDocument.t) :
  (forall e, createPdf env uc doc = Throw e ->
             e = new_Error (lit "Could not get canvas context"))
  /\ ((exists e, createPdf env uc doc = Throw e)
      <-> exists chapter page url,
            chapter ∈ StoryDocument.chapters doc
            /\ page ∈ ChapterScaffold.pages chapter
            /\ url ∈ PageScaffold.images page
            /\ startsWith url (lit "data:image") = true
            /\ image_load env url = None).
Proof.
  assert (forall e, createPdf env uc doc = Throw e
                    <-> preload_all env
                          (flat_map (fun c => flat_map PageScaffold.images
                                                (ChapterScaffold.pages c))
                                    (StoryDocument.chapters doc)) = Throw e) as Hfail.
  { intros e. unfold createPdf.
    destruct (preload_all env _) as [preloaded|e']; [|split; by intros [= ->]].
    destruct (dry_run env _ 24 bold _ [] _ 3) as [[toc yPos] pageCounter].
    destruct (draw_toc toc 0 yPos _) as [y1 d1].
    destruct (draw_chapters env _ _ 0 y1 d1) as [y2 d2]. split; discriminate. }
  split.
  - intros e He. apply Hfail, preload_all_Throw in He. by destruct He.
  - split.
    + intros [e He]. apply Hfail, preload_all_Throw in He as (_ & url & Hin & Hs & Hl).
      apply list_elem_of_In, in_flat_map in Hin as (c & Hc & Hin).
      apply in_flat_map in Hin as (page & Hpage & Hin).
      exists c, page, url. rewrite <- !list_elem_of_In in *. done.
    + intros (c & page & url & Hc & Hpage & Hin & Hs & Hl).
      eexists. apply Hfail, preload_all_Throw. split; [done|].
      exists url. split; [|done].
      apply list_elem_of_In, in_flat_map. exists c. split; [by apply list_elem_of_In|].
      apply in_flat_map. exists page. split; by apply list_elem_of_In.
Qed.

End WithEnv.

End PdfLayoutFacts.

Module ExportExamples.
Import Pdf PdfLayout ExportSamples.
Local Open Scope Q_scope.

(** The deck of two slides: the second slide has an image URL, which the
    loader re-encodes; the first has none. *)
Example export_two_slides :
  Pptx.createPresentation loads_everything FileName.no_tables PresentationWorlds.two_slides
  = Return {| Pptx.layout := lit "LAYOUT_16x9";
              Pptx.layouts := [lit "TITLE_SLIDE"; lit "CONTENT_SLIDE"];
              Pptx.titleSlide := lit "Deck";
              Pptx.contentSlides :=
                [ Pptx.mkContentSlide (lit "First") [lit "x"] true None;
                  Pptx.mkContentSlide (lit "Second") [lit "y"] true
                    (Some (lit "data:image/jpeg;base64,UkU=")) ];
              Pptx.fileName := lit "deck.pptx" |}.
Proof. vm_compute. reflexivity. Qed.

Lemma toc_lists_every_chapter_witness :
  exists out,
    createPdf a4_short_lines FileName.no_tables (two_chapters 51) = Return out
    /\ length (tocEntries out) = 2%nat
    /\ forall k chapter,
         StoryDocument.chapters (two_chapters 51) !! k = Some chapter ->
         exists entry,
           tocEntries out !! k = Some entry
           /\ toc_title entry = ChapterScaffold.title chapter
           /\ (3 + k <= toc_page entry)%nat
           /\ (k = 0%nat -> toc_page entry = 3%nat)
           /\ forall k' entry',
                (k < k')%nat -> tocEntries out !! k' = Some entry' ->
                (toc_page entry < toc_page entry')%nat.
Proof.
  destruct (createPdf a4_short_lines FileName.no_tables (two_chapters 51)) as [out|e] eqn:Hrun;
    [|vm_compute in Hrun; discriminate Hrun].
  exists out. split; [reflexivity|].
  exact (PdfLayoutFacts.toc_lists_every_chapter a4_short_lines FileName.no_tables
           (two_chapters 51) out Hrun).
Defined.

Lemma chapters_start_on_fresh_pages_witness :
  exists out,
    createPdf a4_short_lines FileName.no_tables (two_chapters 51) = Return out
    /\ (2 + 2 <= pages (pdf out))%nat
    /\ forall k,
         (k < 2)%nat ->
         exists pg,
           title_page out k = Some pg
           /\ first_on_page out pg = Some (ChapterTitle k)
           /\ (3 + k <= pg)%nat
           /\ (k = 0%nat -> pg = 3%nat)
           /\ forall k' pg',
                (k < k' < 2)%nat -> title_page out k' = Some pg' -> (pg < pg')%nat.
Proof.
  destruct (createPdf a4_short_lines FileName.no_tables (two_chapters 51)) as [out|e] eqn:Hrun;
    [|vm_compute in Hrun; discriminate Hrun].
  exists out. split; [reflexivity|].
  exact (PdfLayoutFacts.chapters_start_on_fresh_pages a4_short_lines FileName.no_tables
           (two_chapters 51) out Hrun).
Defined.

Lemma body_within_margins_witness :
  exists out o,
    createPdf a4_with_images FileName.no_tables illustrated = Return out
    /\ o ∈ drawn (pdf out)
    /\ what o = PageImage
    /\ margin <= y o /\ y o + 150 <= pageH a4_with_images - margin.
Proof.
  destruct (createPdf a4_with_images FileName.no_tables illustrated) as [out|e] eqn:Hrun;
    [|vm_compute in Hrun; discriminate Hrun].
  destruct (find (fun o => bool_decide (what o = PageImage)) (drawn (pdf out))) as [o|] eqn:Hfind.
  - apply find_some in Hfind as [Hin Hw].
    apply list_elem_of_In in Hin. apply bool_decide_eq_true in Hw.
    exists out, o. split; [reflexivity|]. split; [exact Hin|]. split; [exact Hw|].
    apply (PdfLayoutFacts.body_within_margins a4_with_images FileName.no_tables
             illustrated out o); [|exact Hrun|exact Hin|exact Hw].
    unfold Qle. simpl. lia.
  - vm_compute in Hrun. injection Hrun as <-. vm_compute in Hfind. discriminate Hfind.
Defined.

Lemma toc_is_drawn_on_page_two_witness :
  exists out y0,
    createPdf a4_short_lines FileName.no_tables (two_chapters 51) = Return out
    /\ (forall k o,
          o ∈ drawn (pdf out) -> is_toc_entry k o ->
          on_page o = 2%nat /\ y o == y0 + 20 * Q_of_nat k)
    /\ y0 == 80.
Proof.
  destruct (createPdf a4_short_lines FileName.no_tables (two_chapters 51)) as [out|e] eqn:Hrun;
    [|vm_compute in Hrun; discriminate Hrun].
  destruct (PdfLayoutFacts.toc_is_drawn_on_page_two a4_short_lines FileName.no_tables
              (two_chapters 51) out Hrun) as (y0 & Hentries & _ & Hlast).
  exists out, y0. split; [reflexivity|]. split; [exact Hentries|].
  eapply (Hlast [_]); reflexivity.
Defined.

Lemma drawn_images_come_from_data_urls_witness :
  exists out o,
    createPdf a4_with_images FileName.no_tables illustrated = Return out
    /\ o ∈ drawn (pdf out)
    /\ what o = PageImage
    /\ image_of_doc a4_with_images illustrated o.
Proof.
  destruct (createPdf a4_with_images FileName.no_tables illustrated) as [out|e] eqn:Hrun;
    [|vm_compute in Hrun; discriminate Hrun].
  destruct (find (fun o => bool_decide (what o = PageImage)) (drawn (pdf out))) as [o|] eqn:Hfind.
  - apply find_some in Hfind as [Hin Hw].
    apply list_elem_of_In in Hin. apply bool_decide_eq_true in Hw.
    exists out, o. split; [reflexivity|]. split; [exact Hin|]. split; [exact Hw|].
    exact (PdfLayoutFacts.drawn_images_come_from_data_urls a4_with_images FileName.no_tables
             illustrated out o Hrun Hin Hw).
  - vm_compute in Hrun. injection Hrun as <-. vm_compute in Hfind. discriminate Hfind.
Defined.

(** The sample story in the PDF: the image of its page is drawn under
    the chapter title on page 3, the second image of the page is not
    drawn. *)
Example illustrated_images :
  match createPdf a4_with_images FileName.no_tables illustrated with
  | Return out =>
      map (fun o => (on_page o, text o))
          (filter (fun o => what o = PageImage) (drawn (pdf out)))
      = [(3%nat, [lit "data:image/jpeg;base64,UkU="])]
  | Throw _ => False
  end.
Proof. vm_compute. reflexivity. Qed.

End ExportExamples.

(** ** Generation: empty input, a failed scaffold, the status at the end *)

Module EdgeFacts.

#[local] Opaque lit String_of_nat.

Lemma chunks_of_nil_iff SIZE (data : jsstring) :
  0 < SIZE -> Chunking.chunks_of SIZE data = [] <-> data = [].
Proof.
  intros Hpos.
  destruct (ChunkingFacts.chunks_of_facts SIZE data Hpos) as (_ & _ & _ & _ & Hconcat).
  split.
  - intros Hnil. by rewrite Hnil in Hconcat.
  - intros ->. reflexivity.
Qed.

Lemma first_chunk SIZE (data : jsstring) firstChunk rest :
  0 < SIZE -> Chunking.chunks_of SIZE data = firstChunk :: rest -> firstChunk = take SIZE data.
Proof.
  intros Hpos. rewrite ChunkingFacts.chunks_of_pieces by done.
  destruct (Chunking.ceil_div (length data) SIZE); simpl; [discriminate|].
  by intros [= <- _].
Qed.

(** Presentation flavour: the handler makes no request to the models
    exactly when the text is empty; it then reports the generic failure,
    logs the error "No text data to process.", stays on the input screen,
    keeps the document it had and clears the loading flag. *)
Theorem empty_text_makes_no_request (w : Presentation.World) (data : jsstring)
    (s : Presentation.State) :
  (Presentation.events_since s (snd (Presentation.handlePresentationGeneration w data s)) = []
   <-> data = [])
  /\ (data = [] ->
      fst (Presentation.handlePresentationGeneration w data s) = Return tt
      /\ Presentation.error (snd (Presentation.handlePresentationGeneration w data s))
         = Some (lit "Failed to generate a presentation. Please check your file and try again.")
      /\ last (Presentation.console (snd (Presentation.handlePresentationGeneration w data s)))
         = Some (new_Error (lit "No text data to process."))
      /\ Presentation.appState (snd (Presentation.handlePresentationGeneration w data s)) = INPUT
      /\ Presentation.presentationDocument
           (snd (Presentation.handlePresentationGeneration w data s))
         = Presentation.presentationDocument s
      /\ Presentation.isLoading (snd (Presentation.handlePresentationGeneration w data s))
         = false).
Proof.
  destruct (PresentationFacts.handlePresentationGeneration_run w data s)
    as (s' & Hrun & Hload & _ & Hend).
  rewrite Hrun. simpl.
  pose proof (chunks_of_nil_iff Chunking.CHUNK_SIZE data ltac:(unfold Chunking.CHUNK_SIZE; lia))
    as Hnil.
  assert (Presentation.events_since s s' = [] -> data = []) as Hnone.
  { intros Hev.
    destruct Hend as [(_ & _ & _ & e & _ & [(Hchunks & _)|(Hthrew & _)])
                     |(_ & _ & _ & Hslides & _ & slides & _ & _ & Hpos & _)].
    - by apply Hnil.
    - rewrite Hev in Hthrew. discriminate Hthrew.
    - rewrite Hev in Hslides. simpl in Hslides.
      destruct (length (Chunking.chunks_of Chunking.CHUNK_SIZE data)); [lia|].
      discriminate Hslides. }
  split.
  - split; [exact Hnone|].
    intros ->. revert Hrun. unfold Presentation.handlePresentationGeneration.
    change (Chunking.chunks_of Chunking.CHUNK_SIZE []) with (@nil jsstring).
    PresentationFacts.run. intros [= <-]. unfold Presentation.events_since. simpl.
    apply drop_all.
  - intros ->. revert Hrun Hload. unfold Presentation.handlePresentationGeneration.
    change (Chunking.chunks_of Chunking.CHUNK_SIZE []) with (@nil jsstring).
    PresentationFacts.run. intros [= <-] _. simpl.
    repeat split. apply last_snoc.
Qed.

Section Story.
Import Story.
Variable w : World.

Lemma scaffold_catch_facts err s :
  let s' := snd (scaffold_catch err s) in
  fst (scaffold_catch err s) = Caught
  /\ error s' = None /\ appState s' = INPUT /\ storyDocument s' = None
  /\ isLoading s' = false /\ robotState s' = idle
  /\ generationStatus s' = mkStatus false 0 0
  /\ console s' = console s ++ [console_error None err]
  /\ trace s' = trace s.
Proof.
  unfold scaffold_catch. cbn [fst snd]. rewrite StoryFacts.handleReset_trace.
  unfold handleReset, abort_current. simpl.
  by destruct (generationController s).
Qed.

(** Story flavour: when the scaffold cannot be made (the text is empty,
    or the title request throws) the message set in the catch block is
    cleared again by [handleReset], which runs right after it: the run
    ends with no error shown, on the input screen, with no document, not
    loading, the robot idle and the status reset; the error is on the
    console only, and no chapter request is made. *)
Theorem failed_scaffold_shows_no_error (data : jsstring) (s : State) :
  data = []
  \/ (exists e, story_title_response w (trace s ++ [Started StoryTitleCall])
                  (take 3200 data) = Throw e) ->
  fst (handleScaffoldGeneration w data s) = ScaffoldFailed
  /\ error (snd (handleScaffoldGeneration w data s)) = None
  /\ appState (snd (handleScaffoldGeneration w data s)) = INPUT
  /\ storyDocument (snd (handleScaffoldGeneration w data s)) = None
  /\ isLoading (snd (handleScaffoldGeneration w data s)) = false
  /\ robotState (snd (handleScaffoldGeneration w data s)) = idle
  /\ generationStatus (snd (handleScaffoldGeneration w data s)) = mkStatus false 0 0
  /\ (exists err, last (console (snd (handleScaffoldGeneration w data s)))
                  = Some (console_error None err))
  /\ omap chapter_event (events_since s (snd (handleScaffoldGeneration w data s))) = [].
Proof.
  intros Hwhy.
  assert (exists err s0, prepare_scaffold w data s = scaffold_catch err s0
                         /\ omap chapter_event (drop (length (trace s)) (trace s0)) = [])
    as (err & s0 & Hprep & Hev).
  { unfold prepare_scaffold.
    destruct (Chunking.chunks_of Chunking.PAGE_CHUNK_SIZE data) as [|firstChunk rest] eqn:Hchunks.
    - eexists _, _. split; [reflexivity|]. simpl. by rewrite drop_all.
    - destruct Hwhy as [->|[e He]]; [discriminate Hchunks|].
      apply first_chunk in Hchunks; [|unfold Chunking.PAGE_CHUNK_SIZE; lia].
      subst firstChunk. cbv zeta. simpl. unfold Chunking.PAGE_CHUNK_SIZE. rewrite He.
      eexists _, _. split; [reflexivity|]. simpl.
      rewrite <- app_assoc, drop_app_length. done. }
  unfold handleScaffoldGeneration. rewrite Hprep.
  destruct (scaffold_catch_facts err s0)
    as (Hfst & Herr & Happ & Hdoc & Hload & Hrobot & Hstatus & Hconsole & Htrace).
  destruct (scaffold_catch err s0) as [p s']. simpl in *. subst p. simpl.
  repeat split; try done.
  - exists err. rewrite Hconsole. apply last_snoc.
  - unfold events_since. by rewrite Htrace.
Qed.

(** How the background generation leaves the status. *)
Lemma run_chapter_loop_status docId total storyTitle signal rest i r :
  let run := run_chapter_loop w docId total storyTitle signal rest i r in
  (fst run = Completed ->
   generationStatus (component (snd run)) = mkStatus false total total
   /\ robotState (component (snd run)) = idle)
  /\ (fst run = StoppedByUser ->
      active (generationStatus (component (snd run))) = false
      /\ robotState (component (snd run)) = idle)
  /\ fst run <> ScaffoldFailed.
Proof.
  revert i r. induction rest as [|pageChunks rest IH]; intros i r.
  - simpl. repeat split; done.
  - cbv zeta. rewrite StoryFacts.run_chapter_loop_cons.
    destruct (signal_aborted signal (component r)); [simpl; repeat split; done|].
    destruct (await_chapter w i pageChunks total storyTitle r) as [[chapter|err] r1].
    + apply IH.
    + destruct (is_AbortError err); [simpl; repeat split; done|]. cbv zeta.
      destruct (mark_failed i _) as [doc'|e];
        [apply IH|simpl; repeat split; done].
Qed.

Lemma chapter_loop_status docId total storyTitle signal rest i s :
  let run := chapter_loop w docId total storyTitle signal rest i s in
  (fst run = Completed ->
   generationStatus (snd run) = mkStatus false total total /\ robotState (snd run) = idle)
  /\ (fst run = StoppedByUser ->
      active (generationStatus (snd run)) = false /\ robotState (snd run) = idle)
  /\ fst run <> ScaffoldFailed.
Proof.
  cbv zeta. unfold chapter_loop.
  destruct (run_chapter_loop_status docId total storyTitle signal rest i (running s))
    as (Hdone & Hstop & Hnot).
  destruct (StoryFacts.finish_facts
              (run_chapter_loop w docId total storyTitle signal rest i (running s)))
    as (Hsnd & _).
  pose proof (StoryFacts.finish_plain
                (run_chapter_loop w docId total storyTitle signal rest i (running s)))
    as Hplain.
  rewrite Hsnd. split; [|split].
  - intros Hexit. destruct (Hplain _ Hexit) as [Hrun _]; [done|]. by apply Hdone.
  - intros Hexit. destruct (Hplain _ Hexit) as [Hrun _]; [done|]. by apply Hstop.
  - intros Hexit. destruct (Hplain _ Hexit) as [Hrun _]; [done|]. by apply Hnot.
Qed.

(** When the background generation runs to its end, the status reports
    every chapter as completed (completed = total = the number of chapter
    groups), whether or not chapters failed on the way, and the robot is
    idle; when the user stops it, the status is inactive and the robot
    idle. *)
Theorem finished_generation_reports_all_completed (data : jsstring) (s : State) :
  let n := Chunking.ceil_div (Chunking.ceil_div (length data) 3200) 5 in
  (fst (handleScaffoldGeneration w data s) = Completed ->
   generationStatus (snd (handleScaffoldGeneration w data s)) = mkStatus false n n
   /\ robotState (snd (handleScaffoldGeneration w data s)) = idle)
  /\ (fst (handleScaffoldGeneration w data s) = StoppedByUser ->
      active (generationStatus (snd (handleScaffoldGeneration w data s))) = false
      /\ robotState (snd (handleScaffoldGeneration w data s)) = idle).
Proof.
  cbv zeta.
  assert (length (chapterChunks_of (Chunking.chunks_of Chunking.PAGE_CHUNK_SIZE data))
          = Chunking.ceil_div (Chunking.ceil_div (length data) 3200) 5) as Hn.
  { rewrite GroupingFacts.chapterChunks_groups, GroupingFacts.groups_length.
    destruct (ChunkingFacts.chunks_of_facts Chunking.PAGE_CHUNK_SIZE data
                ltac:(unfold Chunking.PAGE_CHUNK_SIZE; lia)) as (_ & -> & _). done. }
  unfold handleScaffoldGeneration.
  pose proof (StoryFacts.prepare_scaffold_facts w data s) as Hprep.
  destruct (prepare_scaffold w data s) as [[docId chapterChunks|] s1]; simpl in Hprep.
  - destruct Hprep as (-> & _).
    unfold startChapterGeneration, new_AbortController. cbn [fst snd].
    match goal with |- context [chapter_loop w docId ?t ?ti ?sig ?r 0 ?s0] =>
      destruct (chapter_loop_status docId t ti sig r 0 s0) as (Hdone & Hstop & _)
    end.
    split; [|exact Hstop].
    intros Hexit. destruct (Hdone Hexit) as [Hstatus Hrobot].
    split; [|exact Hrobot]. rewrite Hstatus. by rewrite Hn.
  - simpl. split; discriminate.
Qed.

End Story.

End EdgeFacts.

Module EdgeSamples.
Import Story.

Lemma failed_scaffold_shows_no_error_witness :
  fst (handleScaffoldGeneration EdgeWorlds.world_title_fails (lit "Once upon a time") initial)
  = ScaffoldFailed
  /\ error (snd (handleScaffoldGeneration EdgeWorlds.world_title_fails
                   (lit "Once upon a time") initial)) = None
  /\ appState (snd (handleScaffoldGeneration EdgeWorlds.world_title_fails
                      (lit "Once upon a time") initial)) = INPUT
  /\ storyDocument (snd (handleScaffoldGeneration EdgeWorlds.world_title_fails
                           (lit "Once upon a time") initial)) = None
  /\ isLoading (snd (handleScaffoldGeneration EdgeWorlds.world_title_fails
                       (lit "Once upon a time") initial)) = false
  /\ robotState (snd (handleScaffoldGeneration EdgeWorlds.world_title_fails
                        (lit "Once upon a time") initial)) = idle
  /\ generationStatus (snd (handleScaffoldGeneration EdgeWorlds.world_title_fails
                              (lit "Once upon a time") initial)) = mkStatus false 0 0
  /\ (exists err, last (console (snd (handleScaffoldGeneration EdgeWorlds.world_title_fails
                                        (lit "Once upon a time") initial)))
                  = Some (console_error None err))
  /\ omap chapter_event
       (events_since initial
          (snd (handleScaffoldGeneration EdgeWorlds.world_title_fails
                  (lit "Once upon a time") initial))) = [].
Proof.
  apply (EdgeFacts.failed_scaffold_shows_no_error EdgeWorlds.world_title_fails
           (lit "Once upon a time") initial).
  right. exists StoryWorlds.quota_error. reflexivity.
Defined.

(** The same with an empty text: no request at all. *)
Example empty_story_text :
  fst (handleScaffoldGeneration StoryWorlds.world_ok [] initial) = ScaffoldFailed
  /\ error (snd (handleScaffoldGeneration StoryWorlds.world_ok [] initial)) = None
  /\ trace (snd (handleScaffoldGeneration StoryWorlds.world_ok [] initial)) = [].
Proof. vm_compute. repeat split. Qed.

(** Chapter 2 of 3 fails, the run completes, and the status says 3 of 3
    completed. *)
Example failed_chapter_counts_as_completed :
  fst (handleScaffoldGeneration (StoryWorlds.world_chapter_fails 2) StoryWorlds.long_text initial)
  = Completed
  /\ generationStatus
       (snd (handleScaffoldGeneration (StoryWorlds.world_chapter_fails 2)
               StoryWorlds.long_text initial))
     = mkStatus false 3 3.
Proof. vm_compute. split; reflexivity. Qed.

End EdgeSamples.

(** ** The page handlers of the story editor *)

Module StoryEditingFacts.
Import Story StoryEditing.

#[local] Opaque lit String_of_nat.

Ltac run := unfold bind, ret, throw, modify, try_catch, try_finally, gets; simpl.

Lemma append_page_text_nil chapterId pageId doc :
  append_page_text chapterId pageId [] doc = doc.
Proof.
  destruct doc as [[docId title chapters]|]; [|done]. simpl. do 2 f_equal.
  apply UpdateFacts.map_if_none. intros [cid ctitle summary pages] _ _. simpl. f_equal.
  apply UpdateFacts.map_if_none. intros [pid n text sugg images] _ _. simpl.
  by rewrite app_nil_r.
Qed.

Lemma append_page_text_app chapterId pageId x y doc :
  append_page_text chapterId pageId y (append_page_text chapterId pageId x doc)
  = append_page_text chapterId pageId (x ++ y) doc.
Proof.
  destruct doc as [[docId title chapters]|]; [|done]. simpl. do 2 f_equal.
  rewrite map_map. apply map_ext. intros c.
  destruct (decide (ChapterScaffold.id c = chapterId)) as [Hc|Hc]; simpl.
  - rewrite decide_True by done. f_equal.
    rewrite map_map. apply map_ext. intros p.
    destruct (decide (PageScaffold.id p = pageId)) as [Hp|Hp]; simpl.
    + rewrite decide_True by done. simpl. by rewrite app_assoc.
    + by rewrite decide_False.
  - by rewrite decide_False.
Qed.

(** Consuming a stream: the chunks are appended in order, then the
    stream's exception, if any, is thrown; nothing else changes. *)
Lemma consume_run chapterId pageId chunks failure s :
  fst (consume chapterId pageId chunks failure s)
  = match failure with None => Return tt | Some e => Throw e end
  /\ storyDocument (app (snd (consume chapterId pageId chunks failure s)))
     = append_page_text chapterId pageId (concat chunks) (storyDocument (app s))
  /\ requests (snd (consume chapterId pageId chunks failure s)) = requests s
  /\ messages (snd (consume chapterId pageId chunks failure s)) = messages s
  /\ error (app (snd (consume chapterId pageId chunks failure s))) = error (app s)
  /\ console (app (snd (consume chapterId pageId chunks failure s))) = console (app s)
  /\ robotState (app (snd (consume chapterId pageId chunks failure s))) = robotState (app s).
Proof.
  revert s. induction chunks as [|chunk chunks IH]; intros s.
  - simpl. rewrite append_page_text_nil. by destruct failure.
  - cbn [consume]. run.
    destruct (IH (on_app (updateStoryDocument (append_page_text chapterId pageId chunk)) s))
      as (Hfst & Hdoc & Hreq & Hmsg & Herr & Hcon & Hrobot).
    rewrite Hfst, Hdoc, Hreq, Hmsg, Herr, Hcon, Hrobot. simpl.
    rewrite append_page_text_app. done.
Qed.

Section WithService.
Variable w : Story.World.
Variable svc : Service.
Variable captured : option StoryDocument.t.

(** [runPageAction] never rejects.  When the rendered document has no
    such page, the action is not started, the message "Page not found" is
    shown and nothing else changes.  Otherwise the action runs on the page
    found, the robot is idle afterwards, and an exception of the action is
    logged and shown as "An AI action failed". *)
Theorem runPageAction_never_rejects {T} (chapterId pageId : jsstring)
    (action : PageScaffold.t -> M State T) (s : State) :
  fst (runPageAction captured chapterId pageId action s) = Return tt
  /\ (find_page captured chapterId pageId = None ->
      snd (runPageAction captured chapterId pageId action s)
      = mkState (setError (Some (lit "An error occurred: Page not found.")) (app s))
                (requests s) (messages s ++ [lit "Page not found!"]))
  /\ (forall page,
        find_page captured chapterId pageId = Some page ->
        robotState (app (snd (runPageAction captured chapterId pageId action s))) = idle
        /\ match action page (on_app (setRobotState thinking) s) with
           | (Return _, s1) =>
               snd (runPageAction captured chapterId pageId action s)
               = on_app (setRobotState idle) s1
           | (Throw err, s1) =>
               error (app (snd (runPageAction captured chapterId pageId action s)))
               = Some (lit "An AI action failed. Please try again.")
               /\ last (console (app (snd (runPageAction captured chapterId pageId action s))))
                  = Some (console_error (Some (lit "Page action failed")) err)
               /\ storyDocument (app (snd (runPageAction captured chapterId pageId action s)))
                  = storyDocument (app s1)
           end).
Proof.
  unfold runPageAction.
  destruct (find_page captured chapterId pageId) as [page|].
  - run. split; [|split; [done|]].
    + by destruct (action page _) as [[?|?] ?].
    + intros ? [= <-].
      destruct (action page _) as [[?|err] s1]; simpl; [done|].
      split; [done|]. split; [done|]. split; [apply last_snoc|done].
  - run. split; [done|]. split; [done|]. intros page Hpage. discriminate Hpage.
Qed.


Lemma cleared_then_appended chapterId pageId text (doc d' : StoryDocument.t)
    (c' : ChapterScaffold.t) (p' : PageScaffold.t) :
  append_page_text chapterId pageId text
    (onUpdatePage chapterId pageId (PageScaffold.mkPartial None None (Some []) None None)
       (Some doc)) = Some d' ->
  c' ∈ StoryDocument.chapters d' -> ChapterScaffold.id c' = chapterId ->
  p' ∈ ChapterScaffold.pages c' -> PageScaffold.id p' = pageId ->
  PageScaffold.page_text p' = text.
Proof.
  simpl. intros [= <-]. simpl. rewrite map_map.
  intros Hc Hcid Hp Hpid.
  apply list_elem_of_In, in_map_iff in Hc as (c & <- & _).
  destruct (decide (ChapterScaffold.id c = chapterId)) as [Hc|Hc]; simpl in *.
  - rewrite decide_True in Hp by done. simpl in Hp. rewrite map_map in Hp.
    apply list_elem_of_In, in_map_iff in Hp as (p & <- & _).
    destruct (decide (PageScaffold.id p = pageId)) as [Hp|Hp]; simpl in *.
    + rewrite decide_True by done. done.
    + rewrite decide_False in Hpid by done. done.
  - rewrite decide_False in Hcid by done. done.
Qed.

(** Auto-writing a page: the text of the page is cleared first, then one
    request is made and its chunks are appended; the page ends up holding
    exactly what the stream delivered, so its previous text is gone even
    when the stream fails at once.  The handler never rejects, leaves the
    robot idle, and shows "An AI action failed" exactly when the stream
    broke. *)
Theorem auto_written_page_holds_the_stream (chapterId pageId : jsstring)
    (page : PageScaffold.t) (s : State) :
  find_page captured chapterId pageId = Some page ->
  let pageSuggestion := Text.join (lit " ") (PageScaffold.ai_suggestions page) in
  let stream := autoWritePageStream svc (requests s) (captured_title captured)
                  (captured_chapter_title captured chapterId) pageSuggestion in
  let s' := snd (onAutoWritePageStream svc captured chapterId pageId s) in
  fst (onAutoWritePageStream svc captured chapterId pageId s) = Return tt
  /\ requests s'
     = requests s ++ [AutoWriteRequest (captured_title captured)
                        (captured_chapter_title captured chapterId) pageSuggestion]
  /\ storyDocument (app s')
     = append_page_text chapterId pageId (concat (chunks stream))
         (onUpdatePage chapterId pageId (PageScaffold.mkPartial None None (Some []) None None)
            (storyDocument (app s)))
  /\ (forall d' c' p',
        storyDocument (app s') = Some d' ->
        c' ∈ StoryDocument.chapters d' -> ChapterScaffold.id c' = chapterId ->
        p' ∈ ChapterScaffold.pages c' -> PageScaffold.id p' = pageId ->
        PageScaffold.page_text p' = concat (chunks stream))
  /\ robotState (app s') = idle
  /\ error (app s')
     = match failure stream with
       | None => error (app s)
       | Some _ => Some (lit "An AI action failed. Please try again.")
       end.
Proof.
  intros Hpage. cbv zeta. unfold onAutoWritePageStream, runPageAction. rewrite Hpage.
  unfold request. run.
  match goal with |- context [consume chapterId pageId ?c ?f ?s0] =>
    destruct (consume_run chapterId pageId c f s0)
      as (Hfst & Hdoc & Hreq & _ & Herr & _ & _);
    destruct (consume chapterId pageId c f s0) as [r s1]
  end.
  simpl in *. subst r.
  assert (forall d' c' p',
            storyDocument (app s1) = Some d' ->
            c' ∈ StoryDocument.chapters d' -> ChapterScaffold.id c' = chapterId ->
            p' ∈ ChapterScaffold.pages c' -> PageScaffold.id p' = pageId ->
            PageScaffold.page_text p'
            = concat (chunks (autoWritePageStream svc (requests s) (captured_title captured)
                                (captured_chapter_title captured chapterId)
                                (Text.join (lit " ") (PageScaffold.ai_suggestions page)))))
    as Hheld.
  { intros d' c' p' Hd'. rewrite Hdoc in Hd'.
    destruct (storyDocument (app s)) as [doc|]; [|discriminate Hd'].
    exact (cleared_then_appended _ _ _ doc d' c' p' Hd'). }
  destruct (failure _); simpl; repeat split; done.
Qed.


Lemma retitle_by_index newTitles d :
  exists d', retitle newTitles (Some d) = Some d'
    /\ replaced_by_index ChapterScaffold.title ChapterScaffold.summary newTitles d d'.
Proof.
  eexists. split; [reflexivity|]. unfold replaced_by_index. simpl.
  split; [done|]. split; [done|]. split; [by rewrite length_imap|].
  intros i c Hc. rewrite list_lookup_imap, Hc. simpl. eexists. split; [done|]. simpl.
  repeat split. by destruct (newTitles !! i) as [[|]|].
Qed.

Lemma resummarize_by_index summaries d :
  exists d', resummarize summaries (Some d) = Some d'
    /\ replaced_by_index ChapterScaffold.summary ChapterScaffold.title summaries d d'.
Proof.
  eexists. split; [reflexivity|]. unfold replaced_by_index. simpl.
  split; [done|]. split; [done|]. split; [by rewrite length_imap|].
  intros i c Hc. rewrite list_lookup_imap, Hc. simpl. eexists. split; [done|]. simpl.
  repeat split. by destruct (summaries !! i) as [[|]|].
Qed.

(** Suggesting titles and summarising chapters: one request each, made
    with the document as the render shows it; the answer is applied by
    position to the document as it is when the answer arrives: chapter [i]
    takes the [i]-th string when there is one and it is not empty, and
    keeps what it has otherwise; ids, pages, the other of the two fields,
    and the number and order of chapters stay.  When the request fails the
    document is untouched and the handler's message is shown.  Neither
    handler rejects, and both leave the robot idle. *)
Theorem suggestions_are_applied_by_position (sd : StoryDocument.t) (s : State) :
  (let s' := snd (onSuggestTitles svc (Some sd) s) in
   fst (onSuggestTitles svc (Some sd) s) = Return tt
   /\ requests s' = requests s ++ [TitlesRequest sd]
   /\ robotState (app s') = idle
   /\ match suggestNewChapterTitles svc (requests s) sd with
      | Return newTitles =>
          error (app s') = error (app s)
          /\ match storyDocument (app s) with
             | Some d =>
                 exists d', storyDocument (app s') = Some d'
                   /\ replaced_by_index ChapterScaffold.title ChapterScaffold.summary
                        newTitles d d'
             | None => storyDocument (app s') = None
             end
      | Throw e =>
          error (app s') = Some (lit "Could not suggest new titles.")
          /\ storyDocument (app s') = storyDocument (app s)
          /\ last (console (app s')) = Some (console_error None e)
      end)
  /\ (let s' := snd (onSummarizeChapters svc (Some sd) s) in
      fst (onSummarizeChapters svc (Some sd) s) = Return tt
      /\ requests s' = requests s ++ [SummariesRequest sd]
      /\ robotState (app s') = idle
      /\ match generateChapterSummaries svc (requests s) sd with
         | Return summaries =>
             error (app s') = error (app s)
             /\ match storyDocument (app s) with
                | Some d =>
                    exists d', storyDocument (app s') = Some d'
                      /\ replaced_by_index ChapterScaffold.summary ChapterScaffold.title
                           summaries d d'
                | None => storyDocument (app s') = None
                end
         | Throw e =>
             error (app s') = Some (lit "Could not generate summaries.")
             /\ storyDocument (app s') = storyDocument (app s)
             /\ last (console (app s')) = Some (console_error None e)
         end).
Proof.
  split; cbv zeta.
  - unfold onSuggestTitles, await, request. run.
    destruct (suggestNewChapterTitles svc (requests s) sd) as [newTitles|e]; simpl.
    + repeat split; try done.
      destruct (storyDocument (app s)) as [d|]; [|done]. apply retitle_by_index.
    + repeat split; try done. apply last_snoc.
  - unfold onSummarizeChapters, await, request. run.
    destruct (generateChapterSummaries svc (requests s) sd) as [summaries|e]; simpl.
    + repeat split; try done.
      destruct (storyDocument (app s)) as [d|]; [|done]. apply resummarize_by_index.
    + repeat split; try done. apply last_snoc.
Qed.

Lemma find_exists {A} (f : A -> bool) (l : list A) x :
  x ∈ l -> f x = true -> exists y, find f l = Some y.
Proof.
  induction l as [|a l IH]; intros Hin Hx; [by apply elem_of_nil in Hin|]. simpl.
  destruct (f a) eqn:Ha; [by eexists|].
  apply elem_of_cons in Hin as [-> |Hin]; [congruence|]. by apply IH.
Qed.

Lemma find_own_chapter (l : list ChapterScaffold.t) k chapter :
  NoDup (ChapterScaffold.id <$> l) -> l !! k = Some chapter ->
  find (fun c => bool_decide (ChapterScaffold.id c = ChapterScaffold.id chapter)) l
  = Some chapter.
Proof.
  revert k. induction l as [|y l IH]; intros k Hnd Hk; [done|].
  rewrite fmap_cons in Hnd. apply NoDup_cons in Hnd as [Hy Hnd].
  destruct k as [|k]; simpl in *.
  - injection Hk as ->. by rewrite bool_decide_eq_true_2.
  - rewrite bool_decide_eq_false_2; [by apply (IH k)|].
    intros Heq. apply Hy. rewrite Heq. apply list_elem_of_fmap. exists chapter.
    split; [done|]. by apply list_elem_of_lookup_2 in Hk.
Qed.

Lemma onAutoWritePageStream_request chapterId pageId page s :
  find_page captured chapterId pageId = Some page ->
  exists s',
    onAutoWritePageStream svc captured chapterId pageId s = (Return tt, s')
    /\ (exists r, requests s' = requests s ++ [r]
                  /\ is_AutoWriteRequest (captured_title captured) r)
    /\ robotState (app s') = idle
    /\ (error (app s') = error (app s)
        \/ error (app s') = Some (lit "An AI action failed. Please try again.")).
Proof.
  intros Hpage. unfold onAutoWritePageStream, runPageAction. rewrite Hpage.
  unfold request. run.
  match goal with |- context [consume chapterId pageId ?c ?f ?s0] =>
    destruct (consume_run chapterId pageId c f s0)
      as (Hfst & _ & Hreq & _ & Herr & _ & _);
    destruct (consume chapterId pageId c f s0) as [r s1]
  end.
  simpl in *. subst r.
  destruct (failure _); simpl; eexists; (split; [reflexivity|]); simpl;
    (split; [eexists; split; [exact Hreq|by eexists _, _]|]); (split; [done|]); auto.
Qed.

Lemma draft_pages_run chapter pgs s :
  (forall page, page ∈ pgs ->
     exists page', find_page captured (ChapterScaffold.id chapter) (PageScaffold.id page)
                   = Some page') ->
  exists s' new,
    draft_pages svc captured chapter pgs s = (Return tt, s')
    /\ requests s' = requests s ++ new
    /\ length new
       = length (filter (fun p => Text.trim (PageScaffold.page_text p) = []) pgs)
    /\ Forall (is_AutoWriteRequest (captured_title captured)) new
    /\ (error (app s') = error (app s)
        \/ error (app s') = Some (lit "An AI action failed. Please try again.")).
Proof.
  revert s. induction pgs as [|page pgs IH]; intros s Hfound.
  - exists s, []. simpl. rewrite app_nil_r. repeat split; auto.
  - cbn [draft_pages]. unfold bind at 1.
    destruct (decide (Text.trim (PageScaffold.page_text page) = [])) as [Hblank|Hfull].
    + rewrite bool_decide_eq_true_2 by done.
      destruct (Hfound page) as [page' Hpage]; [by left|].
      destruct (onAutoWritePageStream_request _ _ page' s Hpage)
        as (s1 & -> & (r & Hreq1 & Hr) & _ & Herr1).
      destruct (IH s1) as (s' & new & -> & Hreq & Hlen & Hall & Herr).
      { intros p Hp. apply Hfound. by right. }
      exists s', (r :: new). split; [done|].
      split; [rewrite Hreq, Hreq1; by rewrite <- app_assoc|].
      split; [rewrite filter_cons_True by done; simpl; by rewrite Hlen|].
      split; [by constructor|].
      destruct Herr as [-> | ->]; [exact Herr1|by right].
    + rewrite bool_decide_eq_false_2 by done. unfold ret at 1.
      destruct (IH s) as (s' & new & -> & Hreq & Hlen & Hall & Herr).
      { intros p Hp. apply Hfound. by right. }
      exists s', new. split; [done|]. split; [done|].
      split; [by rewrite filter_cons_False|]. done.
Qed.

Lemma draft_chapters_run chapters s :
  (forall chapter page, chapter ∈ chapters -> page ∈ ChapterScaffold.pages chapter ->
     exists page', find_page captured (ChapterScaffold.id chapter) (PageScaffold.id page)
                   = Some page') ->
  exists s' new,
    draft_chapters svc captured chapters s = (Return tt, s')
    /\ requests s' = requests s ++ new
    /\ length new
       = length (flat_map (fun c => filter (fun p => Text.trim (PageScaffold.page_text p) = [])
                                          (ChapterScaffold.pages c)) chapters)
    /\ Forall (is_AutoWriteRequest (captured_title captured)) new
    /\ (error (app s') = error (app s)
        \/ error (app s') = Some (lit "An AI action failed. Please try again.")).
Proof.
  revert s. induction chapters as [|chapter chapters IH]; intros s Hfound.
  - exists s, []. simpl. rewrite app_nil_r. repeat split; auto.
  - cbn [draft_chapters]. unfold bind at 1.
    destruct (draft_pages_run chapter (ChapterScaffold.pages chapter) s)
      as (s1 & new1 & -> & Hreq1 & Hlen1 & Hall1 & Herr1).
    { intros page Hpage. apply Hfound; [by left|done]. }
    destruct (IH s1) as (s' & new & -> & Hreq & Hlen & Hall & Herr).
    { intros c page Hc Hpage. apply Hfound; [by right|done]. }
    exists s', (new1 ++ new). split; [done|].
    split; [rewrite Hreq, Hreq1; by rewrite <- app_assoc|].
    split; [cbn [flat_map]; by rewrite !length_app, Hlen1, Hlen|].
    split; [by apply Forall_app|].
    destruct Herr as [-> | ->]; [exact Herr1|by right].
Qed.

End WithService.

(** Auto-drafting the whole story (chapter ids pairwise different): one
    auto-write request is made, in document order, for every page whose
    text is blank in the document the render shows, and none for the
    others; a stream that fails does not stop the loop, because the page
    action has caught the exception already, so "Auto-drafting failed" is
    never shown for it: the error shown at the end is the one there was
    before or "An AI action failed".  The handler never rejects and leaves
    the robot idle. *)
Theorem auto_draft_requests_every_blank_page (svc : Service) (sd : StoryDocument.t)
    (s : State) :
  NoDup (ChapterScaffold.id <$> StoryDocument.chapters sd) ->
  let s' := snd (onAutoDraftAll svc (Some sd) s) in
  fst (onAutoDraftAll svc (Some sd) s) = Return tt
  /\ robotState (app s') = idle
  /\ (error (app s') = error (app s)
      \/ error (app s') = Some (lit "An AI action failed. Please try again."))
  /\ exists new,
       requests s' = requests s ++ new
       /\ length new = length (blank_pages sd)
       /\ Forall (is_AutoWriteRequest (StoryDocument.title sd)) new.
Proof.
  intros Hnd. cbv zeta. unfold onAutoDraftAll. run.
  destruct (draft_chapters_run svc (Some sd) (StoryDocument.chapters sd)
              (on_app (setRobotState writing) s))
    as (s1 & new & Hrun & Hreq & Hlen & Hall & Herr).
  { intros chapter page Hc Hpage.
    apply list_elem_of_lookup in Hc as [k Hk].
    unfold find_page, find_chapter. rewrite (find_own_chapter _ k chapter Hnd Hk).
    apply (find_exists _ _ page); [done|]. by rewrite bool_decide_eq_true_2. }
  rewrite Hrun. simpl in *.
  split; [done|]. split; [done|]. split; [exact Herr|].
  exists new. done.
Qed.

End StoryEditingFacts.

(** ** The chat and the regenerate buttons of the presentation editor *)

Module PresentationActionsFacts.
Import Presentation PresentationActions.

#[local] Opaque lit String_of_nat.

Ltac run :=
  unfold handleAskQuestion, handleRegenerateSlideContent, handleRegenerateSlideImage,
    regenerateSlideContent, generateImageForSlide, generateImagePromptForSlide,
    PresentationActions.await, lift, Presentation.console_error,
    bind, ret, throw, modify, try_catch, try_finally, gets; simpl.

Section WithService.
Variable w : Presentation.World.
Variable svc : Service.

(** Submitting the chat box.  A blank text, or a text submitted while an
    answer is pending, sends nothing and stays in the box.  Otherwise the
    box is cleared and, when there is a document, one request is made with
    the text as typed (not trimmed); afterwards the chat holds exactly two
    messages, the question and the model's answer (or the apology, when the
    request failed): what the chat held before is gone.  The document is
    not touched and the pending flag is cleared. *)
Theorem chat_holds_the_latest_exchange (input : jsstring) (s : State) :
  (Text.trim input = [] \/ isAiAnswering s = true ->
   handleSubmit svc input s = (Return input, s))
  /\ (Text.trim input <> [] -> isAiAnswering s = false ->
      fst (handleSubmit svc input s) = Return []
      /\ match presentationDocument (app s) with
         | None => snd (handleSubmit svc input s) = s
         | Some doc =>
             chatMessages (snd (handleSubmit svc input s))
             = [ mkMessage user input;
                 mkMessage model
                   match answer_text svc (requests s) doc input with
                   | Return answer => answer
                   | Throw _ => sorry_message
                   end ]
             /\ requests (snd (handleSubmit svc input s))
                = requests s ++ [AnswerRequest doc input]
             /\ isAiAnswering (snd (handleSubmit svc input s)) = false
             /\ presentationDocument (app (snd (handleSubmit svc input s))) = Some doc
             /\ error (app (snd (handleSubmit svc input s))) = error (app s)
         end).
Proof.
  unfold handleSubmit. split.
  - intros Hwhy. run.
    destruct (decide (Text.trim input = [])) as [Hblank|Hfull].
    + by rewrite bool_decide_eq_false_2 by (intros H; by apply H).
    + destruct Hwhy as [?| ->]; [done|]. by rewrite andb_false_r.
  - intros Hfull Hidle. run. rewrite Hidle, bool_decide_eq_true_2 by done. simpl.
    destruct (presentationDocument (app s)) as [doc|] eqn:Hdoc; simpl; [|done].
    rewrite ?Hidle. simpl.
    destruct (answer_text svc (requests s) doc input); simpl; repeat split; done.
Qed.

Lemma set_content_slides slideId newContent (d : PresentationDocument.t) :
  exists d',
    set_content slideId newContent (Some d) = Some d'
    /\ PresentationDocument.id d' = PresentationDocument.id d
    /\ PresentationDocument.title d' = PresentationDocument.title d
    /\ length (PresentationDocument.slides d') = length (PresentationDocument.slides d)
    /\ forall i slide,
         PresentationDocument.slides d !! i = Some slide ->
         PresentationDocument.slides d' !! i
         = Some (if decide (SlideScaffold.id slide = slideId)
                 then SlideScaffold.mk (SlideScaffold.id slide) (SlideScaffold.title slide)
                        newContent (SlideScaffold.imageUrl slide)
                 else slide).
Proof.
  eexists. split; [reflexivity|]. simpl. split; [done|]. split; [done|].
  split; [by rewrite length_map|].
  intros i slide Hi. by rewrite (UpdateFacts.map_lookup_if _ _ _ _ _ Hi).
Qed.

Lemma set_imageUrl_slides slideId newImageUrl (d : PresentationDocument.t) :
  exists d',
    set_imageUrl slideId newImageUrl (Some d) = Some d'
    /\ PresentationDocument.id d' = PresentationDocument.id d
    /\ PresentationDocument.title d' = PresentationDocument.title d
    /\ length (PresentationDocument.slides d') = length (PresentationDocument.slides d)
    /\ forall i slide,
         PresentationDocument.slides d !! i = Some slide ->
         PresentationDocument.slides d' !! i
         = Some (if decide (SlideScaffold.id slide = slideId)
                 then SlideScaffold.mk (SlideScaffold.id slide) (SlideScaffold.title slide)
                        (SlideScaffold.content slide) (Some newImageUrl)
                 else slide).
Proof.
  eexists. split; [reflexivity|]. simpl. split; [done|]. split; [done|].
  split; [by rewrite length_map|].
  intros i slide Hi. by rewrite (UpdateFacts.map_lookup_if _ _ _ _ _ Hi).
Qed.

(** Regenerating the bullets of a slide that the rendered document
    holds: one request, made with the title of that slide.  When it
    succeeds, every slide with the id gets the new bullets (none at all
    when the answer has no [content]) and nothing else changes; when it
    fails, the document is untouched and the failure is logged but not
    shown: the error cell stays as it was.  Either way the handler does not
    reject and the action marker is cleared. *)
Theorem regenerated_bullets_replace_the_old (slideId : jsstring) (d : PresentationDocument.t)
    (slide : SlideScaffold.t) (s : State) :
  presentationDocument (app s) = Some d ->
  find_slide (Some d) slideId = Some slide ->
  let s' := snd (handleRegenerateSlideContent svc slideId s) in
  fst (handleRegenerateSlideContent svc slideId s) = Return tt
  /\ actionInProgress s' = None
  /\ error (app s') = error (app s)
  /\ requests s' = requests s ++ [ContentRequest (SlideScaffold.title slide)]
  /\ match parsed_content svc (requests s) (SlideScaffold.title slide) with
     | Return parsed =>
         log s' = log s
         /\ exists d',
              presentationDocument (app s') = Some d'
              /\ PresentationDocument.id d' = PresentationDocument.id d
              /\ PresentationDocument.title d' = PresentationDocument.title d
              /\ length (PresentationDocument.slides d') = length (PresentationDocument.slides d)
              /\ forall i slide0,
                   PresentationDocument.slides d !! i = Some slide0 ->
                   PresentationDocument.slides d' !! i
                   = Some (if decide (SlideScaffold.id slide0 = slideId)
                           then SlideScaffold.mk (SlideScaffold.id slide0)
                                  (SlideScaffold.title slide0) (default [] parsed)
                                  (SlideScaffold.imageUrl slide0)
                           else slide0)
     | Throw e =>
         presentationDocument (app s') = Some d
         /\ log s' = log s ++ [(lit "Failed to regenerate slide content", e)]
     end.
Proof.
  intros Hd Hslide. cbv zeta. run. rewrite Hd, Hslide. simpl.
  destruct (parsed_content svc (requests s) (SlideScaffold.title slide)) as [parsed|e]; simpl.
  - repeat split; try done. rewrite Hd. apply set_content_slides.
  - repeat split; done.
Qed.

(** Regenerating the image of a slide that the rendered document holds:
    one request for an image prompt, made with the title and bullets of
    that slide, then one image request.  When the prompt request fails the
    document is untouched and the failure is logged.  Otherwise every slide
    with the id gets the URL that [generateSlideImage] returns as its
    [imageUrl]: the data URL of the new image, or the empty string when the
    image request failed or brought no image, so that the image the slide
    had is gone.  In no case is an error shown; the handler does not reject
    and the action marker is cleared. *)
Theorem regenerated_image_replaces_the_old (slideId : jsstring) (d : PresentationDocument.t)
    (slide : SlideScaffold.t) (s : State) :
  presentationDocument (app s) = Some d ->
  find_slide (Some d) slideId = Some slide ->
  let s' := snd (handleRegenerateSlideImage w svc slideId s) in
  fst (handleRegenerateSlideImage w svc slideId s) = Return tt
  /\ actionInProgress s' = None
  /\ error (app s') = error (app s)
  /\ requests s'
     = requests s ++ [ImagePromptRequest (SlideScaffold.title slide)
                        (SlideScaffold.content slide)]
  /\ match image_prompt_text svc (requests s) (SlideScaffold.title slide)
             (SlideScaffold.content slide) with
     | Return imagePrompt =>
         let newImageUrl :=
           match images_response w (trace (app s) ++ [Started ImageCall]) imagePrompt with
           | Return (imageBytes :: _) => lit "data:image/jpeg;base64," ++ imageBytes
           | _ => []
           end in
         log s' = log s
         /\ exists d',
              presentationDocument (app s') = Some d'
              /\ PresentationDocument.id d' = PresentationDocument.id d
              /\ PresentationDocument.title d' = PresentationDocument.title d
              /\ length (PresentationDocument.slides d') = length (PresentationDocument.slides d)
              /\ forall i slide0,
                   PresentationDocument.slides d !! i = Some slide0 ->
                   PresentationDocument.slides d' !! i
                   = Some (if decide (SlideScaffold.id slide0 = slideId)
                           then SlideScaffold.mk (SlideScaffold.id slide0)
                                  (SlideScaffold.title slide0) (SlideScaffold.content slide0)
                                  (Some newImageUrl)
                           else slide0)
     | Throw e =>
         presentationDocument (app s') = Some d
         /\ log s' = log s ++ [(lit "Failed to regenerate slide image", e)]
     end.
Proof.
  intros Hd Hslide. cbv zeta. run. rewrite Hd, Hslide. simpl.
  destruct (image_prompt_text svc (requests s) (SlideScaffold.title slide)
              (SlideScaffold.content slide)) as [imagePrompt|e]; simpl.
  - destruct (PresentationFacts.generateSlideImage_run w imagePrompt (app s))
      as (url & a1 & Hrun & (_ & Hdoc & Herr & _) & _ & _ & Hurl).
    rewrite Hrun. simpl. rewrite Hdoc, Herr, Hd.
    split; [done|]. split; [done|]. split; [done|]. split; [done|]. split; [done|].
    rewrite Hurl. apply set_imageUrl_slides.
  - repeat split; done.
Qed.

End WithService.

End PresentationActionsFacts.

(** ** Runs of the editor handlers on the sample documents *)

Module EditingExamples.
Import EditingSamples.


Lemma auto_written_page_holds_the_stream_witness :
  let s' := snd (StoryEditing.onAutoWritePageStream story_service (Some draft)
                   (lit "c1") (lit "p1") opened) in
  fst (StoryEditing.onAutoWritePageStream story_service (Some draft)
         (lit "c1") (lit "p1") opened) = Return tt
  /\ StoryEditing.requests s'
     = [StoryEditing.AutoWriteRequest (lit "Saga") (lit "One") (lit "a hero sets out")]
  /\ Story.storyDocument (StoryEditing.app s')
     = StoryEditing.append_page_text (lit "c1") (lit "p1") (lit "New text")
         (Story.onUpdatePage (lit "c1") (lit "p1")
            (PageScaffold.mkPartial None None (Some []) None None) (Some draft))
  /\ (forall d' c' p',
        Story.storyDocument (StoryEditing.app s') = Some d' ->
        c' ∈ StoryDocument.chapters d' -> ChapterScaffold.id c' = lit "c1" ->
        p' ∈ ChapterScaffold.pages c' -> PageScaffold.id p' = lit "p1" ->
        PageScaffold.page_text p' = lit "New text")
  /\ Story.robotState (StoryEditing.app s') = idle
  /\ Story.error (StoryEditing.app s') = None.
Proof.
  apply (StoryEditingFacts.auto_written_page_holds_the_stream story_service (Some draft)
           (lit "c1") (lit "p1") page_one opened).
  reflexivity.
Defined.


Lemma auto_draft_requests_every_blank_page_witness :
  let s' := snd (StoryEditing.onAutoDraftAll story_service (Some draft) opened) in
  fst (StoryEditing.onAutoDraftAll story_service (Some draft) opened) = Return tt
  /\ Story.robotState (StoryEditing.app s') = idle
  /\ (Story.error (StoryEditing.app s') = None
      \/ Story.error (StoryEditing.app s')
         = Some (lit "An AI action failed. Please try again."))
  /\ exists new,
       StoryEditing.requests s' = [] ++ new
       /\ length new = length (StoryEditing.blank_pages draft)
       /\ Forall (StoryEditing.is_AutoWriteRequest (lit "Saga")) new.
Proof.
  apply (StoryEditingFacts.auto_draft_requests_every_blank_page story_service draft opened).
  apply (bool_decide_unpack _). vm_compute. exact I.
Defined.

(** The auto-draft of [draft] writes its one blank page and leaves the
    other alone. *)
Example auto_draft_of_draft :
  let s' := snd (StoryEditing.onAutoDraftAll story_service (Some draft) opened) in
  StoryEditing.requests s'
  = [StoryEditing.AutoWriteRequest (lit "Saga") (lit "One") (lit "the road")]
  /\ option_map (fun d => map (fun c => map PageScaffold.page_text (ChapterScaffold.pages c))
                            (StoryDocument.chapters d))
       (Story.storyDocument (StoryEditing.app s'))
     = Some [[lit "Once"; lit "New text"]; []].
Proof. vm_compute. split; reflexivity. Qed.

(** An empty suggested title keeps the title the chapter has. *)
Example suggested_titles_of_draft :
  option_map (fun d => map ChapterScaffold.title (StoryDocument.chapters d))
    (Story.storyDocument
       (StoryEditing.app (snd (StoryEditing.onSuggestTitles story_service (Some draft) opened))))
  = Some [lit "Dawn"; lit "Two"].
Proof. vm_compute. reflexivity. Qed.

Lemma regenerated_bullets_replace_the_old_witness :
  let s' := snd (PresentationActions.handleRegenerateSlideContent presentation_service
                   (lit "a") editing) in
  fst (PresentationActions.handleRegenerateSlideContent presentation_service (lit "a") editing)
  = Return tt
  /\ PresentationActions.actionInProgress s' = None
  /\ Presentation.error (PresentationActions.app s') = None
  /\ PresentationActions.requests s' = [PresentationActions.ContentRequest (lit "First")]
  /\ PresentationActions.log s' = []
  /\ exists d',
       Presentation.presentationDocument (PresentationActions.app s') = Some d'
       /\ PresentationDocument.id d' = lit "doc"
       /\ PresentationDocument.title d' = lit "Deck"
       /\ length (PresentationDocument.slides d') = 2
       /\ forall i slide0,
            PresentationDocument.slides PresentationWorlds.two_slides !! i = Some slide0 ->
            PresentationDocument.slides d' !! i
            = Some (if decide (SlideScaffold.id slide0 = lit "a")
                    then SlideScaffold.mk (SlideScaffold.id slide0)
                           (SlideScaffold.title slide0) [] (SlideScaffold.imageUrl slide0)
                    else slide0).
Proof.
  apply (PresentationActionsFacts.regenerated_bullets_replace_the_old presentation_service
           (lit "a") PresentationWorlds.two_slides
           (SlideScaffold.mk (lit "a") (lit "First") [lit "x"] None) editing).
  - reflexivity.
  - reflexivity.
Defined.

Lemma regenerated_image_replaces_the_old_witness :
  let s' := snd (PresentationActions.handleRegenerateSlideImage
                   PresentationWorlds.world_images_fail presentation_service (lit "b")
                   editing) in
  fst (PresentationActions.handleRegenerateSlideImage PresentationWorlds.world_images_fail
         presentation_service (lit "b") editing) = Return tt
  /\ PresentationActions.actionInProgress s' = None
  /\ Presentation.error (PresentationActions.app s') = None
  /\ PresentationActions.requests s'
     = [PresentationActions.ImagePromptRequest (lit "Second") [lit "y"]]
  /\ PresentationActions.log s' = []
  /\ exists d',
       Presentation.presentationDocument (PresentationActions.app s') = Some d'
       /\ PresentationDocument.id d' = lit "doc"
       /\ PresentationDocument.title d' = lit "Deck"
       /\ length (PresentationDocument.slides d') = 2
       /\ forall i slide0,
            PresentationDocument.slides PresentationWorlds.two_slides !! i = Some slide0 ->
            PresentationDocument.slides d' !! i
            = Some (if decide (SlideScaffold.id slide0 = lit "b")
                    then SlideScaffold.mk (SlideScaffold.id slide0)
                           (SlideScaffold.title slide0) (SlideScaffold.content slide0)
                           (Some [])
                    else slide0).
Proof.
  apply (PresentationActionsFacts.regenerated_image_replaces_the_old
           PresentationWorlds.world_images_fail presentation_service
           (lit "b") PresentationWorlds.two_slides
           (SlideScaffold.mk (lit "b") (lit "Second") [lit "y"]
              (Some (lit "data:image/jpeg;base64,AA"))) editing).
  - reflexivity.
  - reflexivity.
Defined.

(** A failed image request takes the picture off the slide. *)
Example failed_regeneration_blanks_the_image :
  option_map (fun d => map SlideScaffold.imageUrl (PresentationDocument.slides d))
    (Presentation.presentationDocument
       (PresentationActions.app
          (snd (PresentationActions.handleRegenerateSlideImage
                  PresentationWorlds.world_images_fail presentation_service (lit "b")
                  editing))))
  = Some [None; Some []].
Proof. vm_compute. reflexivity. Qed.

(** A question replaces the chat. *)
Example chat_after_a_question :
  PresentationActions.chatMessages
    (snd (PresentationActions.handleSubmit presentation_service (lit "Why?") editing))
  = [PresentationActions.mkMessage PresentationActions.user (lit "Why?");
     PresentationActions.mkMessage PresentationActions.model (lit "Forty-two")].
Proof. vm_compute. reflexivity. Qed.

Lemma runPageAction_never_rejects_witness :
  fst (StoryEditing.runPageAction (T:=unit) (Some draft) (lit "c1") (lit "p9")
         (fun _ => ret tt) opened) = Return tt
  /\ snd (StoryEditing.runPageAction (T:=unit) (Some draft) (lit "c1") (lit "p9")
            (fun _ => ret tt) opened)
     = StoryEditing.mkState
         (Story.setError (Some (lit "An error occurred: Page not found."))
            (StoryEditing.app opened))
         [] [lit "Page not found!"]
  /\ Story.robotState
       (StoryEditing.app
          (snd (StoryEditing.runPageAction (T:=unit) (Some draft) (lit "c1") (lit "p1")
                  (fun _ => throw StoryWorlds.quota_error) opened))) = idle.
Proof.
  destruct (StoryEditingFacts.runPageAction_never_rejects (T:=unit) (Some draft)
              (lit "c1") (lit "p9") (fun _ => ret tt) opened) as (Hfst & Hmissing & _).
  destruct (StoryEditingFacts.runPageAction_never_rejects (T:=unit) (Some draft)
              (lit "c1") (lit "p1") (fun _ => throw StoryWorlds.quota_error) opened)
    as (_ & _ & Hfound).
  split; [exact Hfst|]. split.
  - exact (Hmissing eq_refl).
  - exact (proj1 (Hfound page_one eq_refl)).
Defined.

Lemma suggestions_are_applied_by_position_witness :
  (exists d',
     Story.storyDocument
       (StoryEditing.app (snd (StoryEditing.onSuggestTitles story_service (Some draft) opened)))
     = Some d'
     /\ StoryEditing.replaced_by_index ChapterScaffold.title ChapterScaffold.summary
          [lit "Dawn"; []] draft d')
  /\ Story.error
       (StoryEditing.app (snd (StoryEditing.onSummarizeChapters story_service (Some draft) opened)))
     = Some (lit "Could not generate summaries.")
  /\ Story.storyDocument
       (StoryEditing.app (snd (StoryEditing.onSummarizeChapters story_service (Some draft) opened)))
     = Some draft.
Proof.
  destruct (StoryEditingFacts.suggestions_are_applied_by_position story_service draft opened)
    as [(_ & _ & _ & _ & Htitles) (_ & _ & _ & Herr & Hdoc & _)].
  split; [exact Htitles|]. split; [exact Herr|exact Hdoc].
Defined.

Lemma chat_holds_the_latest_exchange_witness :
  PresentationActions.handleSubmit presentation_service (lit "  ") editing
  = (Return (lit "  "), editing)
  /\ fst (PresentationActions.handleSubmit presentation_service (lit "Why?") editing)
     = Return []
  /\ PresentationActions.chatMessages
       (snd (PresentationActions.handleSubmit presentation_service (lit "Why?") editing))
     = [PresentationActions.mkMessage PresentationActions.user (lit "Why?");
        PresentationActions.mkMessage PresentationActions.model (lit "Forty-two")]
  /\ PresentationActions.requests
       (snd (PresentationActions.handleSubmit presentation_service (lit "Why?") editing))
     = [PresentationActions.AnswerRequest PresentationWorlds.two_slides (lit "Why?")].
Proof.
  split.
  - apply (proj1 (PresentationActionsFacts.chat_holds_the_latest_exchange presentation_service
                    (lit "  ") editing)).
    left. reflexivity.
  - destruct (proj2 (PresentationActionsFacts.chat_holds_the_latest_exchange
                       presentation_service (lit "Why?") editing))
      as (Hfst & Hchat & Hreq & _).
    + vm_compute. discriminate.
    + reflexivity.
    + split; [exact Hfst|]. split; [exact Hchat|exact Hreq].
Defined.

End EditingExamples.
